(** * HDFS-lite: a shallow embedding of the NameNode, DataNode and client

    The development follows the three Python sources:

    - [namenode.py]: classes [FileMetadata], [DataNodeInfo], [NameNode];
    - [datanode.py]: class [DataNode] ([load_chunks], [store_chunk],
      [retrieve_chunk], [delete_chunk], the heartbeat request);
    - [client.py]:   class [DFSClient] ([send_to_namenode], [upload_file],
      [download_file], [delete_file] and the two chunk transfers).

    Modelling conventions.

    - Python [int] is [Z]; [//] is [Z.div] (both round towards minus
      infinity for a positive divisor).
    - [time.time()] is a [Z] number of clock ticks; a handler reads the clock
      once per request, and the liveness timeout of [is_healthy] is [30].
    - An insertion-ordered [dict] whose iteration order is observable (the
      DataNode registry feeding a stable sort, the per-file chunk table, the
      JSON maps exchanged with the client) is an association list updated in
      place ([dict_set]); the file index and the DataNode tables, whose
      order is never observed by the modelled code, are [gmap]s.
    - [bytes] is [list byte]; a JSON message is a constructor of a request
      or response type carrying the fields of the Python dictionary, with
      the keys of a JSON object already read back as integers. Whether a
      control message arrives whole in the single 64 KiB read of the
      receiving side is for the control plane ([DFSClient.Control]) to say;
      the handlers of the NameNode are run on the requests that arrived.
    - A handler is a function from the server state (and the time of the
      request) to the new state and the response; an exception that
      [handle_client] would turn into an error response is that error
      response. Requests are served one at a time, each at one clock
      reading: the iterations of one handler are not interleaved with other
      requests.
    - A socket is the list of bytes that will arrive on it and the way the
      stream ends ([StreamEnd]); the storage directory of a DataNode is a
      map from path to content, written and read under chunk ids that are
      plain file names. The local file of an upload is its content, if the
      file exists; the local file of a download is what is written to it,
      if its path can be written.
    - The console output, the listing and statistics handlers and the
      process start-up are left out: no property below depends on them. *)

From Stdlib Require Import ZArith Lia.
From Stdlib.Strings Require Import Byte.
From stdpp Require Import base decidable option list sorting gmap strings pretty.

Local Open Scope Z_scope.

(** ** Insertion-ordered dictionaries *)

Section dict.
Context {K V : Type} `{EqDecision K}.

(** [d.get(k)] *)
Fixpoint dict_get (k : K) (d : list (K * V)) : option V :=
  match d with
  | [] => None
  | (k', v) :: d' => if decide (k = k') then Some v else dict_get k d'
  end.

(** [d[k] = v]: replaces the value in place, or appends a new key. *)
Fixpoint dict_set (k : K) (v : V) (d : list (K * V)) : list (K * V) :=
  match d with
  | [] => [(k, v)]
  | (k', v') :: d' =>
      if decide (k = k') then (k, v) :: d' else (k', v') :: dict_set k v d'
  end.

(** [k in d] *)
Definition dict_contains (k : K) (d : list (K * V)) : bool :=
  bool_decide (is_Some (dict_get k d)).

Definition dict_keys (d : list (K * V)) : list K := d.*1.
Definition dict_values (d : list (K * V)) : list V := d.*2.
End dict.

(** [l.remove(x)]: removes the first occurrence of [x]. *)
Fixpoint py_list_remove {A} `{EqDecision A} (x : A) (l : list A) : list A :=
  match l with
  | [] => []
  | y :: l' => if decide (x = y) then l' else y :: py_list_remove x l'
  end.

(** [l[:count]], with Python's meaning of a negative [count]. *)
Definition py_slice_to {A} (l : list A) (count : Z) : list A :=
  if bool_decide (count < 0)
  then take (length l - Z.to_nat (- count))%nat l
  else take (Z.to_nat count) l.

(** [l.sort(key=key, reverse=True)]: the stable sort in descending key order.
    A stable sort has one possible result, so insertion sort stands for
    Python's. An element goes in front of the elements of equal key that
    followed it in the input. *)
Fixpoint insert_desc {A} (key : A → Z) (x : A) (l : list A) : list A :=
  match l with
  | [] => [x]
  | y :: l' =>
      if bool_decide (key x < key y) then y :: insert_desc key x l'
      else x :: y :: l'
  end.

Definition py_sort_reverse {A} (key : A → Z) (l : list A) : list A :=
  foldr (insert_desc key) [] l.

(** ** namenode.py : class FileMetadata *)

Module FileMetadata.
Record t := mk {
  filename : string;
  size : Z;
  chunk_size : Z;
  replication_factor : Z;
  created_at : Z;
  chunks : list (Z * list string)   (* chunk_id -> [datanode_ids] *)
}.

Definition init (now : Z) (filename : string) (size chunk_size replication_factor : Z) : t :=
  mk filename size chunk_size replication_factor now [].

Definition with_chunks (self : t) (c : list (Z * list string)) : t :=
  mk (filename self) (size self) (chunk_size self) (replication_factor self)
     (created_at self) c.

(** [self.chunks.get(chunk_id, [])] *)
Definition get_chunk_locations (chunk_id : Z) (self : t) : list string :=
  default [] (dict_get chunk_id (chunks self)).

Definition add_chunk_location (chunk_id : Z) (datanode_id : string) (self : t) : t :=
  let self1 :=
    if dict_contains chunk_id (chunks self) then self
    else with_chunks self (dict_set chunk_id [] (chunks self)) in
  let l := get_chunk_locations chunk_id self1 in
  if bool_decide (datanode_id ∈ l) then self1
  else with_chunks self1 (dict_set chunk_id (l ++ [datanode_id]) (chunks self1)).

Definition remove_chunk_location (chunk_id : Z) (datanode_id : string) (self : t) : t :=
  if dict_contains chunk_id (chunks self)
     && bool_decide (datanode_id ∈ get_chunk_locations chunk_id self)
  then with_chunks self
         (dict_set chunk_id
            (py_list_remove datanode_id (get_chunk_locations chunk_id self))
            (chunks self))
  else self.

Definition is_under_replicated (self : t) : list Z :=
  (filter (λ kv, Z.of_nat (length kv.2) < replication_factor self) (chunks self)).*1.
End FileMetadata.

(** ** namenode.py : class DataNodeInfo *)

Module DataNodeInfo.
Record t := mk {
  node_id : string;
  host : string;
  port : Z;
  last_heartbeat : Z;
  chunks : gset string;
  available_space : Z;
  total_space : Z;
  is_alive : bool
}.

Definition init (now : Z) (node_id host : string) (port : Z) : t :=
  mk node_id host port now ∅ 0 0 true.

Definition update_heartbeat (now : Z) (available_space total_space : Z)
    (chunks : list string) (self : t) : t :=
  mk (node_id self) (host self) (port self) now (list_to_set chunks)
     available_space total_space true.

Definition is_healthy_within (timeout : Z) (now : Z) (self : t) : bool :=
  bool_decide (now - last_heartbeat self < timeout).

(** [is_healthy()] is always called with its default [timeout=30]. *)
Definition is_healthy (now : Z) (self : t) : bool := is_healthy_within 30 now self.

Definition set_is_alive (b : bool) (self : t) : t :=
  mk (node_id self) (host self) (port self) (last_heartbeat self) (chunks self)
     (available_space self) (total_space self) b.

(** The dictionary [to_dict] returns; [chunk_count] is [len(self.chunks)]. *)
Record Dict := mkDict {
  dict_node_id : string;
  dict_host : string;
  dict_port : Z;
  dict_last_heartbeat : Z;
  dict_available_space : Z;
  dict_total_space : Z;
  dict_is_alive : bool;
  dict_chunk_count : Z
}.

Definition to_dict (self : t) : Dict :=
  mkDict (node_id self) (host self) (port self) (last_heartbeat self)
    (available_space self) (total_space self) (is_alive self)
    (Z.of_nat (size (chunks self))).
End DataNodeInfo.

(** The dictionary [{'node_id': .., 'host': .., 'port': ..}] that names a
    DataNode in [chunk_assignments] and [chunk_locations]. *)
Record NodeRef := mkNodeRef {
  ref_node_id : string;
  ref_host : string;
  ref_port : Z
}.

(** ** namenode.py : class NameNode *)

Module NameNode.
Record t := mk {
  chunk_size : Z;
  replication_factor : Z;
  files : gmap string FileMetadata.t;                (* filename -> metadata *)
  datanodes : list (string * DataNodeInfo.t)         (* node_id -> info *)
}.

(** [NameNode(chunk_size=.., replication_factor=..)] *)
Definition init (chunk_size replication_factor : Z) : t :=
  mk chunk_size replication_factor ∅ [].

Definition with_files (self : t) (f : gmap string FileMetadata.t) : t :=
  mk (chunk_size self) (replication_factor self) f (datanodes self).

Definition with_datanodes (self : t) (d : list (string * DataNodeInfo.t)) : t :=
  mk (chunk_size self) (replication_factor self) (files self) d.

(** The JSON responses of the control plane. *)
Inductive Response :=
| Error (message : string)
| Success (message : string)
| SuccessPlain
| UploadInitSuccess (chunk_size num_chunks : Z)
    (chunk_assignments : list (Z * list NodeRef))
| DownloadInitSuccess (filename : string) (filesize chunk_size : Z)
    (chunk_locations : list (Z * list NodeRef))
| FileInfoSuccess (file : FileMetadata.t).

Definition register_datanode (self : t) (now : Z)
    (node_id host : string) (port : Z) : t * Response :=
  if dict_contains node_id (datanodes self) then
    (self, Success "DataNode already registered")
  else
    (with_datanodes self
       (dict_set node_id (DataNodeInfo.init now node_id host port) (datanodes self)),
     Success "DataNode registered").

Definition handle_heartbeat (self : t) (now : Z) (node_id : string)
    (available_space total_space : Z) (chunks : list string) : t * Response :=
  match dict_get node_id (datanodes self) with
  | Some info =>
      (with_datanodes self
         (dict_set node_id
            (DataNodeInfo.update_heartbeat now available_space total_space chunks info)
            (datanodes self)),
       SuccessPlain)
  | None => (self, Error "DataNode not registered")
  end.

Definition node_ref (node : DataNodeInfo.t) : NodeRef :=
  mkNodeRef (DataNodeInfo.node_id node) (DataNodeInfo.host node) (DataNodeInfo.port node).

Definition select_datanodes_for_chunk (self : t) (now : Z) (count : Z) : list NodeRef :=
  let healthy_nodes :=
    filter (λ node, DataNodeInfo.is_healthy now node = true)
           (dict_values (datanodes self)) in
  let healthy_nodes := py_sort_reverse DataNodeInfo.available_space healthy_nodes in
  let selected := py_slice_to healthy_nodes count in
  node_ref <$> selected.

Definition insufficient_message (need found : Z) : string :=
  "Insufficient DataNodes. Need " +:+ pretty need +:+ ", found " +:+ pretty found.

(** The loop [for chunk_id in range(num_chunks)] of [handle_upload_init]:
    [inr message] is the early error return. Every iteration calls
    [select_datanodes_for_chunk], which reads the registry and the clock;
    the loop is run against the one state and the one clock reading [now] of
    the request. *)
Fixpoint assign_chunks (self : t) (now : Z) (chunk_ids : list Z)
    (chunk_assignments : list (Z * list NodeRef))
    : list (Z * list NodeRef) + string :=
  match chunk_ids with
  | [] => inl chunk_assignments
  | chunk_id :: rest =>
      let datanodes := select_datanodes_for_chunk self now (replication_factor self) in
      if bool_decide (Z.of_nat (length datanodes) < replication_factor self) then
        inr (insufficient_message (replication_factor self) (Z.of_nat (length datanodes)))
      else
        assign_chunks self now rest (dict_set chunk_id datanodes chunk_assignments)
  end.

(** [filesize // chunk_size] raises [ZeroDivisionError] for a zero chunk
    size; [handle_client] turns the exception into an error response. *)
Definition handle_upload_init (self : t) (now : Z)
    (filename : string) (filesize : Z) : t * Response :=
  if decide (chunk_size self = 0) then
    (self, Error "integer division or modulo by zero")
  else
    let num_chunks := (filesize + chunk_size self - 1) `div` chunk_size self in
    match assign_chunks self now (seqZ 0 num_chunks) [] with
    | inr message => (self, Error message)
    | inl chunk_assignments =>
        (self, UploadInitSuccess (chunk_size self) num_chunks chunk_assignments)
    end.

(** The loops [for chunk_id_str, datanode_ids in chunks.items(): for
    datanode_id in datanode_ids: metadata.add_chunk_location(..)] of
    [handle_upload_complete]. *)
Definition add_chunk_locations (metadata : FileMetadata.t)
    (chunks : list (Z * list string)) : FileMetadata.t :=
  foldl (λ md '(chunk_id, datanode_ids),
           foldl (λ md datanode_id,
                    FileMetadata.add_chunk_location chunk_id datanode_id md)
                 md datanode_ids)
        metadata chunks.

(** [chunks] is the request's JSON object with its keys read by [int()]. *)
Definition handle_upload_complete (self : t) (now : Z) (filename : string)
    (filesize : Z) (chunks : list (Z * list string)) : t * Response :=
  let metadata :=
    FileMetadata.init now filename filesize (chunk_size self) (replication_factor self) in
  let metadata := add_chunk_locations metadata chunks in
  (with_files self (<[filename := metadata]> (files self)),
   Success ("File " +:+ filename +:+ " uploaded successfully")).

(** The inner loop of [handle_download_init] over one replica list. *)
Definition healthy_refs (self : t) (now : Z) (datanode_ids : list string) : list NodeRef :=
  omap (λ node_id,
          match dict_get node_id (datanodes self) with
          | Some node_info =>
              if DataNodeInfo.is_healthy now node_info
              then Some (mkNodeRef node_id (DataNodeInfo.host node_info)
                                   (DataNodeInfo.port node_info))
              else None
          | None => None
          end) datanode_ids.

Definition no_healthy_message (chunk_id : Z) : string :=
  "No healthy DataNodes for chunk " +:+ pretty chunk_id.

(** The loop over [metadata.chunks.items()] of [handle_download_init]:
    [inr message] is the early error return. *)
Fixpoint locate_chunks (self : t) (now : Z) (items : list (Z * list string))
    (chunk_locations : list (Z * list NodeRef))
    : list (Z * list NodeRef) + string :=
  match items with
  | [] => inl chunk_locations
  | (chunk_id, datanode_ids) :: rest =>
      let healthy_nodes := healthy_refs self now datanode_ids in
      match healthy_nodes with
      | [] => inr (no_healthy_message chunk_id)
      | _ => locate_chunks self now rest (dict_set chunk_id healthy_nodes chunk_locations)
      end
  end.

Definition not_found_message (filename : string) : string :=
  "File not found: " +:+ filename.

Definition handle_download_init (self : t) (now : Z) (filename : string) : t * Response :=
  match files self !! filename with
  | None => (self, Error (not_found_message filename))
  | Some metadata =>
      match locate_chunks self now (FileMetadata.chunks metadata) [] with
      | inr message => (self, Error message)
      | inl chunk_locations =>
          (self, DownloadInitSuccess filename (FileMetadata.size metadata)
                   (FileMetadata.chunk_size metadata) chunk_locations)
      end
  end.

Definition delete_file (self : t) (filename : string) : t * Response :=
  match files self !! filename with
  | None => (self, Error (not_found_message filename))
  | Some _ =>
      (with_files self (delete filename (files self)),
       Success ("File " +:+ filename +:+ " deleted"))
  end.

Definition get_file_info (self : t) (filename : string) : t * Response :=
  match files self !! filename with
  | None => (self, Error (not_found_message filename))
  | Some metadata => (self, FileInfoSuccess metadata)
  end.

(** [handle_node_failures]: for every file, every chunk and every dead
    node, [remove_chunk_location] when the node is in the replica list. *)
Definition purge_dead (dead_nodes : list string) (metadata : FileMetadata.t) : FileMetadata.t :=
  foldl (λ md chunk_id,
           foldl (λ md dead_node,
                    if bool_decide (dead_node ∈ FileMetadata.get_chunk_locations chunk_id md)
                    then FileMetadata.remove_chunk_location chunk_id dead_node md
                    else md)
                 md dead_nodes)
        metadata (dict_keys (FileMetadata.chunks metadata)).

Definition handle_node_failures (self : t) (dead_nodes : list string) : t :=
  with_files self (purge_dead dead_nodes <$> files self).

(** The scan of [heartbeat_monitor] under the registry lock: a node that is
    not healthy and still flagged alive is flagged dead and reported. *)
Fixpoint scan_datanodes (now : Z) (nodes : list (string * DataNodeInfo.t))
    : list (string * DataNodeInfo.t) * list string :=
  match nodes with
  | [] => ([], [])
  | (node_id, node) :: rest =>
      let '(rest', dead_nodes) := scan_datanodes now rest in
      if negb (DataNodeInfo.is_healthy now node) && DataNodeInfo.is_alive node
      then ((node_id, DataNodeInfo.set_is_alive false node) :: rest', node_id :: dead_nodes)
      else ((node_id, node) :: rest', dead_nodes)
  end.

(** One iteration of the loop of [heartbeat_monitor], after its sleep. *)
Definition heartbeat_monitor (self : t) (now : Z) : t :=
  let '(nodes, dead_nodes) := scan_datanodes now (datanodes self) in
  let self := with_datanodes self nodes in
  match dead_nodes with
  | [] => self
  | _ => handle_node_failures self dead_nodes
  end.

(** The commands of [handle_client] that the model covers. *)
Inductive Request :=
| RegisterDatanode (node_id host : string) (port : Z)
| Heartbeat (node_id : string) (available_space total_space : Z) (chunks : list string)
| UploadInit (filename : string) (filesize : Z)
| UploadComplete (filename : string) (filesize : Z) (chunks : list (Z * list string))
| DownloadInit (filename : string)
| DeleteFile (filename : string)
| FileInfo (filename : string).

Definition handle_client (self : t) (now : Z) (request : Request) : t * Response :=
  match request with
  | RegisterDatanode node_id host port => register_datanode self now node_id host port
  | Heartbeat node_id a s c => handle_heartbeat self now node_id a s c
  | UploadInit filename filesize => handle_upload_init self now filename filesize
  | UploadComplete filename filesize chunks =>
      handle_upload_complete self now filename filesize chunks
  | DownloadInit filename => handle_download_init self now filename
  | DeleteFile filename => delete_file self filename
  | FileInfo filename => get_file_info self filename
  end.

(** What happens to a NameNode: a request is served, or the liveness
    scanner completes a pass; each at a time [now]. *)
Inductive Event :=
| Serve (now : Z) (request : Request)
| Scan (now : Z).

Definition step (self : t) (e : Event) : t :=
  match e with
  | Serve now request => (handle_client self now request).1
  | Scan now => heartbeat_monitor self now
  end.

Definition run (self : t) (trace : list Event) : t := foldl step self trace.

(** The states a NameNode started with a positive chunk size and a
    non-negative replication factor can be in. *)
Definition reachable (self : t) : Prop :=
  ∃ chunk_size replication_factor trace,
    0 < chunk_size ∧ 0 ≤ replication_factor ∧
    self = run (init chunk_size replication_factor) trace.

(** The success response of [get_cluster_status]. *)
Record ClusterStatus := mkClusterStatus {
  status_datanodes : list DataNodeInfo.Dict;
  total_files : Z;
  total_size : Z
}.

(** [get_cluster_status]: [total_size] is [sum(f.size for f in
    self.files.values())], a sum of integers. *)
Definition get_cluster_status (self : t) : t * ClusterStatus :=
  (self,
   mkClusterStatus
     (DataNodeInfo.to_dict <$> dict_values (datanodes self))
     (Z.of_nat (size (files self)))
     (map_fold (λ _ f acc, FileMetadata.size f + acc) 0 (files self))).

(** One iteration of the loop of [replication_manager], after its sleep:
    the files it logs, each with its list of under-replicated chunks. *)
Definition replication_manager (self : t) : gmap string (list Z) :=
  omap (λ metadata,
          match FileMetadata.is_under_replicated metadata with
          | [] => None
          | under_replicated => Some under_replicated
          end) (files self).
End NameNode.


(** ** datanode.py : class DataNode *)

Module DataNode.
(** [disk] holds the files of the storage directory by path, [chunks] is the
    table [chunk_id -> file_path]. *)
Record t := mk {
  node_id : string;
  storage_dir : string;
  disk : gmap string (list byte);
  chunks : gmap string string
}.

(** [os.path.join(self.storage_dir, chunk_id)], for a directory name without
    a trailing separator and a chunk id that is a plain file name (a single
    path component): the path of the file of that name in the storage
    directory. *)
Definition path_join (dir name : string) : string := dir +:+ "/" +:+ name.

(** [hashlib.md5(chunk_data).hexdigest()], kept symbolic. *)
Inductive Checksum := MD5 (data : list byte).

Inductive Exception :=
| BrokenPipeError
| ConnectionResetError
| FileNotFoundError (path : string).

(** [str(e)] *)
Definition str (e : Exception) : string :=
  match e with
  | BrokenPipeError => "[Errno 32] Broken pipe"
  | ConnectionResetError => "[Errno 104] Connection reset by peer"
  | FileNotFoundError path =>
      "[Errno 2] No such file or directory: '" +:+ path +:+ "'"
  end.

(** The JSON responses of the data plane. *)
Inductive Response :=
| Error (message : string)
| Success (message : string)
| StoreSuccess (chunk_id : string) (size : Z) (checksum : Checksum)
| RetrieveSuccess (chunk_id : string) (size : Z).

(** How the byte stream a socket reads from ends: the peer closes the
    connection ([recv] returns [b'']) or the connection fails ([recv]
    raises). *)
Inductive StreamEnd := PeerClosed | ConnectionLost.

(** One connection, as the server sees it during [store_chunk]: whether
    [sendall(b'READY')] goes through, the bytes that arrive and how the
    stream ends after them, and whether the final [sendall] of the response
    goes through. *)
Record Conn := mkConn {
  can_send_ready : bool;
  incoming : list byte;
  ending : StreamEnd;
  can_send_reply : bool
}.

Inductive Outcome (A : Type) :=
| Returned (a : A)
| Raised (e : Exception)
| OutOfFuel.
Arguments Returned {A} a.
Arguments Raised {A} e.
Arguments OutOfFuel {A}.

(** [sock.recv(n)] for a positive [n]: the bytes at hand, [n] at most;
    [b''] when the peer has closed; an exception when the connection is
    lost. The second component is what is left of the stream. *)
Definition recv (n : Z) (ending : StreamEnd) (incoming : list byte)
    : Outcome (list byte * list byte) :=
  match incoming with
  | [] =>
      match ending with
      | PeerClosed => Returned ([], [])
      | ConnectionLost => Raised ConnectionResetError
      end
  | _ => Returned (take (Z.to_nat n) incoming, drop (Z.to_nat n) incoming)
  end.

(** The receive loop shared by [DataNode.store_chunk] and
    [DFSClient.retrieve_chunk_from_datanode]:
    [while remaining > 0: data = recv(min(8192, remaining)); if not data:
    break; chunk_data += data; remaining -= len(data)]. *)
Fixpoint recv_loop (fuel : nat) (ending : StreamEnd) (incoming : list byte)
    (chunk_data : list byte) (remaining : Z) : Outcome (list byte) :=
  match fuel with
  | O => OutOfFuel
  | S fuel' =>
      if bool_decide (remaining > 0) then
        match recv (Z.min 8192 remaining) ending incoming with
        | Returned (data, rest) =>
            match data with
            | [] => Returned chunk_data
            | _ => recv_loop fuel' ending rest (chunk_data ++ data)
                     (remaining - Z.of_nat (length data))
            end
        | Raised e => Raised e
        | OutOfFuel => OutOfFuel
        end
      else Returned chunk_data
  end.

(** Every iteration but the last takes at least one byte off the stream, so
    one more iteration than there are bytes is enough. *)
Definition recv_chunk (chunk_size : Z) (ending : StreamEnd) (incoming : list byte)
    : Outcome (list byte) :=
  recv_loop (S (length incoming)) ending incoming [] chunk_size.

(** [store_chunk]: the new state, the response the method returns, and the
    response that reaches the client, if one does. The [except] branch sends
    its error response under a [try] of its own. Writing the file is taken
    to succeed, as it does for a chunk id that is a plain file name in a
    storage directory that can be written: the exceptions of the model are
    those of the socket. *)
Definition store_chunk (self : t) (chunk_id : string) (chunk_size : Z) (conn : Conn)
    : t * Response * option Response :=
  let fail (self : t) (e : Exception) :=
    let response := Error (str e) in
    (self, response, if can_send_reply conn then Some response else None) in
  if negb (can_send_ready conn) then fail self BrokenPipeError
  else
    match recv_chunk chunk_size (ending conn) (incoming conn) with
    | Raised e => fail self e
    | OutOfFuel => fail self ConnectionResetError
    | Returned chunk_data =>
        let chunk_path := path_join (storage_dir self) chunk_id in
        let self :=
          mk (node_id self) (storage_dir self)
             (<[chunk_path := chunk_data]> (disk self))
             (<[chunk_id := chunk_path]> (chunks self)) in
        let response :=
          StoreSuccess chunk_id (Z.of_nat (length chunk_data)) (MD5 chunk_data) in
        if can_send_reply conn then (self, response, Some response)
        else fail self BrokenPipeError
    end.

(** [retrieve_chunk]: the response header and the bytes streamed after the
    client's [READY]. *)
Definition retrieve_chunk (self : t) (chunk_id : string) : Response * list byte :=
  match chunks self !! chunk_id with
  | None => (Error ("Chunk not found: " +:+ chunk_id), [])
  | Some chunk_path =>
      match disk self !! chunk_path with
      | None => (Error (str (FileNotFoundError chunk_path)), [])
      | Some chunk_data =>
          (RetrieveSuccess chunk_id (Z.of_nat (length chunk_data)), chunk_data)
      end
  end.

Definition delete_chunk (self : t) (chunk_id : string) : t * Response :=
  match chunks self !! chunk_id with
  | None => (self, Error ("Chunk not found: " +:+ chunk_id))
  | Some chunk_path =>
      (mk (node_id self) (storage_dir self)
          (delete chunk_path (disk self)) (delete chunk_id (chunks self)),
       Success ("Chunk " +:+ chunk_id +:+ " deleted"))
  end.

(** [load_chunks]: [listing] is what [os.listdir(self.storage_dir)] returns
    (nothing when the directory does not exist). *)
Definition load_chunks (self : t) (listing : list string) : t :=
  mk (node_id self) (storage_dir self) (disk self)
     (foldl (λ chunks filename,
               if String.prefix "chunk_" filename
               then <[filename := path_join (storage_dir self) filename]> chunks
               else chunks)
            ∅ listing).

(** The request one iteration of [heartbeat_loop] sends; [available] and
    [total] are what [get_storage_info] reads from the disk. The NameNode
    reads [chunks] as a set, so the order of the ids is left to the map. *)
Definition heartbeat_request (self : t) (available total : Z) : NameNode.Request :=
  NameNode.Heartbeat (node_id self) available total (map_to_list (chunks self)).*1.
End DataNode.

(** ** client.py : class DFSClient *)

Module DFSClient.
(** The NameNode and the DataNode servers listening at each [(host, port)]. *)
Record Cluster := mkCluster {
  namenode : NameNode.t;
  servers : gmap (string * Z) DataNode.t
}.

(** The network between the client and the DataNodes: what the server at an
    address sees of the connection on which the client sends the bytes of a
    chunk, and what the client receives of the bytes a server streams. *)
Record Link := mkLink {
  uplink : string * Z → string → list byte → DataNode.Conn;
  downlink : string * Z → string → list byte → list byte * DataNode.StreamEnd
}.

(** The control plane between a client and the NameNode. Each side reads a
    message with a single [recv(65536)] and parses what it got, so a message
    gets through only if that one call returns its whole JSON text, which it
    cannot for a text of more than 65536 bytes. For each message the field
    is [None] when it arrives whole, and otherwise the text of the error the
    client is left with. *)
Record Control := mkControl {
  request_lost : NameNode.Request → option string;
  response_lost : NameNode.Response → option string
}.

(** [send_to_namenode]: the NameNode state afterwards and the dictionary the
    method returns. A request that does not arrive whole is not served: the
    NameNode's [json.loads] raises and the client ends with an error
    dictionary, from the NameNode's [except] branch or from its own. A
    response that does not arrive whole leaves the request served and the
    client with the error dictionary of its own [except] branch. *)
Definition send_to_namenode (ctl : Control) (nn : NameNode.t) (now : Z)
    (request : NameNode.Request) : NameNode.t * NameNode.Response :=
  match request_lost ctl request with
  | Some message => (nn, NameNode.Error message)
  | None =>
      let '(nn, response) := NameNode.handle_client nn now request in
      match response_lost ctl response with
      | Some message => (nn, NameNode.Error message)
      | None => (nn, response)
      end
  end.

(** The separator [/], character 47. *)
Definition slash : Ascii.ascii := Ascii.Ascii true true true true false true false false.

Fixpoint has_slash (p : string) : bool :=
  match p with
  | EmptyString => false
  | String c rest => Ascii.eqb c slash || has_slash rest
  end.

(** [os.path.basename]: what follows the last [/] of the path. *)
Fixpoint basename (p : string) : string :=
  match p with
  | EmptyString => EmptyString
  | String c rest =>
      if has_slash rest then basename rest
      else if Ascii.eqb c slash then rest else String c rest
  end.

(** [if not remote_filename: remote_filename = os.path.basename(local_path)]:
    the argument is [None] by default, and [None] and the empty string are
    both falsy. *)
Definition remote_name (local_path : string) (remote_filename : option string) : string :=
  match remote_filename with
  | Some name => if decide (name = "") then basename local_path else name
  | None => basename local_path
  end.

(** [if not local_path: local_path = remote_filename] *)
Definition local_name (remote_filename : string) (local_path : option string) : string :=
  match local_path with
  | Some path => if decide (path = "") then remote_filename else path
  | None => remote_filename
  end.

(** [f"chunk_{remote_filename}_{chunk_id}"] *)
Definition chunk_name (remote_filename : string) (chunk_id : Z) : string :=
  "chunk_" +:+ remote_filename +:+ "_" +:+ pretty chunk_id.

(** [store_chunk_to_datanode]: [False] when the connection is refused or
    anything but a success response comes back. *)
Definition store_chunk_to_datanode (link : Link) (servers : gmap (string * Z) DataNode.t)
    (host : string) (port : Z) (chunk_id : string) (chunk_data : list byte)
    : gmap (string * Z) DataNode.t * bool :=
  match servers !! (host, port) with
  | None => (servers, false)
  | Some datanode =>
      let conn := uplink link (host, port) chunk_id chunk_data in
      let '(datanode, _, reply) :=
        DataNode.store_chunk datanode chunk_id (Z.of_nat (length chunk_data)) conn in
      (<[(host, port) := datanode]> servers,
       match reply with
       | Some (DataNode.StoreSuccess _ _ _) => true
       | _ => false
       end)
  end.

(** The loop [for datanode_info in datanodes] of [upload_file]. *)
Fixpoint store_replicas (link : Link) (servers : gmap (string * Z) DataNode.t)
    (chunk_id_str : string) (chunk_data : list byte) (datanodes : list NodeRef)
    (successful_uploads : list string)
    : gmap (string * Z) DataNode.t * list string :=
  match datanodes with
  | [] => (servers, successful_uploads)
  | datanode_info :: rest =>
      let '(servers, ok) :=
        store_chunk_to_datanode link servers (ref_host datanode_info)
          (ref_port datanode_info) chunk_id_str chunk_data in
      store_replicas link servers chunk_id_str chunk_data rest
        (if ok then successful_uploads ++ [ref_node_id datanode_info]
         else successful_uploads)
  end.

(** [f.read(n)]: the bytes read and the rest of the file. *)
Definition file_read (n : Z) (f : list byte) : list byte * list byte :=
  if bool_decide (n < 0) then (f, [])
  else (take (Z.to_nat n) f, drop (Z.to_nat n) f).

(** The loop [for chunk_id in range(num_chunks)] of [upload_file]; [None] is
    the early [return False]. *)
Fixpoint upload_chunks (link : Link) (remote_filename : string) (chunk_size : Z)
    (chunk_assignments : list (Z * list NodeRef)) (chunk_ids : list Z)
    (f : list byte) (servers : gmap (string * Z) DataNode.t)
    (uploaded_chunks : list (Z * list string))
    : gmap (string * Z) DataNode.t * option (list (Z * list string)) :=
  match chunk_ids with
  | [] => (servers, Some uploaded_chunks)
  | chunk_id :: rest =>
      let '(chunk_data, f) := file_read chunk_size f in
      let datanodes := default [] (dict_get chunk_id chunk_assignments) in
      let '(servers, successful_uploads) :=
        store_replicas link servers (chunk_name remote_filename chunk_id)
          chunk_data datanodes [] in
      match successful_uploads with
      | [] => (servers, None)
      | _ =>
          upload_chunks link remote_filename chunk_size chunk_assignments rest f
            servers (dict_set chunk_id successful_uploads uploaded_chunks)
      end
  end.

(** [upload_file]: [local_file] is the content of the file at [local_path],
    [None] when there is no such file; [upload_init] is sent at [t_init],
    [upload_complete] at [t_complete]. *)
Definition upload_file (link : Link) (ctl : Control) (c : Cluster) (t_init t_complete : Z)
    (local_path : string) (local_file : option (list byte))
    (remote_filename : option string) : Cluster * bool :=
  match local_file with
  | None => (c, false)
  | Some content =>
      let remote_filename := remote_name local_path remote_filename in
      let filesize := Z.of_nat (length content) in
      match send_to_namenode ctl (namenode c) t_init
              (NameNode.UploadInit remote_filename filesize) with
      | (nn, NameNode.UploadInitSuccess chunk_size num_chunks chunk_assignments) =>
          match upload_chunks link remote_filename chunk_size chunk_assignments
                  (seqZ 0 num_chunks) content (servers c) [] with
          | (servers, None) => (mkCluster nn servers, false)
          | (servers, Some uploaded_chunks) =>
              let '(nn, response) :=
                send_to_namenode ctl nn t_complete
                  (NameNode.UploadComplete remote_filename filesize uploaded_chunks) in
              (mkCluster nn servers,
               match response with NameNode.Success _ => true | _ => false end)
          end
      | (nn, _) => (mkCluster nn (servers c), false)
      end
  end.

(** [retrieve_chunk_from_datanode]: [None] is Python's [None]. *)
Definition retrieve_chunk_from_datanode (link : Link)
    (servers : gmap (string * Z) DataNode.t) (host : string) (port : Z)
    (chunk_id : string) : option (list byte) :=
  match servers !! (host, port) with
  | None => None
  | Some datanode =>
      match DataNode.retrieve_chunk datanode chunk_id with
      | (DataNode.RetrieveSuccess _ chunk_size, streamed) =>
          let '(incoming, ending) := downlink link (host, port) chunk_id streamed in
          match DataNode.recv_chunk chunk_size ending incoming with
          | DataNode.Returned chunk_data => Some chunk_data
          | _ => None
          end
      | _ => None
      end
  end.

(** The loop [for datanode_info in datanodes] of [download_file], left at the
    first node whose answer is truthy (neither [None] nor [b'']). *)
Fixpoint try_datanodes (link : Link) (servers : gmap (string * Z) DataNode.t)
    (chunk_id_full : string) (datanodes : list NodeRef) : option (list byte) :=
  match datanodes with
  | [] => None
  | datanode_info :: rest =>
      match retrieve_chunk_from_datanode link servers (ref_host datanode_info)
              (ref_port datanode_info) chunk_id_full with
      | Some (b :: chunk_data) => Some (b :: chunk_data)
      | _ => try_datanodes link servers chunk_id_full rest
      end
  end.

(** The loop over [chunk_locations.items()]; [None] is the early
    [return False]. *)
Fixpoint download_chunks (link : Link) (servers : gmap (string * Z) DataNode.t)
    (remote_filename : string) (chunk_locations : list (Z * list NodeRef))
    (chunks_data : list (Z * list byte)) : option (list (Z * list byte)) :=
  match chunk_locations with
  | [] => Some chunks_data
  | (chunk_id, datanodes) :: rest =>
      match try_datanodes link servers (chunk_name remote_filename chunk_id) datanodes with
      | None => None
      | Some chunk_data =>
          download_chunks link servers remote_filename rest
            (dict_set chunk_id chunk_data chunks_data)
      end
  end.

(** [for chunk_id in sorted(chunks_data.keys()): f.write(chunks_data[chunk_id])] *)
Definition reconstruct (chunks_data : list (Z * list byte)) : list byte :=
  mjoin ((λ chunk_id, default [] (dict_get chunk_id chunks_data))
           <$> merge_sort Z.le (dict_keys chunks_data)).

(** [download_file]: the bytes written to the local file, or [None] when
    the method returns [False]. [can_write] tells for which paths
    [open(local_path, 'wb')] succeeds on the client's machine; when it
    raises, the [except] branch of the reconstruction returns [False]. *)
Definition download_file (link : Link) (ctl : Control) (c : Cluster) (now : Z)
    (remote_filename : string) (local_path : option string)
    (can_write : string → bool) : option (list byte) :=
  let local_path := local_name remote_filename local_path in
  match send_to_namenode ctl (namenode c) now (NameNode.DownloadInit remote_filename) with
  | (_, NameNode.DownloadInitSuccess _ filesize chunk_size chunk_locations) =>
      match download_chunks link (servers c) remote_filename chunk_locations [] with
      | Some chunks_data =>
          if can_write local_path then Some (reconstruct chunks_data) else None
      | None => None
      end
  | _ => None
  end.

(** The assumption of a faithful data plane: the server receives the bytes
    the client sends, both of its own sends go through, and the client
    receives the bytes the server streams. *)
Definition faithful (link : Link) : Prop :=
  (∀ addr chunk_id data,
     DataNode.can_send_ready (uplink link addr chunk_id data) = true ∧
     DataNode.incoming (uplink link addr chunk_id data) = data ∧
     DataNode.can_send_reply (uplink link addr chunk_id data) = true) ∧
  (∀ addr chunk_id data, (downlink link addr chunk_id data).1 = data).

Definition faithful_link : Link :=
  mkLink (λ _ _ data, DataNode.mkConn true data DataNode.PeerClosed true)
         (λ _ _ data, (data, DataNode.PeerClosed)).

(** [delete_file]: the request goes to the NameNode only. *)
Definition delete_file (ctl : Control) (c : Cluster) (now : Z) (remote_filename : string)
    : Cluster * bool :=
  let '(nn, response) :=
    send_to_namenode ctl (namenode c) now (NameNode.DeleteFile remote_filename) in
  (mkCluster nn (servers c),
   match response with NameNode.Success _ => true | _ => false end).
End DFSClient.

(** * Specification vocabulary *)

(** ** Well-formed states *)

(** A file record as a Python object can be: the chunk table has one entry
    per key, and (by [add_chunk_location]) no replica list names a node
    twice. *)
Definition metadata_wf (md : FileMetadata.t) : Prop :=
  NoDup (dict_keys (FileMetadata.chunks md)) ∧
  ∀ k, NoDup (FileMetadata.get_chunk_locations k md).

(** The registry has one entry per key, filed under the node's own id. *)
Definition registry_wf (nodes : list (string * DataNodeInfo.t)) : Prop :=
  NoDup (dict_keys nodes) ∧
  ∀ id info, (id, info) ∈ nodes → DataNodeInfo.node_id info = id.

Definition wf (s : NameNode.t) : Prop :=
  0 < NameNode.chunk_size s ∧ 0 ≤ NameNode.replication_factor s ∧
  registry_wf (NameNode.datanodes s) ∧
  ∀ f md, NameNode.files s !! f = Some md → metadata_wf md.

(** ** The loops of the NameNode, one level at a time *)

(** Removing every node of a list, one [remove] at a time. *)
Definition remove_each {A} `{EqDecision A} (xs : list A) (l : list A) : list A :=
  foldl (λ l x, py_list_remove x l) l xs.

(** The inner loop of [add_chunk_locations] over the nodes of one chunk. *)
Definition add_each (k : Z) (ids : list string) (md : FileMetadata.t) : FileMetadata.t :=
  foldl (λ md id, FileMetadata.add_chunk_location k id md) md ids.

(** The inner loop of [handle_node_failures] over the dead nodes. *)
Definition purge_chunk (dead_nodes : list string) (md : FileMetadata.t) (k : Z) : FileMetadata.t :=
  foldl (λ md dead_node,
           if bool_decide (dead_node ∈ FileMetadata.get_chunk_locations k md)
           then FileMetadata.remove_chunk_location k dead_node md else md)
        md dead_nodes.

(** What one pass of the liveness scanner does to a registry entry. *)
Definition stale (now : Z) (node : DataNodeInfo.t) : bool :=
  negb (DataNodeInfo.is_healthy now node) && DataNodeInfo.is_alive node.

Definition mark_dead (now : Z) (node : DataNodeInfo.t) : DataNodeInfo.t :=
  if stale now node then DataNodeInfo.set_is_alive false node else node.

(** ** Traces and the clock *)

(** [register_datanode] was served for this id somewhere in the trace. *)
Definition registered (trace : list NameNode.Event) (node_id : string) : Prop :=
  ∃ now host port,
    NameNode.Serve now (NameNode.RegisterDatanode node_id host port) ∈ trace.

Definition event_time (e : NameNode.Event) : Z :=
  match e with
  | NameNode.Serve now _ => now
  | NameNode.Scan now => now
  end.

(** The clock does not run backwards: the events of the trace happen in
    the order of the trace, between the times [start] and [now]. *)
Fixpoint chronological (start now : Z) (trace : list NameNode.Event) : Prop :=
  match trace with
  | [] => start ≤ now
  | e :: rest => start ≤ event_time e ∧ chronological (event_time e) now rest
  end.

(** The stored alive bit of every node that is healthy at [now] is set. *)
Definition flags_current (s : NameNode.t) (now : Z) : Prop :=
  ∀ id node,
    dict_get id (NameNode.datanodes s) = Some node →
    DataNodeInfo.is_healthy now node = true → DataNodeInfo.is_alive node = true.

(** ** Placement *)

(** Descending order of a key, the order [sort(reverse=True)] establishes. *)
Definition desc {A} (key : A → Z) (a b : A) : Prop := key b ≤ key a.

(** The nodes that pass the test [node.is_healthy()] of the placement
    policy at time [now]: the live nodes. *)
Definition live_nodes (s : NameNode.t) (now : Z) : list DataNodeInfo.t :=
  filter (λ node, DataNodeInfo.is_healthy now node = true)
         (dict_values (NameNode.datanodes s)).

(** What the placement policy promises of the list it returns for one
    chunk at time [now]: the references of [replication_factor] distinct
    registered nodes, each live, in descending order of available space,
    and no live node left out has more available space than one chosen. *)
Definition placement_post (s : NameNode.t) (now : Z) (refs : list NodeRef) : Prop :=
  ∃ selected : list DataNodeInfo.t,
    refs = NameNode.node_ref <$> selected ∧
    Z.of_nat (length refs) = NameNode.replication_factor s ∧
    NoDup (ref_node_id <$> refs) ∧
    (∀ node, node ∈ selected →
       dict_get (DataNodeInfo.node_id node) (NameNode.datanodes s) = Some node ∧
       DataNodeInfo.is_healthy now node = true) ∧
    StronglySorted (desc DataNodeInfo.available_space) selected ∧
    (∀ node other, node ∈ selected → other ∈ live_nodes s now → other ∉ selected →
       DataNodeInfo.available_space other ≤ DataNodeInfo.available_space node).

(** ** Locating and the file index *)

(** A replica is live when its id is registered and the registered node is
    healthy: the test [node_id in self.datanodes and
    self.datanodes[node_id].is_healthy()] of [handle_download_init]. *)
Definition is_live (s : NameNode.t) (now : Z) (node_id : string) : bool :=
  match dict_get node_id (NameNode.datanodes s) with
  | Some info => DataNodeInfo.is_healthy now info
  | None => false
  end.

(** The reference the NameNode hands out for a registered node id. *)
Definition ref_of (s : NameNode.t) (r : NodeRef) : Prop :=
  ∃ info, dict_get (ref_node_id r) (NameNode.datanodes s) = Some info ∧
          ref_host r = DataNodeInfo.host info ∧ ref_port r = DataNodeInfo.port info.

(** The chunk-key invariant of a file record:
    [keys(chunks) == {0, .., ceil(size / chunk_size) - 1}]. *)
Definition chunk_keys_invariant (md : FileMetadata.t) : Prop :=
  ∀ k, k ∈ dict_keys (FileMetadata.chunks md)
       ↔ 0 ≤ k < (FileMetadata.size md + FileMetadata.chunk_size md - 1)
                   `div` FileMetadata.chunk_size md.

(** What [download_init] answers for [filename] at time [now]. *)
Definition download_init_post (s : NameNode.t) (now : Z) (filename : string) : Prop :=
  match NameNode.files s !! filename with
  | None =>
      NameNode.handle_download_init s now filename
      = (s, NameNode.Error (NameNode.not_found_message filename))
  | Some md =>
      ((∀ k ids, (k, ids) ∈ FileMetadata.chunks md →
                 ∃ id, id ∈ ids ∧ is_live s now id = true) →
       ∃ locations,
         NameNode.handle_download_init s now filename
         = (s, NameNode.DownloadInitSuccess filename (FileMetadata.size md)
                 (FileMetadata.chunk_size md) locations) ∧
         dict_keys locations = dict_keys (FileMetadata.chunks md) ∧
         (∀ k ids, (k, ids) ∈ FileMetadata.chunks md →
            ∃ refs, dict_get k locations = Some refs ∧
              ref_node_id <$> refs = filter (λ id, is_live s now id = true) ids ∧
              ∀ r, r ∈ refs → is_live s now (ref_node_id r) = true ∧ ref_of s r) ∧
         (chunk_keys_invariant md →
          ∀ k, 0 ≤ k < (FileMetadata.size md + FileMetadata.chunk_size md - 1)
                         `div` FileMetadata.chunk_size md →
               is_Some (dict_get k locations))) ∧
      ((∃ k ids, (k, ids) ∈ FileMetadata.chunks md ∧
                 ∀ id, id ∈ ids → is_live s now id = false) →
       ∃ k ids, (k, ids) ∈ FileMetadata.chunks md ∧
                (∀ id, id ∈ ids → is_live s now id = false) ∧
                NameNode.handle_download_init s now filename
                = (s, NameNode.Error (NameNode.no_healthy_message k)))
  end.

Definition file_index_invariant (s : NameNode.t) : Prop :=
  ∀ f md, NameNode.files s !! f = Some md → chunk_keys_invariant md.

(** An [upload_complete] request whose map lists at least one node for
    exactly the chunk indices of a file of the declared size; any other
    event. *)
Definition complete_covers (cs : Z) (e : NameNode.Event) : Prop :=
  match e with
  | NameNode.Serve _ (NameNode.UploadComplete _ filesize chunks) =>
      ∀ k, (∃ ids, (k, ids) ∈ chunks ∧ ids ≠ []) ↔ 0 ≤ k < (filesize + cs - 1) `div` cs
  | _ => True
  end.

(** A node id whose alive bit is false sits in the replica list of chunk
    [k] of file [f]. *)
Definition dead_listed (s : NameNode.t) (f : string) (k : Z) (id : string) : Prop :=
  ∃ md info,
    NameNode.files s !! f = Some md ∧
    id ∈ FileMetadata.get_chunk_locations k md ∧
    dict_get id (NameNode.datanodes s) = Some info ∧
    DataNodeInfo.is_alive info = false.

Definition purged (s : NameNode.t) : Prop := ∀ f k id, ¬ dead_listed s f k id.

(** ** The data plane *)

(** The state of a DataNode after it has written [data] under [chunk_id]. *)
Definition stored (dn : DataNode.t) (chunk_id : string) (data : list byte) : DataNode.t :=
  let chunk_path := DataNode.path_join (DataNode.storage_dir dn) chunk_id in
  DataNode.mk (DataNode.node_id dn) (DataNode.storage_dir dn)
    (<[chunk_path := data]> (DataNode.disk dn))
    (<[chunk_id := chunk_path]> (DataNode.chunks dn)).

(** The DataNode holds [data] as the blob of [chunk_id]. *)
Definition holds (dn : DataNode.t) (chunk_id : string) (data : list byte) : Prop :=
  DataNode.chunks dn !! chunk_id
  = Some (DataNode.path_join (DataNode.storage_dir dn) chunk_id) ∧
  DataNode.disk dn !! DataNode.path_join (DataNode.storage_dir dn) chunk_id = Some data.

(** The server at an address holds [data] as the blob of [chunk_id]. *)
Definition served (servers : gmap (string * Z) DataNode.t) (addr : string * Z)
    (chunk_id : string) (data : list byte) : Prop :=
  ∃ dn, servers !! addr = Some dn ∧ holds dn chunk_id data.

(** The chunks the upload loop reads from the file, by chunk index. *)
Fixpoint chunk_plan (chunk_size : Z) (chunk_ids : list Z) (f : list byte)
    : list (Z * list byte) :=
  match chunk_ids with
  | [] => []
  | chunk_id :: rest =>
      (chunk_id, (DFSClient.file_read chunk_size f).1)
      :: chunk_plan chunk_size rest (DFSClient.file_read chunk_size f).2
  end.

(** The exchange of a request with the NameNode goes through: the request
    and the response to it each arrive whole. *)
Definition exchange_delivered (ctl : DFSClient.Control) (nn : NameNode.t) (now : Z)
    (request : NameNode.Request) : Prop :=
  DFSClient.request_lost ctl request = None ∧
  DFSClient.response_lost ctl (NameNode.handle_client nn now request).2 = None.

(** Every control message arrives whole. *)
Definition delivers (ctl : DFSClient.Control) : Prop :=
  (∀ request, DFSClient.request_lost ctl request = None) ∧
  (∀ response, DFSClient.response_lost ctl response = None).

(** ** Examples *)

(** Three DataNodes register, two of them report free space. *)
Definition example_trace : list NameNode.Event :=
  [NameNode.Serve 0 (NameNode.RegisterDatanode "dn1" "localhost" 8001);
   NameNode.Serve 0 (NameNode.RegisterDatanode "dn2" "localhost" 8002);
   NameNode.Serve 0 (NameNode.RegisterDatanode "dn3" "localhost" 8003);
   NameNode.Serve 1 (NameNode.Heartbeat "dn2" 50 100 []);
   NameNode.Serve 2 (NameNode.Heartbeat "dn3" 70 100 [])].

(** A NameNode with 4-byte chunks and replication factor 3. *)
Definition example_state : NameNode.t :=
  NameNode.run (NameNode.init 4 3) example_trace.

(** The assignment map [upload_init] returns in [example_state] at time 5
    for a file of 9 bytes. *)
Definition example_assignments : list (Z * list NodeRef) :=
  let refs := [mkNodeRef "dn3" "localhost" 8003; mkNodeRef "dn2" "localhost" 8002;
               mkNodeRef "dn1" "localhost" 8001] in
  [(0, refs); (1, refs); (2, refs)].

(** [example_state] with a 9-byte file recorded on the three nodes. *)
Definition example_file_trace : list NameNode.Event :=
  example_trace ++
  [NameNode.Serve 6 (NameNode.UploadComplete "f.bin" 9
     [(0, ["dn3"; "dn2"; "dn1"]); (1, ["dn3"; "dn2"; "dn1"]); (2, ["dn3"; "dn2"; "dn1"])])].

Definition example_file_state : NameNode.t :=
  NameNode.run (NameNode.init 4 3) example_file_trace.

(** An [upload_complete] that leaves chunk 2 of a 9-byte file out. *)
Definition short_complete_trace : list NameNode.Event :=
  example_trace ++
  [NameNode.Serve 6 (NameNode.UploadComplete "f.bin" 9
     [(0, ["dn3"; "dn2"; "dn1"]); (1, ["dn3"; "dn2"; "dn1"])])].

(** A node dies and is flagged dead by a scan; an [upload_complete] that
    names it arrives afterwards. *)
Definition late_complete_trace : list NameNode.Event :=
  [NameNode.Serve 0 (NameNode.RegisterDatanode "dn1" "localhost" 8001);
   NameNode.Scan 40;
   NameNode.Serve 41 (NameNode.UploadComplete "f.bin" 4 [(0, ["dn1"])])].

(** An empty DataNode, and a connection that delivers three bytes and is
    then closed by the peer. *)
Definition example_datanode : DataNode.t :=
  DataNode.mk "dn1" "datanode_dn1_storage" ∅ ∅.

Definition short_delivery : DataNode.Conn :=
  DataNode.mkConn true [x41; x42; x43] DataNode.PeerClosed true.

(** [example_state] with an empty DataNode server at each registered
    address, and a local file of nine bytes. *)
Definition example_cluster : DFSClient.Cluster :=
  DFSClient.mkCluster example_state
    (<[("localhost", 8001) := DataNode.mk "dn1" "datanode_dn1_storage" ∅ ∅]>
       (<[("localhost", 8002) := DataNode.mk "dn2" "datanode_dn2_storage" ∅ ∅]>
          (<[("localhost", 8003) := DataNode.mk "dn3" "datanode_dn3_storage" ∅ ∅]> ∅))).

Definition example_file : list byte := [x41; x42; x43; x44; x45; x46; x47; x48; x49].

(** A data plane that cuts every chunk on its way to a server after two
    bytes and then closes the connection. *)
Definition lossy_link : DFSClient.Link :=
  DFSClient.mkLink
    (λ _ _ data, DataNode.mkConn true (take 2 data) DataNode.PeerClosed true)
    (λ _ _ data, (data, DataNode.PeerClosed)).

(** A control plane on which every message arrives whole. *)
Definition reliable_control : DFSClient.Control :=
  DFSClient.mkControl (λ _, None) (λ _, None).

(** Upload to [example_cluster] under the default remote name, then
    download to the default local path, over a given data plane. *)
Definition example_roundtrip (link : DFSClient.Link) (b : list byte)
    : bool * option (list byte) :=
  let r := DFSClient.upload_file link reliable_control example_cluster 5 6
             "data/f.bin" (Some b) None in
  (r.2, DFSClient.download_file link reliable_control r.1 7 "f.bin" None (λ _, true)).

(** A NameNode with chunks of one byte and replication factor 1, one
    DataNode registered and listening, and a local file of 1024 bytes. *)
Definition band_cluster : DFSClient.Cluster :=
  DFSClient.mkCluster
    (NameNode.run (NameNode.init 1 1)
       [NameNode.Serve 0 (NameNode.RegisterDatanode "dn1" "localhost" 8001)])
    (<[("localhost", 8001) := DataNode.mk "dn1" "datanode_dn1_storage" ∅ ∅]> ∅).

Definition band_file : list byte := replicate 1024 x41.

(** A control plane on which the response to [download_init] does not
    arrive whole, and every other message does. For the file [f.bin] of
    1024 chunks on the one DataNode of [band_cluster] the JSON text of the
    response to [upload_init] has 65531 bytes and that of the response to
    [download_init] has 65548 bytes, 12 more than one [recv(65536)] can
    return. *)
Definition long_download_response : DFSClient.Control :=
  DFSClient.mkControl (λ _, None)
    (λ response,
       match response with
       | NameNode.DownloadInitSuccess _ _ _ _ =>
           Some "Unterminated string starting at: line 1 column 32766 (char 32765)"
       | _ => None
       end).

(** The state in which the record of the 9-byte file [f.bin] (three chunks
    of 4 bytes) lists chunks 0 and 1 only. *)
Definition short_complete_state : NameNode.t :=
  NameNode.run (NameNode.init 4 3) short_complete_trace.

(** ** Further vocabulary: the chunk table of a DataNode *)

(** Every entry of the chunk table points at the file of the storage
    directory that carries the chunk's name. *)
Definition index_wf (dn : DataNode.t) : Prop :=
  ∀ chunk_id chunk_path,
    DataNode.chunks dn !! chunk_id = Some chunk_path →
    chunk_path = DataNode.path_join (DataNode.storage_dir dn) chunk_id.

(** The answer of a DataNode that has no entry for a chunk. *)
Definition chunk_not_found (chunk_id : string) : DataNode.Response :=
  DataNode.Error ("Chunk not found: " +:+ chunk_id).

(** A DataNode whose directory holds one chunk file and one file of another
    name, before its table is loaded; a connection that breaks after two of
    four announced bytes; a connection that carries four bytes but not the
    server's final response. *)
Definition example_directory : DataNode.t :=
  DataNode.mk "dn1" "datanode_dn1_storage"
    (<["datanode_dn1_storage/chunk_f.bin_0" := [x41; x42]]>
       (<["datanode_dn1_storage/notes.txt" := [x43]]> ∅)) ∅.

Definition example_listing : list string := ["notes.txt"; "chunk_f.bin_0"].

Definition broken_delivery : DataNode.Conn :=
  DataNode.mkConn true [x41; x42] DataNode.ConnectionLost true.

Definition unanswered_delivery : DataNode.Conn :=
  DataNode.mkConn true [x41; x42; x43; x44] DataNode.PeerClosed false.

(** A connection that carries four bytes and both of the server's sends. *)
Definition full_delivery : DataNode.Conn :=
  DataNode.mkConn true [x41; x42; x43; x44] DataNode.PeerClosed true.

(** The DataNode [dn2] holding one chunk. *)
Definition example_holder : DataNode.t :=
  stored (DataNode.mk "dn2" "datanode_dn2_storage" ∅ ∅) "chunk_f.bin_0" [x41; x42].

(** ** Further vocabulary: the NameNode *)

(** The requests that install or drop the record of a file. *)
Definition rewrites (filename : string) (e : NameNode.Event) : Prop :=
  match e with
  | NameNode.Serve _ (NameNode.UploadComplete f _ _) => f = filename
  | NameNode.Serve _ (NameNode.DeleteFile f) => f = filename
  | _ => False
  end.

(** The record of [f.bin] in [example_file_state]. *)
Definition example_record : FileMetadata.t :=
  NameNode.add_chunk_locations (FileMetadata.init 6 "f.bin" 9 4 3)
    [(0, ["dn3"; "dn2"; "dn1"]); (1, ["dn3"; "dn2"; "dn1"]); (2, ["dn3"; "dn2"; "dn1"])].

(** Three DataNodes just registered: none has reported its space yet. *)
Definition fresh_fleet : NameNode.t :=
  NameNode.run (NameNode.init 4 2) (take 3 example_trace).

(** ** Further vocabulary: the client *)

(** A DataNode server listens at the address a reference names. *)
Definition listening (servers : gmap (string * Z) DataNode.t) (r : NodeRef) : Prop :=
  is_Some (servers !! (ref_host r, ref_port r)).

(** A data plane that delivers every upload whole but cuts every download
    after two bytes and then closes the connection. *)
Definition short_downlink : DFSClient.Link :=
  DFSClient.mkLink
    (λ _ _ data, DataNode.mkConn true data DataNode.PeerClosed true)
    (λ _ _ data, (take 2 data, DataNode.PeerClosed)).

(** One DataNode server that holds a chunk of four bytes. *)
Definition example_servers : gmap (string * Z) DataNode.t :=
  <[("localhost", 8001) :=
      stored example_datanode "chunk_f.bin_0" [x41; x42; x43; x44]]> ∅.

(** ** Further vocabulary: file names *)

Fixpoint has_char (c : Ascii.ascii) (s : string) : bool :=
  match s with
  | EmptyString => false
  | String c' rest => Ascii.eqb c c' || has_char c rest
  end.

(** A name without the path separator and without the NUL character. The
    chunk ids [chunk_<name>_<k>] of a file of such a name are single path
    components. *)
Definition flat_name (name : string) : Prop :=
  has_char DFSClient.slash name = false ∧ has_char Ascii.zero name = false.

(** A chunk id that is a plain file name: a single path component other
    than [.] and [..], which names the file of that name in the storage
    directory and no other. *)
Definition plain_file_name (name : string) : Prop :=
  name ≠ "" ∧ name ≠ "." ∧ name ≠ ".." ∧ flat_name name.

(** * Properties *)

(** ** Dictionaries *)

Section dict_lemmas.
Context {K V : Type} `{EqDecision K}.
Implicit Types (k : K) (v : V) (d : list (K * V)).

Lemma dict_get_set_eq k v d : dict_get k (dict_set k v d) = Some v.
Proof.
  induction d as [|[k' v'] d IH]; simpl.
  - by rewrite decide_True.
  - destruct (decide (k = k')) as [->|Hne]; simpl.
    + by rewrite decide_True.
    + by rewrite decide_False.
Qed.

Lemma dict_get_set_ne k k' v d : k ≠ k' → dict_get k' (dict_set k v d) = dict_get k' d.
Proof.
  intros Hne. induction d as [|[k0 v0] d IH]; simpl.
  - by rewrite decide_False.
  - destruct (decide (k = k0)) as [->|Hne0]; simpl.
    + by rewrite !decide_False.
    + by rewrite IH.
Qed.

Lemma dict_get_set k k' v d :
  dict_get k' (dict_set k v d) = if decide (k = k') then Some v else dict_get k' d.
Proof.
  destruct (decide (k = k')) as [->|Hne];
    [apply dict_get_set_eq | by apply dict_get_set_ne].
Qed.

Lemma dict_get_None k d : dict_get k d = None ↔ k ∉ dict_keys d.
Proof.
  unfold dict_keys. induction d as [|[k' v'] d IH]; simpl.
  - split; [intros _; apply not_elem_of_nil | done].
  - rewrite not_elem_of_cons. destruct (decide (k = k')) as [->|Hne]; naive_solver.
Qed.

Lemma dict_get_is_Some k d : is_Some (dict_get k d) ↔ k ∈ dict_keys d.
Proof.
  rewrite <-not_eq_None_Some, dict_get_None.
  split; [apply dec_stable | auto].
Qed.

Lemma dict_contains_true k d : dict_contains k d = true ↔ k ∈ dict_keys d.
Proof. unfold dict_contains. by rewrite bool_decide_eq_true, dict_get_is_Some. Qed.

Lemma dict_contains_false k d : dict_contains k d = false ↔ k ∉ dict_keys d.
Proof. unfold dict_contains. by rewrite bool_decide_eq_false, dict_get_is_Some. Qed.

Lemma dict_get_Some_elem k v d : dict_get k d = Some v → (k, v) ∈ d.
Proof.
  induction d as [|[k' v'] d IH]; simpl; [done|].
  destruct (decide (k = k')) as [->|Hne].
  - intros [= ->]. apply list_elem_of_here.
  - intros. apply list_elem_of_further. auto.
Qed.

Lemma dict_elem_get k v d : NoDup (dict_keys d) → (k, v) ∈ d → dict_get k d = Some v.
Proof.
  unfold dict_keys. induction d as [|[k' v'] d IH]; simpl.
  - intros _ Hin. by apply elem_of_nil in Hin.
  - rewrite NoDup_cons. intros [Hk' Hnd] Hin.
    apply elem_of_cons in Hin as [[= -> ->]|Hin].
    + by rewrite decide_True.
    + rewrite decide_False; [auto|].
      intros ->. apply Hk'. apply list_elem_of_fmap. by exists (k', v).
Qed.

Lemma dict_set_fresh k v d : k ∉ dict_keys d → dict_set k v d = d ++ [(k, v)].
Proof.
  unfold dict_keys. induction d as [|[k' v'] d IH]; simpl; [done|].
  rewrite not_elem_of_cons. intros [Hne Hk].
  rewrite decide_False by done. by rewrite IH.
Qed.

Lemma dict_keys_set_fresh k v d :
  k ∉ dict_keys d → dict_keys (dict_set k v d) = dict_keys d ++ [k].
Proof.
  intros Hk. rewrite dict_set_fresh by done. unfold dict_keys. by rewrite fmap_app.
Qed.

Lemma dict_keys_set_old k v d : k ∈ dict_keys d → dict_keys (dict_set k v d) = dict_keys d.
Proof.
  unfold dict_keys. induction d as [|[k' v'] d IH]; simpl.
  - intros Hin. by apply elem_of_nil in Hin.
  - intros Hin. destruct (decide (k = k')) as [->|Hne]; simpl; [done|].
    apply elem_of_cons in Hin as [?|Hin]; [done|]. f_equal. by apply IH.
Qed.

Lemma dict_keys_set_elem k k' v d :
  k' ∈ dict_keys (dict_set k v d) ↔ k' = k ∨ k' ∈ dict_keys d.
Proof.
  destruct (decide (k ∈ dict_keys d)) as [Hin|Hnin].
  - rewrite dict_keys_set_old by done. naive_solver.
  - rewrite dict_keys_set_fresh by done. rewrite elem_of_app, list_elem_of_singleton.
    naive_solver.
Qed.

Lemma dict_keys_set_NoDup k v d : NoDup (dict_keys d) → NoDup (dict_keys (dict_set k v d)).
Proof.
  intros Hnd. destruct (decide (k ∈ dict_keys d)) as [Hin|Hnin].
  - by rewrite dict_keys_set_old.
  - rewrite dict_keys_set_fresh by done. apply NoDup_app. split; [done|].
    split; [|apply NoDup_singleton].
    intros x Hx Hx'. apply list_elem_of_singleton in Hx' as ->. done.
Qed.

Lemma dict_set_elem k v k' v' d :
  (k', v') ∈ dict_set k v d → (k', v') = (k, v) ∨ (k', v') ∈ d.
Proof.
  induction d as [|[k0 v0] d IH]; simpl.
  - intros Hin. apply list_elem_of_singleton in Hin. by left.
  - destruct (decide (k = k0)) as [->|Hne]; rewrite !elem_of_cons; naive_solver.
Qed.

Lemma dict_set_elem_ne k v k' v' d :
  k' ≠ k → (k', v') ∈ d → (k', v') ∈ dict_set k v d.
Proof.
  intros Hne. induction d as [|[k0 v0] d IH]; simpl.
  - intros Hin. by apply elem_of_nil in Hin.
  - destruct (decide (k = k0)) as [->|Hne0]; rewrite !elem_of_cons; naive_solver.
Qed.

Lemma dict_values_elem v d : v ∈ dict_values d ↔ ∃ k, (k, v) ∈ d.
Proof.
  unfold dict_values. rewrite list_elem_of_fmap. split.
  - intros [[k v'] [-> Hin]]. by exists k.
  - intros [k Hin]. by exists (k, v).
Qed.

Lemma dict_keys_elem k d : k ∈ dict_keys d ↔ ∃ v, (k, v) ∈ d.
Proof.
  unfold dict_keys. rewrite list_elem_of_fmap. split.
  - intros [[k' v] [-> Hin]]. by exists v.
  - intros [v Hin]. by exists (k, v).
Qed.
End dict_lemmas.

(** ** Lists *)

Section list_lemmas.
Context {A : Type} `{EqDecision A}.
Implicit Types (x y : A) (l xs : list A).

Lemma py_list_remove_notin x l : x ∉ l → py_list_remove x l = l.
Proof.
  induction l as [|y l IH]; simpl; [done|].
  rewrite not_elem_of_cons. intros [Hne Hl].
  rewrite decide_False by done. by rewrite IH.
Qed.

Lemma py_list_remove_elem x y l : y ∈ py_list_remove x l → y ∈ l.
Proof.
  induction l as [|z l IH]; simpl; [done|].
  destruct (decide (x = z)); rewrite ?elem_of_cons; naive_solver.
Qed.

Lemma py_list_remove_elem_ne x y l : y ≠ x → y ∈ l → y ∈ py_list_remove x l.
Proof.
  intros Hne. induction l as [|z l IH]; simpl; [done|].
  destruct (decide (x = z)); rewrite ?elem_of_cons; naive_solver.
Qed.

Lemma py_list_remove_NoDup x l : NoDup l → NoDup (py_list_remove x l).
Proof.
  induction 1 as [|z l Hz Hl IH]; simpl; [constructor|].
  destruct (decide (x = z)); [done|].
  constructor; [|done]. intros Hin. by apply Hz, (py_list_remove_elem x).
Qed.

Lemma py_list_remove_gone x l : NoDup l → x ∉ py_list_remove x l.
Proof.
  induction 1 as [|z l Hz Hl IH]; simpl; [apply not_elem_of_nil|].
  destruct (decide (x = z)) as [->|Hne]; [done|].
  rewrite not_elem_of_cons. done.
Qed.

Lemma remove_each_elem xs y l : y ∈ remove_each xs l → y ∈ l.
Proof.
  unfold remove_each. revert l. induction xs as [|x xs IH]; simpl; [done|].
  intros l Hin. apply IH in Hin. by apply py_list_remove_elem in Hin.
Qed.

Lemma remove_each_NoDup xs l : NoDup l → NoDup (remove_each xs l).
Proof.
  unfold remove_each. revert l. induction xs as [|x xs IH]; simpl; [done|].
  intros l Hl. by apply IH, py_list_remove_NoDup.
Qed.

Lemma remove_each_gone xs x l : NoDup l → x ∈ xs → x ∉ remove_each xs l.
Proof.
  unfold remove_each. revert l. induction xs as [|z xs IH]; simpl.
  - intros l _ Hin. by apply elem_of_nil in Hin.
  - intros l Hl Hin. apply elem_of_cons in Hin as [->|Hin].
    + intros Hin. apply (remove_each_elem xs) in Hin.
      by apply (py_list_remove_gone z l).
    + by apply IH; [apply py_list_remove_NoDup|].
Qed.

Lemma remove_each_keeps xs y l : y ∉ xs → y ∈ l → y ∈ remove_each xs l.
Proof.
  unfold remove_each. revert l. induction xs as [|z xs IH]; simpl; [done|].
  intros l [Hne Hxs]%not_elem_of_cons Hin.
  apply IH; [done|]. by apply py_list_remove_elem_ne.
Qed.

Lemma remove_each_nil xs : remove_each xs [] = [].
Proof. unfold remove_each. induction xs; simpl; auto. Qed.
End list_lemmas.

(** ** FileMetadata *)

Section file_metadata.
Import FileMetadata.
Implicit Types (md : FileMetadata.t) (k : Z) (x : string).

Lemma get_chunk_locations_elem k x md :
  x ∈ get_chunk_locations k md → k ∈ dict_keys (chunks md).
Proof.
  unfold get_chunk_locations. intros Hin. apply dict_get_is_Some.
  destruct (dict_get k (chunks md)); [done|]. by apply elem_of_nil in Hin.
Qed.

Lemma get_chunk_locations_absent k md :
  k ∉ dict_keys (chunks md) → get_chunk_locations k md = [].
Proof.
  intros Hk. apply dict_get_None in Hk. unfold get_chunk_locations. by rewrite Hk.
Qed.

Lemma get_chunk_locations_set k k' l md :
  get_chunk_locations k' (with_chunks md (dict_set k l (chunks md)))
  = if decide (k = k') then l else get_chunk_locations k' md.
Proof.
  unfold get_chunk_locations. simpl. rewrite dict_get_set. by destruct (decide (k = k')).
Qed.

(** [add_chunk_location] appends the node to the chunk's list unless it is
    there, creating the list when the chunk is new. *)
Lemma add_chunk_location_chunks k x md :
  chunks (add_chunk_location k x md)
  = if bool_decide (x ∈ get_chunk_locations k md)
    then chunks md
    else dict_set k (get_chunk_locations k md ++ [x]) (chunks md).
Proof.
  unfold add_chunk_location.
  destruct (dict_contains k (chunks md)) eqn:Hc.
  - by destruct (bool_decide _).
  - apply dict_contains_false in Hc.
    rewrite get_chunk_locations_set, decide_True by done.
    rewrite (get_chunk_locations_absent k md) by done.
    rewrite !bool_decide_eq_false_2 by apply not_elem_of_nil.
    simpl. rewrite (dict_set_fresh k [] _ Hc).
    rewrite (dict_set_fresh k _ _ Hc).
    assert (Hset : ∀ (d : list (Z * list string)) v w,
               k ∉ dict_keys d → dict_set k w (d ++ [(k, v)]) = d ++ [(k, w)]).
    { clear. unfold dict_keys. induction d as [|[k0 v0] d IH]; simpl; intros v w Hk.
      - by rewrite decide_True.
      - apply not_elem_of_cons in Hk as [Hne Hk].
        rewrite decide_False by done. by rewrite IH. }
    by rewrite Hset.
Qed.

Lemma add_chunk_location_get k x k' md :
  get_chunk_locations k' (add_chunk_location k x md)
  = if decide (k = k')
    then (if bool_decide (x ∈ get_chunk_locations k md)
          then get_chunk_locations k md else get_chunk_locations k md ++ [x])
    else get_chunk_locations k' md.
Proof.
  unfold get_chunk_locations at 1. rewrite add_chunk_location_chunks.
  destruct (bool_decide (x ∈ get_chunk_locations k md)) eqn:Hx.
  - by destruct (decide (k = k')) as [->|].
  - rewrite dict_get_set. by destruct (decide (k = k')).
Qed.

Lemma add_chunk_location_keys k x k' md :
  k' ∈ dict_keys (chunks (add_chunk_location k x md))
  ↔ k' = k ∨ k' ∈ dict_keys (chunks md).
Proof.
  rewrite add_chunk_location_chunks.
  destruct (bool_decide (x ∈ get_chunk_locations k md)) eqn:Hx.
  - apply bool_decide_eq_true in Hx. apply get_chunk_locations_elem in Hx.
    naive_solver.
  - apply dict_keys_set_elem.
Qed.

Lemma add_chunk_location_keys_NoDup k x md :
  NoDup (dict_keys (chunks md)) → NoDup (dict_keys (chunks (add_chunk_location k x md))).
Proof.
  rewrite add_chunk_location_chunks. destruct (bool_decide _); [done|].
  apply dict_keys_set_NoDup.
Qed.

Lemma add_chunk_location_fields k x md :
  filename (add_chunk_location k x md) = filename md ∧
  size (add_chunk_location k x md) = size md ∧
  chunk_size (add_chunk_location k x md) = chunk_size md ∧
  replication_factor (add_chunk_location k x md) = replication_factor md ∧
  created_at (add_chunk_location k x md) = created_at md.
Proof.
  unfold add_chunk_location.
  destruct (dict_contains k (chunks md)); destruct (bool_decide _); done.
Qed.

(** [remove_chunk_location] is [list.remove] on the chunk's list: its two
    guards only skip calls that would change nothing. *)
Lemma remove_chunk_location_get k x k' md :
  get_chunk_locations k' (remove_chunk_location k x md)
  = if decide (k = k') then py_list_remove x (get_chunk_locations k md)
    else get_chunk_locations k' md.
Proof.
  unfold remove_chunk_location.
  destruct (dict_contains k (chunks md) && bool_decide _) eqn:Hc.
  - apply get_chunk_locations_set.
  - destruct (decide (k = k')) as [<-|]; [|done].
    rewrite py_list_remove_notin; [done|].
    apply andb_false_iff in Hc as [Hc|Hc].
    + apply dict_contains_false in Hc.
      rewrite get_chunk_locations_absent by done. apply not_elem_of_nil.
    + by apply bool_decide_eq_false in Hc.
Qed.

Lemma remove_chunk_location_keys k x md :
  dict_keys (chunks (remove_chunk_location k x md)) = dict_keys (chunks md).
Proof.
  unfold remove_chunk_location.
  destruct (dict_contains k (chunks md) && bool_decide _) eqn:Hc; [|done].
  apply andb_true_iff in Hc as [Hc _]. apply dict_contains_true in Hc.
  simpl. by apply dict_keys_set_old.
Qed.

Lemma remove_chunk_location_fields k x md :
  filename (remove_chunk_location k x md) = filename md ∧
  size (remove_chunk_location k x md) = size md ∧
  chunk_size (remove_chunk_location k x md) = chunk_size md ∧
  replication_factor (remove_chunk_location k x md) = replication_factor md ∧
  created_at (remove_chunk_location k x md) = created_at md.
Proof. unfold remove_chunk_location. by destruct (_ && _). Qed.
End file_metadata.

(** ** The loops of the NameNode over a file record *)

Section record_loops.
Import FileMetadata.
Implicit Types (md : FileMetadata.t) (k : Z) (x : string).

Lemma add_chunk_location_wf k x md : metadata_wf md → metadata_wf (add_chunk_location k x md).
Proof.
  intros [Hk Hl]. split; [by apply add_chunk_location_keys_NoDup|].
  intros k'. rewrite add_chunk_location_get.
  destruct (decide (k = k')); [|done].
  destruct (bool_decide (x ∈ get_chunk_locations k md)) eqn:Hx; [done|].
  apply bool_decide_eq_false in Hx. apply NoDup_app. split; [done|].
  split; [|apply NoDup_singleton].
  intros y Hy Hy'. by apply list_elem_of_singleton in Hy' as ->.
Qed.

Lemma add_each_wf k ids md : metadata_wf md → metadata_wf (add_each k ids md).
Proof.
  unfold add_each. revert md. induction ids as [|x ids IH]; simpl; [done|].
  intros md Hwf. by apply IH, add_chunk_location_wf.
Qed.

Lemma add_each_get k ids k' x md :
  x ∈ get_chunk_locations k' (add_each k ids md)
  ↔ x ∈ get_chunk_locations k' md ∨ (k = k' ∧ x ∈ ids).
Proof.
  unfold add_each. revert md. induction ids as [|y ids IH]; simpl; intros md.
  - rewrite elem_of_nil. naive_solver.
  - rewrite IH, add_chunk_location_get, elem_of_cons.
    destruct (decide (k = k')) as [->|]; [|naive_solver].
    destruct (bool_decide (y ∈ get_chunk_locations k' md)) eqn:Hy.
    + apply bool_decide_eq_true in Hy. naive_solver.
    + rewrite elem_of_app, list_elem_of_singleton. naive_solver.
Qed.

Lemma add_each_keys k ids k' md :
  k' ∈ dict_keys (chunks (add_each k ids md))
  ↔ k' ∈ dict_keys (chunks md) ∨ (k' = k ∧ ids ≠ []).
Proof.
  unfold add_each. revert md. induction ids as [|y ids IH]; simpl; intros md.
  - naive_solver.
  - rewrite IH, add_chunk_location_keys. destruct ids; naive_solver.
Qed.

Lemma add_each_fields k ids md :
  filename (add_each k ids md) = filename md ∧
  size (add_each k ids md) = size md ∧
  chunk_size (add_each k ids md) = chunk_size md ∧
  replication_factor (add_each k ids md) = replication_factor md ∧
  created_at (add_each k ids md) = created_at md.
Proof.
  unfold add_each. revert md. induction ids as [|y ids IH]; simpl; intros md; [done|].
  destruct (IH (add_chunk_location k y md)) as (-> & -> & -> & -> & ->).
  apply add_chunk_location_fields.
Qed.

Lemma add_chunk_locations_cons md k ids supplied :
  NameNode.add_chunk_locations md ((k, ids) :: supplied)
  = NameNode.add_chunk_locations (add_each k ids md) supplied.
Proof. done. Qed.

Lemma add_chunk_locations_wf md supplied :
  metadata_wf md → metadata_wf (NameNode.add_chunk_locations md supplied).
Proof.
  revert md. induction supplied as [|[k ids] supplied IH]; intros md Hwf; [done|].
  rewrite add_chunk_locations_cons. by apply IH, add_each_wf.
Qed.

(** The replica list the NameNode records for a chunk holds the nodes the
    request lists under that chunk's key, and no others. *)
Lemma add_chunk_locations_get md supplied k x :
  x ∈ get_chunk_locations k (NameNode.add_chunk_locations md supplied)
  ↔ x ∈ get_chunk_locations k md ∨ ∃ ids, (k, ids) ∈ supplied ∧ x ∈ ids.
Proof.
  revert md. induction supplied as [|[k' ids] supplied IH]; intros md.
  - simpl. setoid_rewrite elem_of_nil. naive_solver.
  - rewrite add_chunk_locations_cons, IH, add_each_get.
    setoid_rewrite elem_of_cons. naive_solver.
Qed.

(** The keys of the recorded chunk table are the keys under which the
    request lists at least one node. *)
Lemma add_chunk_locations_keys md supplied k :
  k ∈ dict_keys (chunks (NameNode.add_chunk_locations md supplied))
  ↔ k ∈ dict_keys (chunks md) ∨ ∃ ids, (k, ids) ∈ supplied ∧ ids ≠ [].
Proof.
  revert md. induction supplied as [|[k' ids] supplied IH]; intros md.
  - simpl. setoid_rewrite elem_of_nil. naive_solver.
  - rewrite add_chunk_locations_cons, IH, add_each_keys.
    setoid_rewrite elem_of_cons. naive_solver.
Qed.

Lemma add_chunk_locations_fields md supplied :
  filename (NameNode.add_chunk_locations md supplied) = filename md ∧
  size (NameNode.add_chunk_locations md supplied) = size md ∧
  chunk_size (NameNode.add_chunk_locations md supplied) = chunk_size md ∧
  replication_factor (NameNode.add_chunk_locations md supplied) = replication_factor md ∧
  created_at (NameNode.add_chunk_locations md supplied) = created_at md.
Proof.
  revert md. induction supplied as [|[k ids] supplied IH]; intros md; [done|].
  rewrite add_chunk_locations_cons.
  destruct (IH (add_each k ids md)) as (-> & -> & -> & -> & ->).
  apply add_each_fields.
Qed.

Lemma purge_chunk_get dead k k' md :
  get_chunk_locations k' (purge_chunk dead md k)
  = if decide (k = k') then remove_each dead (get_chunk_locations k md)
    else get_chunk_locations k' md.
Proof.
  unfold purge_chunk, remove_each. revert md.
  induction dead as [|d dead IH]; simpl; intros md.
  - by destruct (decide (k = k')) as [->|].
  - rewrite IH. destruct (decide (k = k')) as [<-|Hne].
    + f_equal. destruct (bool_decide (d ∈ get_chunk_locations k md)) eqn:Hd.
      * by rewrite remove_chunk_location_get, decide_True.
      * apply bool_decide_eq_false in Hd. by rewrite py_list_remove_notin.
    + destruct (bool_decide _); [|done].
      by rewrite remove_chunk_location_get, decide_False.
Qed.

Lemma purge_chunk_keys dead k md :
  dict_keys (chunks (purge_chunk dead md k)) = dict_keys (chunks md).
Proof.
  unfold purge_chunk. revert md. induction dead as [|d dead IH]; simpl; intros md; [done|].
  rewrite IH. destruct (bool_decide _); [|done]. apply remove_chunk_location_keys.
Qed.

Lemma purge_chunk_fields dead k md :
  filename (purge_chunk dead md k) = filename md ∧
  size (purge_chunk dead md k) = size md ∧
  chunk_size (purge_chunk dead md k) = chunk_size md ∧
  replication_factor (purge_chunk dead md k) = replication_factor md ∧
  created_at (purge_chunk dead md k) = created_at md.
Proof.
  unfold purge_chunk. revert md. induction dead as [|d dead IH]; simpl; intros md; [done|].
  destruct (IH (if bool_decide (d ∈ get_chunk_locations k md)
                then remove_chunk_location k d md else md)) as (-> & -> & -> & -> & ->).
  destruct (bool_decide _); [|done]. apply remove_chunk_location_fields.
Qed.

Lemma purge_chunks_get dead ks k' md :
  NoDup ks →
  get_chunk_locations k' (foldl (purge_chunk dead) md ks)
  = if decide (k' ∈ ks) then remove_each dead (get_chunk_locations k' md)
    else get_chunk_locations k' md.
Proof.
  intros Hnd. revert md. induction Hnd as [|k ks Hk Hnd IH]; simpl; intros md.
  - done.
  - rewrite IH, purge_chunk_get.
    destruct (decide (k = k')) as [<-|Hne].
    + rewrite decide_False by done. rewrite decide_True; [done|]. apply elem_of_cons; auto.
    + destruct (decide (k' ∈ ks)) as [Hin|Hnin].
      * rewrite decide_True; [done|]. apply elem_of_cons; auto.
      * rewrite decide_False; [done|]. rewrite not_elem_of_cons. auto.
Qed.

Lemma purge_chunks_keys dead ks md :
  dict_keys (chunks (foldl (purge_chunk dead) md ks)) = dict_keys (chunks md).
Proof.
  revert md. induction ks as [|k ks IH]; simpl; intros md; [done|].
  by rewrite IH, purge_chunk_keys.
Qed.

Lemma purge_chunks_fields dead ks md :
  filename (foldl (purge_chunk dead) md ks) = filename md ∧
  size (foldl (purge_chunk dead) md ks) = size md ∧
  chunk_size (foldl (purge_chunk dead) md ks) = chunk_size md ∧
  replication_factor (foldl (purge_chunk dead) md ks) = replication_factor md ∧
  created_at (foldl (purge_chunk dead) md ks) = created_at md.
Proof.
  revert md. induction ks as [|k ks IH]; simpl; intros md; [done|].
  destruct (IH (purge_chunk dead md k)) as (-> & -> & -> & -> & ->).
  apply purge_chunk_fields.
Qed.

(** [handle_node_failures] removes every dead node from every replica list
    of a file, and nothing else. *)
Lemma purge_dead_get dead k md :
  NoDup (dict_keys (chunks md)) →
  get_chunk_locations k (NameNode.purge_dead dead md)
  = remove_each dead (get_chunk_locations k md).
Proof.
  intros Hnd. unfold NameNode.purge_dead.
  change (get_chunk_locations k (foldl (purge_chunk dead) md (dict_keys (chunks md)))
          = remove_each dead (get_chunk_locations k md)).
  rewrite purge_chunks_get by done.
  destruct (decide (k ∈ dict_keys (chunks md))) as [|Hk]; [done|].
  rewrite get_chunk_locations_absent by done. by rewrite remove_each_nil.
Qed.

Lemma purge_dead_keys dead md :
  dict_keys (chunks (NameNode.purge_dead dead md)) = dict_keys (chunks md).
Proof. apply purge_chunks_keys. Qed.

Lemma purge_dead_fields dead md :
  filename (NameNode.purge_dead dead md) = filename md ∧
  size (NameNode.purge_dead dead md) = size md ∧
  chunk_size (NameNode.purge_dead dead md) = chunk_size md ∧
  replication_factor (NameNode.purge_dead dead md) = replication_factor md ∧
  created_at (NameNode.purge_dead dead md) = created_at md.
Proof. apply purge_chunks_fields. Qed.

Lemma purge_dead_wf dead md : metadata_wf md → metadata_wf (NameNode.purge_dead dead md).
Proof.
  intros [Hk Hl]. split.
  - by rewrite purge_dead_keys.
  - intros k. rewrite purge_dead_get by done. by apply remove_each_NoDup.
Qed.
End record_loops.

(** ** The NameNode: what each handler does to the state *)

Section name_node_state.
Import NameNode.
Implicit Types (s : NameNode.t) (e : Event) (now : Z).

Lemma scan_datanodes_spec now nodes :
  scan_datanodes now nodes
  = ((λ kv, (kv.1, mark_dead now kv.2)) <$> nodes,
     (filter (λ kv, stale now kv.2 = true) nodes).*1).
Proof.
  induction nodes as [|[id node] nodes IH]; simpl; [done|].
  rewrite IH, filter_cons. unfold mark_dead. simpl.
  fold (stale now node). destruct (stale now node) eqn:Hs.
  - by rewrite decide_True.
  - by rewrite decide_False.
Qed.

Lemma dict_get_fmap_values {K V W} `{EqDecision K} (f : V → W) (id : K)
    (d : list (K * V)) :
  dict_get id ((λ kv, (kv.1, f kv.2)) <$> d) = f <$> dict_get id d.
Proof.
  induction d as [|[k v] d IH]; simpl; [done|]. by destruct (decide (id = k)).
Qed.

Lemma dict_get_fmap_entries {K V W} `{EqDecision K} (f : K * V → W) (id : K)
    (d : list (K * V)) :
  dict_get id ((λ kv, (kv.1, f kv)) <$> d) = (λ v, f (id, v)) <$> dict_get id d.
Proof.
  induction d as [|[k v] d IH]; simpl; [done|]. by destruct (decide (id = k)) as [->|].
Qed.

Lemma dict_keys_fmap_entries {K V W} (f : K * V → W) (d : list (K * V)) :
  dict_keys ((λ kv, (kv.1, f kv)) <$> d) = dict_keys d.
Proof. unfold dict_keys. rewrite <-list_fmap_compose. by apply list_fmap_ext. Qed.

Lemma dict_keys_fmap_values {K V W} (f : V → W) (d : list (K * V)) :
  dict_keys ((λ kv, (kv.1, f kv.2)) <$> d) = dict_keys d.
Proof. unfold dict_keys. rewrite <-list_fmap_compose. by apply list_fmap_ext. Qed.

Lemma handle_upload_init_state s now filename filesize :
  (handle_upload_init s now filename filesize).1 = s.
Proof.
  unfold handle_upload_init. destruct (decide _); [done|]. by destruct (assign_chunks _ _ _ _).
Qed.

Lemma handle_download_init_state s now filename :
  (handle_download_init s now filename).1 = s.
Proof.
  unfold handle_download_init. destruct (files s !! filename); [|done].
  by destruct (locate_chunks _ _ _ _).
Qed.

Lemma heartbeat_monitor_datanodes s now :
  datanodes (heartbeat_monitor s now) = (λ kv, (kv.1, mark_dead now kv.2)) <$> datanodes s.
Proof.
  unfold heartbeat_monitor. rewrite scan_datanodes_spec.
  by destruct ((filter _ (datanodes s)).*1).
Qed.

Lemma heartbeat_monitor_files s now :
  files (heartbeat_monitor s now)
  = match (filter (λ kv, stale now kv.2 = true) (datanodes s)).*1 with
    | [] => files s
    | dead => purge_dead dead <$> files s
    end.
Proof.
  unfold heartbeat_monitor. rewrite scan_datanodes_spec.
  by destruct ((filter _ (datanodes s)).*1).
Qed.

Lemma step_config s e :
  chunk_size (step s e) = chunk_size s ∧
  replication_factor (step s e) = replication_factor s.
Proof.
  destruct e as [now [id host port|id a t c|f sz|f sz c|f|f|f]|now]; simpl.
  - unfold register_datanode. by destruct (dict_contains _ _).
  - unfold handle_heartbeat. by destruct (dict_get _ _).
  - by rewrite handle_upload_init_state.
  - done.
  - by rewrite handle_download_init_state.
  - unfold delete_file. by destruct (files s !! f).
  - unfold get_file_info. by destruct (files s !! f).
  - unfold heartbeat_monitor. destruct (scan_datanodes now (datanodes s)) as [nodes dead].
    by destruct dead.
Qed.

Lemma metadata_wf_init now filename size cs rf :
  metadata_wf (FileMetadata.init now filename size cs rf).
Proof. split; [constructor|]. intros k. constructor. Qed.

Lemma registry_wf_mark now nodes :
  registry_wf nodes → registry_wf ((λ kv, (kv.1, mark_dead now kv.2)) <$> nodes).
Proof.
  intros [Hk Hid]. split.
  - by rewrite dict_keys_fmap_values.
  - intros id info Hin. apply list_elem_of_fmap in Hin as [[id' info'] [[= -> ->] Hin]].
    simpl. rewrite <-(Hid _ _ Hin). unfold mark_dead. by destruct (stale now info').
Qed.

Lemma step_wf s e : wf s → wf (step s e).
Proof.
  intros (Hcs & Hrf & Hreg & Hfiles).
  destruct (step_config s e) as [Ecs Erf].
  split; [by rewrite Ecs|]. split; [by rewrite Erf|]. clear Ecs Erf.
  destruct e as [now [id host port|id a t c|f sz|f sz c|f|f|f]|now]; simpl.
  - unfold register_datanode. destruct (dict_contains id (datanodes s)) eqn:Hc; [done|].
    simpl. split; [|done]. destruct Hreg as [Hk Hid]. split.
    + by apply dict_keys_set_NoDup.
    + intros id' info Hin. apply dict_set_elem in Hin as [[= -> ->]|Hin]; [done|eauto].
  - unfold handle_heartbeat. destruct (dict_get id (datanodes s)) as [info|] eqn:Hg; [|done].
    simpl. split; [|done]. destruct Hreg as [Hk Hid]. split.
    + by apply dict_keys_set_NoDup.
    + intros id' info' Hin. apply dict_set_elem in Hin as [[= -> ->]|Hin]; [|eauto].
      simpl. apply Hid. by apply dict_get_Some_elem.
  - by rewrite handle_upload_init_state.
  - split; [done|]. intros f' md. rewrite lookup_insert.
    destruct (decide (f = f')) as [->|]; [|by apply Hfiles].
    intros [= <-]. apply add_chunk_locations_wf, metadata_wf_init.
  - by rewrite handle_download_init_state.
  - unfold delete_file. destruct (files s !! f) eqn:Hf; [|done]. simpl.
    split; [done|]. intros f' md Hl. apply lookup_delete_Some in Hl as [_ Hl]. eauto.
  - unfold get_file_info. by destruct (files s !! f).
  - rewrite heartbeat_monitor_datanodes, heartbeat_monitor_files.
    split; [by apply registry_wf_mark|].
    destruct ((filter _ (datanodes s)).*1) as [|d dead]; [done|].
    intros f md Hl. apply lookup_fmap_Some in Hl as (md0 & <- & Hl).
    apply purge_dead_wf. eauto.
Qed.

Lemma run_wf s trace : wf s → wf (run s trace).
Proof.
  unfold run. revert s. induction trace as [|e trace IH]; simpl; intros s Hwf; [done|].
  by apply IH, step_wf.
Qed.

Lemma init_wf cs rf : 0 < cs → 0 ≤ rf → wf (init cs rf).
Proof.
  intros Hcs Hrf. split; [done|]. split; [done|]. split.
  - split; [constructor|]. intros id info Hin. by apply elem_of_nil in Hin.
  - intros f md Hl. simpl in Hl. by rewrite lookup_empty in Hl.
Qed.

(** Every reachable state is well formed. *)
Lemma reachable_wf s : reachable s → wf s.
Proof.
  intros (cs & rf & trace & Hcs & Hrf & ->). by apply run_wf, init_wf.
Qed.

Lemma run_app s t1 t2 : run s (t1 ++ t2) = run (run s t1) t2.
Proof. unfold run. apply foldl_app. Qed.

Lemma run_snoc s trace e : run s (trace ++ [e]) = step (run s trace) e.
Proof. by rewrite run_app. Qed.

Lemma reachable_step s e : reachable s → reachable (step s e).
Proof.
  intros (cs & rf & trace & Hcs & Hrf & ->).
  exists cs, rf, (trace ++ [e]). by rewrite run_snoc.
Qed.

(** The registry only grows, and only [register_datanode] adds to it. *)
Lemma step_registered s e id :
  id ∈ dict_keys (datanodes (step s e))
  ↔ id ∈ dict_keys (datanodes s) ∨ registered [e] id.
Proof.
  assert (Hno : ∀ e', (∀ now h p, e' ≠ Serve now (RegisterDatanode id h p)) →
                 ¬ registered [e'] id).
  { intros e' Hne (now & h & p & Hin). apply list_elem_of_singleton in Hin. by eapply Hne. }
  destruct e as [now [id' host port|id' a t c|f sz|f sz c|f|f|f]|now]; simpl.
  - unfold register_datanode. destruct (dict_contains id' (datanodes s)) eqn:Hc; simpl.
    + apply dict_contains_true in Hc. split; [auto|]. intros [?|(n & h & p & Hin)]; [done|].
      by apply list_elem_of_singleton in Hin as [= _ -> _ _].
    + rewrite dict_keys_set_elem. split.
      * intros [->|?]; [|auto]. right. exists now, host, port. apply list_elem_of_here.
      * intros [?|(n & h & p & Hin)]; [auto|].
        apply list_elem_of_singleton in Hin as [= _ -> _ _]. auto.
  - unfold handle_heartbeat. destruct (dict_get id' (datanodes s)) as [info|] eqn:Hg; simpl.
    + rewrite dict_keys_set_old by (apply dict_get_is_Some; eauto).
      split; [auto|]. intros [?|Hr]; [done|]. by apply Hno in Hr.
    + split; [auto|]. intros [?|Hr]; [done|]. by apply Hno in Hr.
  - rewrite handle_upload_init_state.
    split; [auto|]. intros [?|Hr]; [done|]. by apply Hno in Hr.
  - split; [auto|]. intros [?|Hr]; [done|]. by apply Hno in Hr.
  - rewrite handle_download_init_state.
    split; [auto|]. intros [?|Hr]; [done|]. by apply Hno in Hr.
  - unfold delete_file. destruct (files s !! f); simpl;
      (split; [auto|]; intros [?|Hr]; [done|]; by apply Hno in Hr).
  - unfold get_file_info. destruct (files s !! f); simpl;
      (split; [auto|]; intros [?|Hr]; [done|]; by apply Hno in Hr).
  - rewrite heartbeat_monitor_datanodes, dict_keys_fmap_values.
    split; [auto|]. intros [?|Hr]; [done|]. by apply Hno in Hr.
Qed.

Lemma registered_app t1 t2 id : registered (t1 ++ t2) id ↔ registered t1 id ∨ registered t2 id.
Proof.
  unfold registered. setoid_rewrite elem_of_app. naive_solver.
Qed.

Lemma run_registered s trace id :
  id ∈ dict_keys (datanodes (run s trace))
  ↔ id ∈ dict_keys (datanodes s) ∨ registered trace id.
Proof.
  induction trace as [|e trace IH] using rev_ind.
  - split; [auto|]. intros [?|(n & h & p & Hin)]; [done|]. by apply elem_of_nil in Hin.
  - rewrite run_snoc, step_registered, IH, registered_app. naive_solver.
Qed.
End name_node_state.

(** ** The placement policy *)

Section sorting.
Context {A : Type} (key : A → Z).
Implicit Types (x : A) (l : list A).

Lemma insert_desc_Permutation x l : insert_desc key x l ≡ₚ x :: l.
Proof.
  induction l as [|y l IH]; simpl; [done|].
  destruct (bool_decide (key x < key y)); [|done].
  rewrite IH. apply Permutation_swap.
Qed.

Lemma py_sort_reverse_Permutation l : py_sort_reverse key l ≡ₚ l.
Proof.
  unfold py_sort_reverse. induction l as [|x l IH]; simpl; [done|].
  by rewrite insert_desc_Permutation, IH.
Qed.

Lemma py_sort_reverse_length l : length (py_sort_reverse key l) = length l.
Proof. apply Permutation_length, py_sort_reverse_Permutation. Qed.

Lemma insert_desc_sorted x l :
  StronglySorted (desc key) l → StronglySorted (desc key) (insert_desc key x l).
Proof.
  induction 1 as [|y l Hl IH Hy]; simpl.
  - repeat constructor.
  - destruct (bool_decide (key x < key y)) eqn:Hlt.
    + apply bool_decide_eq_true in Hlt. constructor; [done|].
      rewrite insert_desc_Permutation. constructor; [|done]. unfold desc. lia.
    + apply bool_decide_eq_false in Hlt.
      constructor; [by constructor|]. constructor; [unfold desc; lia|].
      eapply Forall_impl; [exact Hy|]. unfold desc. intros z Hz. simpl in *. lia.
Qed.

Lemma py_sort_reverse_sorted l : StronglySorted (desc key) (py_sort_reverse key l).
Proof.
  unfold py_sort_reverse. induction l as [|x l IH]; simpl; [constructor|].
  by apply insert_desc_sorted.
Qed.

(** Whatever a sorted list keeps out of its first [k] places is no greater
    than anything in them. *)
Lemma sorted_take_top k l x y :
  StronglySorted (desc key) l → x ∈ take k l → y ∈ l → y ∉ take k l → key y ≤ key x.
Proof.
  intros Hs Hx Hy Hny. rewrite <-(take_drop k l) in Hs, Hy.
  apply elem_of_app in Hy as [Hy|Hy]; [done|].
  by apply (StronglySorted_app_1_elem_of _ _ _ _ _ Hs).
Qed.
End sorting.

Lemma ceil_div_spec (a b : Z) :
  0 < b → b * ((a + b - 1) `div` b - 1) < a ≤ b * ((a + b - 1) `div` b).
Proof.
  intros Hb. pose proof (Z.div_mod (a + b - 1) b ltac:(lia)) as Hdm.
  pose proof (Z.mod_pos_bound (a + b - 1) b Hb) as Hm. lia.
Qed.

Section placement.
Import NameNode.
Implicit Types (s : NameNode.t) (now : Z).

Lemma registry_node_ids nodes :
  registry_wf nodes → DataNodeInfo.node_id <$> dict_values nodes = dict_keys nodes.
Proof.
  intros [_ Hid]. unfold dict_values, dict_keys. rewrite <-list_fmap_compose.
  apply Forall_fmap_ext_1, Forall_forall. intros [id info] Hin. simpl. eauto.
Qed.

Lemma live_nodes_elem s now node :
  registry_wf (datanodes s) →
  node ∈ live_nodes s now
  ↔ dict_get (DataNodeInfo.node_id node) (datanodes s) = Some node ∧
    DataNodeInfo.is_healthy now node = true.
Proof.
  intros [Hk Hid]. unfold live_nodes. rewrite list_elem_of_filter, dict_values_elem.
  split.
  - intros [Hh [id Hin]]. split; [|done].
    rewrite (Hid _ _ Hin). by apply dict_elem_get.
  - intros [Hg Hh]. split; [done|]. eexists. by apply dict_get_Some_elem.
Qed.

Lemma live_nodes_NoDup s now :
  registry_wf (datanodes s) → NoDup (DataNodeInfo.node_id <$> live_nodes s now).
Proof.
  intros Hreg. apply (sublist_NoDup _ (DataNodeInfo.node_id <$> dict_values (datanodes s))).
  - rewrite registry_node_ids by done. apply Hreg.
  - apply fmap_sublist, sublist_filter.
Qed.

Lemma select_datanodes_spec s now count :
  0 ≤ count →
  select_datanodes_for_chunk s now count
  = node_ref <$> take (Z.to_nat count)
      (py_sort_reverse DataNodeInfo.available_space (live_nodes s now)).
Proof.
  intros Hc. unfold select_datanodes_for_chunk, py_slice_to.
  by rewrite bool_decide_eq_false_2 by lia.
Qed.

Lemma assign_chunks_inl s now ids acc asg :
  assign_chunks s now ids acc = inl asg →
  asg = foldl (λ acc i,
                 dict_set i (select_datanodes_for_chunk s now (replication_factor s)) acc)
              acc ids ∧
  (ids ≠ [] →
   replication_factor s
   ≤ Z.of_nat (length (select_datanodes_for_chunk s now (replication_factor s)))).
Proof.
  revert acc. induction ids as [|i ids IH]; simpl; intros acc.
  - intros [= ->]. done.
  - destruct (bool_decide _) eqn:Hlt; [done|]. apply bool_decide_eq_false in Hlt.
    intros Hrec. apply IH in Hrec as [-> _]. split; [done|]. intros _. lia.
Qed.

Lemma dict_get_foldl_set {V} (v : V) (i : Z) ids (acc : list (Z * V)) :
  dict_get i (foldl (λ acc i, dict_set i v acc) acc ids)
  = if decide (i ∈ ids) then Some v else dict_get i acc.
Proof.
  revert acc. induction ids as [|j ids IH]; simpl; intros acc; [done|].
  rewrite IH. destruct (decide (i ∈ ids)) as [Hin|Hnin].
  - rewrite decide_True; [done|]. apply elem_of_cons; auto.
  - rewrite dict_get_set. destruct (decide (j = i)) as [->|Hne].
    + rewrite decide_True; [done|]. apply list_elem_of_here.
    + rewrite decide_False; [done|]. rewrite not_elem_of_cons. auto.
Qed.

Lemma dict_keys_foldl_set {V} (v : V) ids (acc : list (Z * V)) :
  NoDup (dict_keys acc ++ ids) →
  dict_keys (foldl (λ acc i, dict_set i v acc) acc ids) = dict_keys acc ++ ids.
Proof.
  revert acc. induction ids as [|j ids IH]; simpl; intros acc Hnd.
  - by rewrite app_nil_r.
  - assert (j ∉ dict_keys acc) as Hj.
    { apply NoDup_app in Hnd as (_ & Hd & _). intros Hin. apply (Hd _ Hin), list_elem_of_here. }
    rewrite IH; rewrite dict_keys_set_fresh by done.
    + by rewrite <-app_assoc.
    + by rewrite <-app_assoc.
Qed.
End placement.

(** ** Locating the chunks of a file *)

Section locating.
Import NameNode.
Implicit Types (s : NameNode.t) (now : Z).

Lemma healthy_refs_ids s now ids :
  ref_node_id <$> healthy_refs s now ids = filter (λ id, is_live s now id = true) ids.
Proof.
  unfold healthy_refs. induction ids as [|id ids IH]; [done|].
  rewrite filter_cons. simpl.
  destruct (decide (is_live s now id = true)) as [Hl|Hl]; unfold is_live in Hl;
    destruct (dict_get id (datanodes s)) as [info|]; try done;
    destruct (DataNodeInfo.is_healthy now info); try done.
  simpl. f_equal. apply IH.
Qed.

Lemma healthy_refs_elem s now ids r :
  r ∈ healthy_refs s now ids →
  ref_node_id r ∈ ids ∧ is_live s now (ref_node_id r) = true ∧ ref_of s r.
Proof.
  unfold healthy_refs. intros Hin. apply list_elem_of_omap in Hin as (id & Hid & Hr).
  unfold is_live, ref_of.
  destruct (dict_get id (datanodes s)) as [info|] eqn:Hg; [|done].
  destruct (DataNodeInfo.is_healthy now info) eqn:Hh; [|done].
  injection Hr as <-. simpl. rewrite Hg.
  split; [done|]. split; [done|]. by exists info.
Qed.

Lemma healthy_refs_nil s now ids :
  healthy_refs s now ids = [] ↔ ∀ id, id ∈ ids → is_live s now id = false.
Proof.
  split.
  - intros Hnil id Hin. destruct (is_live s now id) eqn:Hl; [|done].
    assert (id ∈ filter (λ id, is_live s now id = true) ids) as Hf
      by by apply list_elem_of_filter.
    rewrite <-healthy_refs_ids, Hnil in Hf. by apply elem_of_nil in Hf.
  - intros Hall. apply (fmap_nil_inv ref_node_id). rewrite healthy_refs_ids.
    apply elem_of_nil_inv. intros id Hin.
    apply list_elem_of_filter in Hin as [Hl Hin]. rewrite Hall in Hl; done.
Qed.

Lemma locate_chunks_inl s now items acc :
  Forall (λ kv, healthy_refs s now kv.2 ≠ []) items →
  locate_chunks s now items acc
  = inl (foldl (λ acc kv, dict_set kv.1 (healthy_refs s now kv.2) acc) acc items).
Proof.
  intros Hall. revert acc. induction Hall as [|[k ids] items Hne Hall IH]; intros acc; [done|].
  simpl in *. destruct (healthy_refs s now ids); [done|]. apply IH.
Qed.

Lemma locate_chunks_inr s now items acc :
  Exists (λ kv, healthy_refs s now kv.2 = []) items →
  ∃ k ids, (k, ids) ∈ items ∧ healthy_refs s now ids = [] ∧
           locate_chunks s now items acc = inr (no_healthy_message k).
Proof.
  revert acc. induction items as [|[k ids] items IH]; intros acc Hex.
  - by apply Exists_nil in Hex.
  - simpl. destruct (healthy_refs s now ids) as [|r refs] eqn:Hrefs.
    + exists k, ids. split; [apply list_elem_of_here|done].
    + apply Exists_cons in Hex as [Hex|Hex]; [simpl in Hex; congruence|].
      destruct (IH (dict_set k (r :: refs) acc) Hex) as (k' & ids' & Hin & Hnil & Heq).
      exists k', ids'. split; [by apply list_elem_of_further|done].
Qed.

Lemma foldl_dict_set_fresh {V W} (g : Z * V → W) (items : list (Z * V))
    (acc : list (Z * W)) :
  NoDup (dict_keys acc ++ dict_keys items) →
  foldl (λ acc kv, dict_set kv.1 (g kv) acc) acc items
  = acc ++ ((λ kv, (kv.1, g kv)) <$> items).
Proof.
  revert acc. induction items as [|[k v] items IH]; simpl; intros acc Hnd.
  - by rewrite app_nil_r.
  - assert (k ∉ dict_keys acc) as Hk.
    { apply NoDup_app in Hnd as (_ & Hd & _). intros Hin.
      apply (Hd _ Hin), list_elem_of_here. }
    rewrite IH; rewrite dict_set_fresh by done.
    + by rewrite <-app_assoc.
    + unfold dict_keys in *. rewrite fmap_app, <-app_assoc. done.
Qed.
End locating.

(** ** The file index along a trace *)

Section file_index.
Import NameNode.
Implicit Types (s : NameNode.t) (e : Event) (now : Z).

Lemma run_config s trace :
  chunk_size (run s trace) = chunk_size s ∧
  replication_factor (run s trace) = replication_factor s.
Proof.
  induction trace as [|e trace IH] using rev_ind; [done|].
  rewrite run_snoc. destruct (step_config (run s trace) e) as [-> ->]. done.
Qed.

(** The record [upload_complete] installs: the declared size, the
    NameNode's chunk size, and as keys the chunk indices for which the
    request lists at least one node. *)
Lemma handle_upload_complete_installs s now filename filesize chunks :
  ∃ md,
    files (handle_upload_complete s now filename filesize chunks).1
    = <[filename := md]> (files s) ∧
    datanodes (handle_upload_complete s now filename filesize chunks).1 = datanodes s ∧
    FileMetadata.size md = filesize ∧
    FileMetadata.chunk_size md = chunk_size s ∧
    (∀ k, k ∈ dict_keys (FileMetadata.chunks md) ↔ ∃ ids, (k, ids) ∈ chunks ∧ ids ≠ []) ∧
    (∀ k x, x ∈ FileMetadata.get_chunk_locations k md ↔ ∃ ids, (k, ids) ∈ chunks ∧ x ∈ ids) ∧
    metadata_wf md.
Proof.
  eexists. split; [done|]. split; [done|].
  assert (metadata_wf (add_chunk_locations
            (FileMetadata.init now filename filesize (chunk_size s) (replication_factor s))
            chunks)) as Hwf by apply add_chunk_locations_wf, metadata_wf_init.
  revert Hwf.
  destruct (add_chunk_locations_fields
              (FileMetadata.init now filename filesize (chunk_size s) (replication_factor s))
              chunks) as (_ & -> & -> & _).
  intros Hwf. split; [done|]. split; [done|]. split; [|split; [|done]].
  - intros k. rewrite add_chunk_locations_keys. simpl. rewrite elem_of_nil. naive_solver.
  - intros k x. rewrite add_chunk_locations_get.
    unfold FileMetadata.get_chunk_locations at 1. simpl. rewrite elem_of_nil. naive_solver.
Qed.

Lemma step_file_index_invariant s e :
  complete_covers (chunk_size s) e →
  file_index_invariant s → file_index_invariant (step s e).
Proof.
  intros Hcov Hinv.
  destruct e as [now [id host port|id a t c|f sz|f sz c|f|f|f]|now];
    cbn [step handle_client].
  - unfold register_datanode. by destruct (dict_contains _ _).
  - unfold handle_heartbeat. by destruct (dict_get _ _).
  - by rewrite handle_upload_init_state.
  - destruct (handle_upload_complete_installs s now f sz c)
      as (md & Hfiles & _ & Hsize & Hcs & Hkeys & _ & _).
    intros f' md'. rewrite Hfiles, lookup_insert.
    destruct (decide (f = f')) as [->|]; [|by apply Hinv].
    intros [= <-]. intros k. rewrite Hkeys, Hsize, Hcs. apply Hcov.
  - by rewrite handle_download_init_state.
  - unfold delete_file. destruct (files s !! f) eqn:Hf; [|done].
    intros f' md Hl. simpl in Hl. apply lookup_delete_Some in Hl as [_ Hl]. eauto.
  - unfold get_file_info. by destruct (files s !! f).
  - intros f md. rewrite heartbeat_monitor_files.
    destruct ((filter _ (datanodes s)).*1) as [|d dead]; [by apply Hinv|].
    intros Hl. apply lookup_fmap_Some in Hl as (md0 & <- & Hl).
    intros k. rewrite purge_dead_keys.
    destruct (purge_dead_fields (d :: dead) md0) as (_ & -> & -> & _).
    by apply (Hinv f md0).
Qed.

(** What a pass of the liveness scanner leaves in a replica list. *)
Lemma heartbeat_monitor_locations s now f md' k id :
  wf s →
  files (heartbeat_monitor s now) !! f = Some md' →
  id ∈ FileMetadata.get_chunk_locations k md' →
  ∃ md, files s !! f = Some md ∧ id ∈ FileMetadata.get_chunk_locations k md ∧
        ∀ info, dict_get id (datanodes s) = Some info → stale now info = false.
Proof.
  intros (_ & _ & Hreg & Hfiles). rewrite heartbeat_monitor_files.
  destruct ((filter _ (datanodes s)).*1) as [|d dead] eqn:Hdead.
  - intros Hl Hin. exists md'. split; [done|]. split; [done|].
    intros info Hg. destruct (stale now info) eqn:Hs; [|done].
    assert (id ∈ (filter (λ kv, stale now kv.2 = true) (datanodes s)).*1) as Hd.
    { apply list_elem_of_fmap. exists (id, info). split; [done|].
      apply list_elem_of_filter. split; [done|]. by apply dict_get_Some_elem. }
    rewrite Hdead in Hd. by apply elem_of_nil in Hd.
  - rewrite <-Hdead. intros Hl Hin.
    apply lookup_fmap_Some in Hl as (md & <- & Hl).
    destruct (Hfiles _ _ Hl) as [Hkeys Hlists].
    rewrite purge_dead_get in Hin by done.
    exists md. split; [done|]. split; [by apply remove_each_elem in Hin|].
    intros info Hg. destruct (stale now info) eqn:Hs; [|done].
    exfalso. revert Hin. apply remove_each_gone; [done|].
    apply list_elem_of_fmap. exists (id, info). split; [done|].
    apply list_elem_of_filter. split; [done|]. by apply dict_get_Some_elem.
Qed.
End file_index.

(** ** The DataNode *)

Section data_node.
Import DataNode.
Implicit Types (dn : DataNode.t) (data incoming : list byte).

(** The receive loop returns the first [remaining] bytes of the stream; when
    the stream is shorter, it returns all of it if the peer closed the
    connection, and raises if the connection was lost. It never runs out of
    fuel. *)
Lemma recv_loop_spec fuel ending incoming chunk_data remaining :
  (length incoming < fuel)%nat →
  recv_loop fuel ending incoming chunk_data remaining
  = if bool_decide (remaining ≤ Z.of_nat (length incoming))
    then Returned (chunk_data ++ take (Z.to_nat remaining) incoming)
    else match ending with
         | PeerClosed => Returned (chunk_data ++ incoming)
         | ConnectionLost => Raised ConnectionResetError
         end.
Proof.
  revert incoming chunk_data remaining.
  induction fuel as [|fuel IH]; intros incoming chunk_data remaining Hfuel; [lia|].
  simpl. destruct (bool_decide (remaining > 0)) eqn:Hrem.
  - apply bool_decide_eq_true in Hrem.
    destruct incoming as [|b incoming].
    + simpl. rewrite bool_decide_eq_false_2 by lia.
      destruct ending; simpl; [by rewrite app_nil_r|done].
    + set (m := Z.to_nat (Z.min 8192 remaining)).
      assert (1 ≤ m)%nat as Hm by lia.
      unfold recv. fold m.
      destruct m as [|m'] eqn:Em; [lia|].
      rewrite firstn_cons. rewrite <-Em.
      rewrite IH by (rewrite length_drop; simpl in *; lia).
      rewrite length_drop.
      change (b :: take m' incoming) with (take (S m') (b :: incoming)).
      rewrite <-Em. rewrite length_take.
      set (l := b :: incoming) in *.
      destruct (bool_decide (remaining ≤ Z.of_nat (length l))) eqn:Hle.
      * apply bool_decide_eq_true in Hle.
        rewrite bool_decide_eq_true_2 by lia.
        f_equal. rewrite <-app_assoc. f_equal.
        replace (m `min` length l)%nat with m by lia.
        rewrite take_take_drop. f_equal. lia.
      * apply bool_decide_eq_false in Hle.
        rewrite bool_decide_eq_false_2 by lia.
        destruct ending; [|done].
        by rewrite <-app_assoc, take_drop.
  - apply bool_decide_eq_false in Hrem.
    rewrite bool_decide_eq_true_2 by lia.
    replace (Z.to_nat remaining) with 0%nat by lia. by rewrite take_0, app_nil_r.
Qed.

Lemma recv_chunk_spec chunk_size ending incoming :
  recv_chunk chunk_size ending incoming
  = if bool_decide (chunk_size ≤ Z.of_nat (length incoming))
    then Returned (take (Z.to_nat chunk_size) incoming)
    else match ending with
         | PeerClosed => Returned incoming
         | ConnectionLost => Raised ConnectionResetError
         end.
Proof. unfold recv_chunk. by rewrite recv_loop_spec by lia. Qed.

Lemma recv_chunk_all ending data :
  recv_chunk (Z.of_nat (length data)) ending data = Returned data.
Proof.
  rewrite recv_chunk_spec, bool_decide_eq_true_2 by lia.
  by rewrite Nat2Z.id, firstn_all.
Qed.

(** On a connection that carries the whole chunk and both of the server's
    sends, [store_chunk] writes the chunk and answers success. *)
Lemma store_chunk_delivered dn chunk_id data conn :
  can_send_ready conn = true → incoming conn = data → can_send_reply conn = true →
  store_chunk dn chunk_id (Z.of_nat (length data)) conn
  = (stored dn chunk_id data,
     StoreSuccess chunk_id (Z.of_nat (length data)) (MD5 data),
     Some (StoreSuccess chunk_id (Z.of_nat (length data)) (MD5 data))).
Proof.
  intros Hready Hin Hreply. unfold store_chunk.
  by rewrite Hready, Hin, recv_chunk_all, Hreply.
Qed.

(** When the peer closes the connection after fewer bytes than announced,
    [store_chunk] writes the bytes that came and answers success. *)
Lemma store_chunk_short_stream dn chunk_id chunk_size conn :
  can_send_ready conn = true → can_send_reply conn = true →
  ending conn = PeerClosed → Z.of_nat (length (incoming conn)) < chunk_size →
  store_chunk dn chunk_id chunk_size conn
  = (stored dn chunk_id (incoming conn),
     StoreSuccess chunk_id (Z.of_nat (length (incoming conn))) (MD5 (incoming conn)),
     Some (StoreSuccess chunk_id (Z.of_nat (length (incoming conn)))
             (MD5 (incoming conn)))).
Proof.
  intros Hready Hreply Hend Hshort. unfold store_chunk.
  rewrite Hready, recv_chunk_spec, bool_decide_eq_false_2, Hend, Hreply by lia. done.
Qed.

(** When a socket operation raises before the chunk is written (the ready
    signal cannot be sent, or the connection is lost before the announced
    bytes have come), [store_chunk] answers with an error and the DataNode
    is as it was. *)
Lemma store_chunk_raises dn chunk_id chunk_size conn :
  can_send_ready conn = false ∨
  (ending conn = ConnectionLost ∧ Z.of_nat (length (incoming conn)) < chunk_size) →
  ∃ e, store_chunk dn chunk_id chunk_size conn
       = (dn, Error (str e),
          if can_send_reply conn then Some (Error (str e)) else None).
Proof.
  unfold store_chunk. intros [Hready|[Hend Hshort]].
  - rewrite Hready. by eexists.
  - destruct (can_send_ready conn); [|by eexists]. simpl.
    rewrite recv_chunk_spec, bool_decide_eq_false_2, Hend by lia. by eexists.
Qed.

Lemma path_join_inj dir : Inj (=) (=) (path_join dir).
Proof.
  intros x y Heq. unfold path_join in Heq.
  by apply (inj (String.app dir)), (inj (String.app "/")) in Heq.
Qed.

Lemma holds_stored dn chunk_id data : holds (stored dn chunk_id data) chunk_id data.
Proof. split; simpl; apply lookup_insert_eq. Qed.

Lemma holds_stored_other dn chunk_id data chunk_id' data' :
  chunk_id ≠ chunk_id' → holds dn chunk_id data →
  holds (stored dn chunk_id' data') chunk_id data.
Proof.
  intros Hne [Hc Hd]. split; simpl.
  - by rewrite lookup_insert_ne.
  - rewrite lookup_insert_ne; [done|]. intros Heq. by apply path_join_inj in Heq.
Qed.

Lemma retrieve_chunk_holds dn chunk_id data :
  holds dn chunk_id data →
  retrieve_chunk dn chunk_id
  = (RetrieveSuccess chunk_id (Z.of_nat (length data)), data).
Proof. intros [Hc Hd]. unfold retrieve_chunk. by rewrite Hc, Hd. Qed.
End data_node.

(** ** The client *)

Section client.
Import DFSClient.
Implicit Types (link : Link) (net : gmap (string * Z) DataNode.t).

Lemma chunk_name_inj name : Inj (=) (=) (chunk_name name).
Proof.
  intros i j Heq. unfold chunk_name in Heq.
  apply (inj (String.app "chunk_")), (inj (String.app name)),
    (inj (String.app "_")) in Heq.
  by apply (inj pretty) in Heq.
Qed.

Lemma store_chunk_to_datanode_faithful link net host port id data :
  faithful link →
  store_chunk_to_datanode link net host port id data
  = match net !! (host, port) with
    | None => (net, false)
    | Some dn => (<[(host, port) := stored dn id data]> net, true)
    end.
Proof.
  intros [Hup _]. unfold store_chunk_to_datanode.
  destruct (net !! (host, port)) as [dn|]; [|done].
  destruct (Hup (host, port) id data) as (H1 & H2 & H3).
  by rewrite (store_chunk_delivered dn id data).
Qed.

(** A store leaves a blob where it reports success, and keeps every blob
    of another name, or of the same content, that a server held. *)
Lemma store_chunk_to_datanode_served link net net' host port id data ok :
  faithful link →
  store_chunk_to_datanode link net host port id data = (net', ok) →
  (ok = true → served net' (host, port) id data) ∧
  (∀ addr id0 data0,
     served net addr id0 data0 → id0 ≠ id ∨ data0 = data → served net' addr id0 data0).
Proof.
  intros Hf. rewrite store_chunk_to_datanode_faithful by done.
  destruct (net !! (host, port)) as [dn|] eqn:Hdn; intros [= <- <-].
  - split.
    + intros _. exists (stored dn id data).
      split; [apply lookup_insert_eq|apply holds_stored].
    + intros addr id0 data0 (dn0 & Hl & Hh) Hcase.
      destruct (decide (addr = (host, port))) as [->|Hne].
      * rewrite Hdn in Hl. injection Hl as <-.
        exists (stored dn id data). split; [apply lookup_insert_eq|].
        destruct (decide (id0 = id)) as [->|Hneid].
        -- destruct Hcase as [? | ->]; [done|]. apply holds_stored.
        -- by apply holds_stored_other.
      * exists dn0. by rewrite lookup_insert_ne.
  - split; [done|]. auto.
Qed.

Lemma store_replicas_spec link id data refs :
  faithful link →
  ∀ net acc net' succ,
    store_replicas link net id data refs acc = (net', succ) →
    (∀ addr id0 data0,
       served net addr id0 data0 → id0 ≠ id ∨ data0 = data → served net' addr id0 data0) ∧
    (∀ x, x ∈ succ →
       x ∈ acc ∨ ∃ r, r ∈ refs ∧ ref_node_id r = x ∧
                      served net' (ref_host r, ref_port r) id data).
Proof.
  intros Hf. induction refs as [|r refs IH]; simpl; intros net acc net' succ Heq.
  - injection Heq as <- <-. split; auto.
  - destruct (store_chunk_to_datanode link net (ref_host r) (ref_port r) id data)
      as [net1 ok] eqn:Hstore.
    destruct (store_chunk_to_datanode_served _ _ _ _ _ _ _ _ Hf Hstore) as [Hok Hframe1].
    apply IH in Heq as [Hframe Hsucc]. split.
    + intros addr id0 data0 Hs Hcase. apply Hframe; [|done]. by apply Hframe1.
    + intros x Hx. apply Hsucc in Hx as [Hx|(r' & Hr' & Hid & Hs)].
      * destruct ok; [|by left].
        apply elem_of_app in Hx as [Hx|Hx]; [by left|].
        apply list_elem_of_singleton in Hx as ->. right.
        exists r. split; [apply list_elem_of_here|]. split; [done|].
        apply Hframe; [by apply Hok|by right].
      * right. exists r'. split; [by apply list_elem_of_further|done].
Qed.

Lemma chunk_plan_keys cs ids f : (chunk_plan cs ids f).*1 = ids.
Proof. revert f. induction ids as [|i ids IH]; simpl; intros f; [done|]. by rewrite IH. Qed.

(** The upload loop: the table it builds gives, for every chunk it read,
    a non-empty list of assigned nodes whose servers hold that chunk; it
    keeps every blob of another name that a server held. *)
Lemma upload_chunks_spec link name cs asg :
  faithful link →
  ∀ ids f net up net' up',
    NoDup ids →
    upload_chunks link name cs asg ids f net up = (net', Some up') →
    (∀ j, j ∉ ids → dict_get j up' = dict_get j up) ∧
    (∀ addr id0 data0,
       served net addr id0 data0 → (∀ i, i ∈ ids → id0 ≠ chunk_name name i) →
       served net' addr id0 data0) ∧
    (∀ i data, (i, data) ∈ chunk_plan cs ids f →
       ∃ succ, dict_get i up' = Some succ ∧ succ ≠ [] ∧
         ∀ x, x ∈ succ →
           ∃ r, r ∈ default [] (dict_get i asg) ∧ ref_node_id r = x ∧
                served net' (ref_host r, ref_port r) (chunk_name name i) data).
Proof.
  intros Hf. induction ids as [|i ids IH]; intros f net up net' up' Hnd Heq.
  - simpl in Heq. injection Heq as <- <-. split; [done|]. split; [done|].
    intros i data Hin. by apply elem_of_nil in Hin.
  - apply NoDup_cons in Hnd as [Hi Hnd]. simpl in Heq.
    destruct (file_read cs f) as [data f'] eqn:Hread.
    destruct (store_replicas link net (chunk_name name i) data
                (default [] (dict_get i asg)) []) as [net1 succ] eqn:Hstore.
    destruct (store_replicas_spec _ _ _ _ Hf _ _ _ _ Hstore) as [Hframe1 Hsucc].
    destruct succ as [|x0 succ]; [done|].
    apply IH in Heq as (Hget & Hframe & Hplan); [|done].
    split; [|split].
    + intros j Hj. apply not_elem_of_cons in Hj as [Hne Hj].
      rewrite Hget by done. by apply dict_get_set_ne.
    + intros addr id0 data0 Hs Hother. apply Hframe.
      * apply Hframe1; [done|]. left. apply Hother, list_elem_of_here.
      * intros i' Hi'. by apply Hother, list_elem_of_further.
    + intros i' data' Hin. simpl in Hin. rewrite Hread in Hin. simpl in Hin.
      apply elem_of_cons in Hin as [[= -> ->]|Hin]; [|by apply Hplan].
      exists (x0 :: succ). split; [|split; [done|]].
      * rewrite Hget by done. apply dict_get_set_eq.
      * intros x Hx. apply Hsucc in Hx as [Hx|(r & Hr & Hid & Hs)];
          [by apply elem_of_nil in Hx|].
        exists r. split; [done|]. split; [done|].
        apply Hframe; [done|]. intros i' Hi' Heq'.
        apply chunk_name_inj in Heq'. by subst.
Qed.

Lemma retrieve_chunk_served link net host port id data :
  faithful link → served net (host, port) id data →
  retrieve_chunk_from_datanode link net host port id = Some data.
Proof.
  intros [_ Hdown] (dn & Hl & Hh). unfold retrieve_chunk_from_datanode.
  rewrite Hl, (retrieve_chunk_holds dn id data Hh).
  specialize (Hdown (host, port) id data).
  destruct (downlink link (host, port) id data) as [incoming ending].
  simpl in Hdown. subst incoming. by rewrite recv_chunk_all.
Qed.

Lemma try_datanodes_served link net id refs data :
  faithful link → refs ≠ [] → data ≠ [] →
  (∀ r, r ∈ refs → served net (ref_host r, ref_port r) id data) →
  try_datanodes link net id refs = Some data.
Proof.
  intros Hf Hrefs Hdata Hall. destruct refs as [|r refs]; [done|]. simpl.
  rewrite (retrieve_chunk_served link net _ _ id data Hf)
    by apply Hall, list_elem_of_here.
  by destruct data.
Qed.

Lemma download_chunks_spec link net name plan :
  faithful link → NoDup plan.*1 →
  ∀ locations acc,
    (∀ k refs, (k, refs) ∈ locations →
       refs ≠ [] ∧ ∃ d, (k, d) ∈ plan ∧ d ≠ [] ∧
         ∀ r, r ∈ refs → served net (ref_host r, ref_port r) (chunk_name name k) d) →
    download_chunks link net name locations acc
    = Some (foldl (λ acc kv, dict_set kv.1 (default [] (dict_get kv.1 plan)) acc)
                  acc locations).
Proof.
  intros Hf Hnd. induction locations as [|[k refs] locations IH]; intros acc Hall; [done|].
  simpl. destruct (Hall k refs) as (Hrefs & d & Hd & Hne & Hserved);
    [apply list_elem_of_here|].
  rewrite (try_datanodes_served link net _ refs d) by done.
  rewrite (dict_elem_get k d plan) by done. simpl.
  apply IH. intros k' refs' Hin. by apply Hall, list_elem_of_further.
Qed.
End client.

(** ** What a successful [upload_init] returns *)

Section upload_init.
Import NameNode.

Lemma handle_upload_init_inv (s s' : NameNode.t) (now : Z) (filename : string)
    (filesize cs n : Z) (assignments : list (Z * list NodeRef)) :
  reachable s →
  handle_upload_init s now filename filesize = (s', UploadInitSuccess cs n assignments) →
  s' = s ∧ cs = chunk_size s ∧
  chunk_size s * (n - 1) < filesize ≤ chunk_size s * n ∧
  dict_keys assignments = seqZ 0 n ∧
  ∀ i, 0 ≤ i < n →
    ∃ refs, dict_get i assignments = Some refs ∧ placement_post s now refs.
Proof.
  intros Hreach. destruct (reachable_wf s Hreach) as (Hcs & Hrf & Hreg & _).
  unfold handle_upload_init. rewrite decide_False by lia.
  destruct (assign_chunks _ _ _ _) as [asg|msg] eqn:Hasg; [|done].
  intros [= <- <- <- <-]. split; [done|]. split; [done|].
  split; [by apply ceil_div_spec|].
  set (n := (filesize + chunk_size s - 1) `div` chunk_size s) in *.
  apply assign_chunks_inl in Hasg as [-> Hlen].
  split.
  { rewrite dict_keys_foldl_set; [done|]. apply NoDup_seqZ. }
  intros i Hi. eexists. split.
  { rewrite dict_get_foldl_set, decide_True; [done|]. apply elem_of_seqZ. lia. }
  assert (seqZ 0 n ≠ []) as Hne.
  { rewrite seqZ_cons by lia. done. }
  specialize (Hlen Hne). clear Hne.
  rewrite select_datanodes_spec in * by done.
  set (sorted := py_sort_reverse DataNodeInfo.available_space (live_nodes s now)) in *.
  assert (Hperm : sorted ≡ₚ live_nodes s now) by apply py_sort_reverse_Permutation.
  assert (Hsorted : StronglySorted (desc DataNodeInfo.available_space) sorted)
    by apply py_sort_reverse_sorted.
  exists (take (Z.to_nat (replication_factor s)) sorted).
  split; [done|]. split.
  { rewrite length_fmap in *. rewrite length_take in *. lia. }
  split.
  { rewrite <-list_fmap_compose.
    apply (sublist_NoDup _ (DataNodeInfo.node_id <$> sorted)).
    - rewrite Hperm. by apply live_nodes_NoDup.
    - apply fmap_sublist, sublist_take. }
  split.
  { intros node Hin. apply live_nodes_elem; [done|]. rewrite <-Hperm.
    by apply (subseteq_take (Z.to_nat (replication_factor s))). }
  split.
  { rewrite <-(take_drop (Z.to_nat (replication_factor s)) sorted) in Hsorted.
    by apply StronglySorted_app_1_l in Hsorted. }
  intros node other Hnode Hother Hout.
  apply (sorted_take_top _ (Z.to_nat (replication_factor s)) sorted); [done..| |done].
  by rewrite Hperm.
Qed.
End upload_init.

(** ** Upload followed by download *)

Section roundtrip.
Import DFSClient.
Implicit Types (link : Link) (net : gmap (string * Z) DataNode.t).

Lemma chunk_plan_join cs ids f :
  0 ≤ cs →
  mjoin (chunk_plan cs ids f).*2 = take (length ids * Z.to_nat cs) f.
Proof.
  intros Hcs. revert f. induction ids as [|i ids IH]; simpl; intros f; [done|].
  unfold file_read. rewrite bool_decide_eq_false_2 by lia. simpl.
  rewrite IH. by rewrite take_take_drop.
Qed.

Lemma chunk_plan_nonempty cs ids f :
  0 < cs →
  (Z.of_nat (length ids) - 1) * cs < Z.of_nat (length f) →
  ∀ i d, (i, d) ∈ chunk_plan cs ids f → d ≠ [].
Proof.
  intros Hcs. revert f. induction ids as [|i ids IH]; simpl; intros f Hlen i' d Hin.
  - by apply elem_of_nil in Hin.
  - unfold file_read in Hin. rewrite bool_decide_eq_false_2 in Hin by lia.
    simpl in Hin. apply elem_of_cons in Hin as [[= -> ->]|Hin].
    + destruct f as [|b f]; [simpl in Hlen; nia|].
      destruct (Z.to_nat cs) as [|c] eqn:Hc; [lia|]. done.
    + refine (IH (drop (Z.to_nat cs) f) _ i' d Hin).
      rewrite length_drop. nia.
Qed.

Lemma Sorted_seqZ m n : Sorted Z.le (seqZ m n).
Proof.
  destruct (decide (n ≤ 0)) as [Hn|Hn]; [rewrite seqZ_nil by done; constructor|].
  rewrite <-(Z2Nat.id n) by lia. generalize (Z.to_nat n). clear. intros k. revert m.
  induction k as [|k IH]; intros m; [constructor|].
  rewrite seqZ_cons by lia. constructor.
  - replace (Z.pred (Z.of_nat (S k))) with (Z.of_nat k) by lia. apply IH.
  - replace (Z.pred (Z.of_nat (S k))) with (Z.of_nat k) by lia.
    destruct k as [|k]; [constructor|]. rewrite seqZ_cons by lia. constructor. lia.
Qed.

(** Writing the chunks in ascending order of their index writes the planned
    chunks one after the other. *)
Lemma reconstruct_plan chunks_data n plan :
  plan.*1 = seqZ 0 n →
  dict_keys chunks_data ≡ₚ seqZ 0 n →
  (∀ k d, (k, d) ∈ plan → dict_get k chunks_data = Some d) →
  reconstruct chunks_data = mjoin plan.*2.
Proof.
  intros Hkeys Hperm Hget. unfold reconstruct.
  assert (merge_sort Z.le (dict_keys chunks_data) = seqZ 0 n) as ->.
  { apply (Sorted_unique Z.le).
    - apply Sorted_merge_sort. apply _.
    - apply Sorted_seqZ.
    - by rewrite merge_sort_Permutation. }
  rewrite <-Hkeys, <-list_fmap_compose. f_equal.
  apply Forall_fmap_ext_1, Forall_forall. intros [k d] Hin. simpl.
  by rewrite (Hget k d).
Qed.

Lemma upload_chunks_keys_NoDup link name cs asg ids :
  ∀ f net up net' up',
    upload_chunks link name cs asg ids f net up = (net', Some up') →
    NoDup (dict_keys up) → NoDup (dict_keys up').
Proof.
  induction ids as [|i ids IH]; intros f net up net' up' Heq Hnd; simpl in Heq.
  - by injection Heq as <- <-.
  - destruct (file_read cs f) as [data f'].
    destruct (store_replicas _ _ _ _ _ _) as [net1 succ].
    destruct succ as [|x0 succ]; [done|].
    eapply IH; [exact Heq|]. by apply dict_keys_set_NoDup.
Qed.

(** An exchange that goes through is the NameNode's handler. *)
Lemma send_to_namenode_delivered ctl nn now request :
  exchange_delivered ctl nn now request →
  send_to_namenode ctl nn now request = NameNode.handle_client nn now request.
Proof.
  intros [Hq Hr]. unfold send_to_namenode. rewrite Hq.
  destruct (NameNode.handle_client nn now request) as [nn' response].
  simpl in Hr. by rewrite Hr.
Qed.

(** An answer other than an error is the handler's answer to the request,
    and the request was served. *)
Lemma send_to_namenode_answer ctl nn now request nn' response :
  send_to_namenode ctl nn now request = (nn', response) →
  (∀ message, response ≠ NameNode.Error message) →
  NameNode.handle_client nn now request = (nn', response).
Proof.
  unfold send_to_namenode.
  destruct (request_lost ctl request) as [m|].
  { intros [= <- <-] Hne. by destruct (Hne m). }
  destruct (NameNode.handle_client nn now request) as [nn1 r1].
  destruct (response_lost ctl r1) as [m|]; intros [= <- <-] Hne; [|done].
  by destruct (Hne m).
Qed.


Lemma delivers_exchange ctl nn now request :
  delivers ctl → exchange_delivered ctl nn now request.
Proof. intros [Hq Hr]. split; [apply Hq|apply Hr]. Qed.

(** What a successful upload leaves behind: a record of the file with the
    chunk indices [0 .. n - 1], every node of whose replica lists is a
    registered node and has a server at its address that holds the chunk. *)
Lemma upload_file_inv link ctl c c' t_init t_complete local_path b remote_filename name :
  faithful link → NameNode.reachable (namenode c) →
  name = remote_name local_path remote_filename →
  upload_file link ctl c t_init t_complete local_path (Some b) remote_filename
  = (c', true) →
  ∃ n md,
    0 < NameNode.chunk_size (namenode c) ∧
    NameNode.chunk_size (namenode c) * (n - 1) < Z.of_nat (length b)
      ≤ NameNode.chunk_size (namenode c) * n ∧
    NameNode.files (namenode c') = <[name := md]> (NameNode.files (namenode c)) ∧
    NameNode.datanodes (namenode c') = NameNode.datanodes (namenode c) ∧
    metadata_wf md ∧
    FileMetadata.size md = Z.of_nat (length b) ∧
    FileMetadata.chunk_size md = NameNode.chunk_size (namenode c) ∧
    (∀ k, k ∈ dict_keys (FileMetadata.chunks md) ↔ 0 ≤ k < n) ∧
    (∀ k x, x ∈ FileMetadata.get_chunk_locations k md →
       ∃ d info,
         (k, d) ∈ chunk_plan (NameNode.chunk_size (namenode c)) (seqZ 0 n) b ∧
         dict_get x (NameNode.datanodes (namenode c)) = Some info ∧
         served (servers c') (DataNodeInfo.host info, DataNodeInfo.port info)
           (chunk_name name k) d).
Proof.
  intros Hf Hreach -> Hup. unfold upload_file in Hup.
  set (name := remote_name local_path remote_filename) in *.
  destruct (send_to_namenode ctl (namenode c) t_init
              (NameNode.UploadInit name (Z.of_nat (length b))))
    as [nn resp] eqn:Hinit.
  destruct resp as [| | |cs n asg| |]; try discriminate Hup.
  apply send_to_namenode_answer in Hinit; [|done]. cbn [NameNode.handle_client] in Hinit.
  destruct (handle_upload_init_inv _ _ _ _ _ _ _ _ Hreach Hinit)
    as (-> & -> & Hceil & _ & Hasg).
  destruct (reachable_wf _ Hreach) as (Hcs & _).
  destruct (upload_chunks link name (NameNode.chunk_size (namenode c)) asg (seqZ 0 n) b
              (servers c) []) as [net' [up'|]] eqn:Hchunks; [|discriminate Hup].
  destruct (upload_chunks_spec link name _ asg Hf _ _ _ _ _ _ (NoDup_seqZ 0 n) Hchunks)
    as (Hget & _ & Hplan).
  pose proof (upload_chunks_keys_NoDup _ _ _ _ _ _ _ _ _ _ Hchunks (NoDup_nil_2)) as Hnd.
  destruct (handle_upload_complete_installs (namenode c) t_complete name
              (Z.of_nat (length b)) up')
    as (md & Hfiles & Hdn & Hsize & Hmdcs & Hmdkeys & Hmdget & Hwf).
  destruct (send_to_namenode ctl (namenode c) t_complete
              (NameNode.UploadComplete name (Z.of_nat (length b)) up'))
    as [nn' resp'] eqn:Hcomplete.
  destruct resp' as [|m| | | |]; try discriminate Hup.
  apply send_to_namenode_answer in Hcomplete; [|done].
  cbn [NameNode.handle_client] in Hcomplete. rewrite Hcomplete in Hfiles, Hdn.
  simpl in Hfiles, Hdn. injection Hup as <-. simpl.
  assert (Hin_range : ∀ k ids, (k, ids) ∈ up' → k ∈ seqZ 0 n ∧ dict_get k up' = Some ids).
  { intros k ids Hin. apply (dict_elem_get _ _ _ Hnd) in Hin. split; [|done].
    destruct (decide (k ∈ seqZ 0 n)) as [|Hout]; [done|].
    rewrite (Hget k Hout) in Hin. done. }
  assert (Hplanned : ∀ k, k ∈ seqZ 0 n →
            ∃ d, (k, d) ∈ chunk_plan (NameNode.chunk_size (namenode c)) (seqZ 0 n) b).
  { intros k Hk. rewrite <-(chunk_plan_keys (NameNode.chunk_size (namenode c)) _ b) in Hk.
    apply list_elem_of_fmap in Hk as ([k' d] & -> & Hin). by exists d. }
  exists n, md. split; [done|]. split; [done|]. split; [done|]. split; [done|].
  split; [done|]. split; [done|]. split; [done|]. split.
  - intros k. rewrite Hmdkeys. split.
    + intros (ids & Hin & _). apply Hin_range in Hin as [Hk _].
      apply elem_of_seqZ in Hk. lia.
    + intros Hk. destruct (Hplanned k) as [d Hd]; [apply elem_of_seqZ; lia|].
      destruct (Hplan k d Hd) as (succ & Hsucc & Hne & _).
      exists succ. split; [by apply dict_get_Some_elem|done].
  - intros k x Hx. apply Hmdget in Hx as (ids & Hin & Hx).
    apply Hin_range in Hin as [Hk Hids].
    destruct (Hplanned k Hk) as [d Hd].
    destruct (Hplan k d Hd) as (succ & Hsucc & _ & Hserved).
    rewrite Hids in Hsucc. injection Hsucc as <-.
    destruct (Hserved x Hx) as (r & Hr & Hid & Hs).
    destruct (Hasg k) as (refs & Hrefs & selected & -> & _ & _ & Hsel & _);
      [apply elem_of_seqZ in Hk; lia|].
    rewrite Hrefs in Hr. simpl in Hr.
    apply list_elem_of_fmap in Hr as (node & -> & Hnode).
    destruct (Hsel node Hnode) as [Hreg _]. simpl in Hid, Hs. subst x.
    by exists d, node.
Qed.

(** A download finds every chunk of such a record, provided every chunk has
    a live replica, and writes the chunks in the order of their indices. *)
Lemma download_file_plan link ctl c now name local_path can_write n md plan :
  faithful link →
  exchange_delivered ctl (namenode c) now (NameNode.DownloadInit name) →
  can_write (local_name name local_path) = true →
  NameNode.files (namenode c) !! name = Some md →
  metadata_wf md →
  plan.*1 = seqZ 0 n →
  (∀ k, k ∈ dict_keys (FileMetadata.chunks md) ↔ 0 ≤ k < n) →
  (∀ i d, (i, d) ∈ plan → d ≠ []) →
  (∀ k x, x ∈ FileMetadata.get_chunk_locations k md →
     ∃ d info, (k, d) ∈ plan ∧
       dict_get x (NameNode.datanodes (namenode c)) = Some info ∧
       served (servers c) (DataNodeInfo.host info, DataNodeInfo.port info)
         (chunk_name name k) d) →
  (∀ k ids, (k, ids) ∈ FileMetadata.chunks md →
     ∃ id, id ∈ ids ∧ is_live (namenode c) now id = true) →
  download_file link ctl c now name local_path can_write = Some (mjoin plan.*2).
Proof.
  intros Hf Hctl Hcw Hl [Hnd Hlists] Hplan Hkeys Hne Hserved Hlive.
  assert (Hndplan : NoDup plan.*1) by (rewrite Hplan; apply NoDup_seqZ).
  unfold download_file. rewrite send_to_namenode_delivered by done.
  cbn [NameNode.handle_client]. unfold NameNode.handle_download_init. rewrite Hl.
  rewrite locate_chunks_inl.
  2:{ apply Forall_forall. intros [k ids] Hin. simpl.
      destruct (Hlive _ _ Hin) as (id & Hid & Hlv).
      intros Hnil. rewrite healthy_refs_nil in Hnil. rewrite (Hnil _ Hid) in Hlv. done. }
  rewrite (foldl_dict_set_fresh (λ kv, NameNode.healthy_refs (namenode c) now kv.2)) by done.
  simpl.
  set (locations := (λ kv, (kv.1, NameNode.healthy_refs (namenode c) now kv.2))
                      <$> FileMetadata.chunks md).
  assert (Hlockeys : dict_keys locations = dict_keys (FileMetadata.chunks md))
    by apply dict_keys_fmap_values.
  rewrite (download_chunks_spec link (servers c) name plan Hf Hndplan locations []).
  2:{ intros k refs Hin.
      apply list_elem_of_fmap in Hin as ([k' ids] & [= -> ->] & Hin). simpl.
      destruct (Hlive _ _ Hin) as (id & Hid & Hlv). split.
      - intros Hnil. rewrite healthy_refs_nil in Hnil. rewrite (Hnil _ Hid) in Hlv. done.
      - assert (FileMetadata.get_chunk_locations k' md = ids) as Hids.
        { unfold FileMetadata.get_chunk_locations. by rewrite (dict_elem_get k' ids). }
        destruct (Hserved k' id) as (d & _ & Hd & _ & _); [by rewrite Hids|].
        exists d. split; [done|]. split; [by apply (Hne k')|].
        intros r Hr. apply healthy_refs_elem in Hr as (Hrid & _ & info & Hinfo & -> & ->).
        destruct (Hserved k' (ref_node_id r)) as (d' & info' & Hd' & Hinfo' & Hs);
          [by rewrite Hids|].
        rewrite Hinfo in Hinfo'. injection Hinfo' as <-.
        assert (d' = d) as ->; [|done].
        apply (dict_elem_get _ _ _ Hndplan) in Hd, Hd'. congruence. }
  rewrite Hcw. f_equal.
  rewrite (foldl_dict_set_fresh (λ kv, default [] (dict_get kv.1 plan))).
  2:{ simpl. by rewrite Hlockeys. }
  simpl. apply (reconstruct_plan _ n plan); [done| |].
  - rewrite dict_keys_fmap_entries, Hlockeys.
    apply NoDup_Permutation; [done|apply NoDup_seqZ|].
    intros k. rewrite Hkeys, elem_of_seqZ. lia.
  - intros k d Hd.
    rewrite (dict_get_fmap_entries (λ kv, default [] (dict_get kv.1 plan))).
    assert (k ∈ dict_keys locations) as Hk.
    { rewrite Hlockeys, Hkeys, <-(Z.add_0_l n), <-elem_of_seqZ, <-Hplan.
      apply list_elem_of_fmap. by exists (k, d). }
    apply dict_get_is_Some in Hk as [refs ->]. simpl.
    by rewrite (dict_elem_get k d plan).
Qed.
End roundtrip.

(** ** The stored alive bit *)

Section alive_flag.
Import NameNode.
Implicit Types (s : NameNode.t) (e : Event) (now : Z).

Lemma flags_current_mono s t t' : t ≤ t' → flags_current s t → flags_current s t'.
Proof.
  intros Hle Hflags id node Hg Hh. apply (Hflags id node Hg).
  unfold DataNodeInfo.is_healthy, DataNodeInfo.is_healthy_within in *.
  apply bool_decide_eq_true in Hh. apply bool_decide_eq_true. lia.
Qed.

(** Only the scanner clears the bit, and only for a node that is not
    healthy at that time; a heartbeat sets it. *)
Lemma step_flags_current s e :
  flags_current s (event_time e) → flags_current (step s e) (event_time e).
Proof.
  intros Hflags.
  destruct e as [now [id host port|id a t c|f sz|f sz c|f|f|f]|now];
    cbn [step handle_client event_time] in *.
  - unfold register_datanode. destruct (dict_contains id (datanodes s)); [done|].
    intros id' node. simpl. rewrite dict_get_set.
    destruct (decide (id = id')) as [->|]; [by intros [= <-]|by apply Hflags].
  - unfold handle_heartbeat. destruct (dict_get id (datanodes s)) as [info|]; [|done].
    intros id' node. simpl. rewrite dict_get_set.
    destruct (decide (id = id')) as [->|]; [by intros [= <-]|by apply Hflags].
  - by rewrite handle_upload_init_state.
  - done.
  - by rewrite handle_download_init_state.
  - unfold delete_file. by destruct (files s !! f).
  - unfold get_file_info. by destruct (files s !! f).
  - intros id node. rewrite heartbeat_monitor_datanodes, dict_get_fmap_values.
    destruct (dict_get id (datanodes s)) as [node0|] eqn:Hg; [|done].
    intros [= <-]. unfold mark_dead, stale.
    destruct (DataNodeInfo.is_healthy now node0) eqn:Hh; simpl; [by apply (Hflags id)|].
    destruct (DataNodeInfo.is_alive node0); simpl; [|by rewrite Hh].
    unfold DataNodeInfo.is_healthy, DataNodeInfo.is_healthy_within in *. simpl.
    by rewrite Hh.
Qed.

Lemma run_flags_current s trace start now :
  chronological start now trace →
  flags_current s start → flags_current (run s trace) now.
Proof.
  revert s start. induction trace as [|e trace IH]; simpl; intros s start Htimed Hs.
  - by apply (flags_current_mono _ start).
  - destruct Htimed as [Hle Htimed].
    apply (IH _ (event_time e)); [done|].
    by apply step_flags_current, (flags_current_mono _ start).
Qed.

Lemma init_flags_current cs rf t : flags_current (init cs rf) t.
Proof. intros id node Hg. done. Qed.
End alive_flag.

(** ** Further lemmas: the chunk table of a DataNode *)

Section data_node_table.
Import DataNode.

Lemma index_wf_stored dn chunk_id data : index_wf dn → index_wf (stored dn chunk_id data).
Proof.
  intros Hwf id p. simpl. rewrite lookup_insert.
  destruct (decide (chunk_id = id)) as [->|]; [by intros [= <-]|]. apply Hwf.
Qed.

Lemma retrieve_chunk_stored_other dn chunk_id data other :
  index_wf dn → other ≠ chunk_id →
  retrieve_chunk (stored dn chunk_id data) other = retrieve_chunk dn other.
Proof.
  intros Hwf Hne. unfold retrieve_chunk. simpl.
  rewrite lookup_insert_ne by done.
  destruct (chunks dn !! other) as [p|] eqn:Hp; [|done].
  apply Hwf in Hp as ->.
  rewrite lookup_insert_ne; [done|]. intros Heq. by apply path_join_inj in Heq.
Qed.

Lemma load_chunks_lookup dn listing chunk_id :
  chunks (load_chunks dn listing) !! chunk_id
  = if String.prefix "chunk_" chunk_id && bool_decide (chunk_id ∈ listing)
    then Some (path_join (storage_dir dn) chunk_id) else None.
Proof.
  unfold load_chunks. cbn [chunks].
  induction listing as [|name listing IH] using rev_ind.
  { simpl. rewrite lookup_empty. by rewrite andb_false_r. }
  rewrite foldl_app. cbn [foldl].
  destruct (decide (chunk_id = name)) as [->|Hne].
  - rewrite (bool_decide_eq_true_2 (name ∈ listing ++ [name]))
      by (apply elem_of_app; right; apply list_elem_of_here).
    rewrite andb_true_r.
    destruct (String.prefix "chunk_" name) eqn:Hp.
    + apply lookup_insert_eq.
    + by rewrite IH.
  - assert (bool_decide (chunk_id ∈ listing ++ [name]) = bool_decide (chunk_id ∈ listing))
      as ->.
    { apply bool_decide_ext. rewrite elem_of_app, list_elem_of_singleton. naive_solver. }
    destruct (String.prefix "chunk_" name); [|done].
    by rewrite lookup_insert_ne.
Qed.
End data_node_table.


Lemma prefix_app (s t : string) : String.prefix s (s +:+ t) = true.
Proof.
  induction s as [|a s IH]; simpl; [by destruct t|].
  by destruct (Ascii.ascii_dec a a).
Qed.

(** The ids the client gives its chunks start with [chunk_]. *)
Lemma chunk_name_prefix remote_filename k :
  String.prefix "chunk_" (DFSClient.chunk_name remote_filename k) = true.
Proof. apply prefix_app. Qed.

(** ** Further lemmas: how one event changes the registry *)

Section registry_steps.
Import NameNode.

(** What one event does to the record of a registered node: nothing, a
    heartbeat update, or the dead flag of the scanner. *)
Lemma step_registry_entry s e id info :
  dict_get id (datanodes s) = Some info →
  ∃ info',
    dict_get id (datanodes (step s e)) = Some info' ∧
    (info' = info ∨
     (∃ now a t c, e = Serve now (Heartbeat id a t c) ∧
                   info' = DataNodeInfo.update_heartbeat now a t c info) ∨
     (∃ now, e = Scan now ∧ stale now info = true ∧
             info' = DataNodeInfo.set_is_alive false info)).
Proof.
  intros Hg.
  destruct e as [now [id' host port|id' a t c|f sz|f sz c|f|f|f]|now];
    cbn [step handle_client].
  - unfold register_datanode. destruct (dict_contains id' (datanodes s)) eqn:Hc.
    + eauto.
    + apply dict_contains_false in Hc. exists info. split; [|by left]. simpl.
      rewrite dict_get_set_ne; [done|]. intros ->.
      apply Hc, dict_get_is_Some. by eexists.
  - unfold handle_heartbeat. destruct (dict_get id' (datanodes s)) as [old|] eqn:Ho.
    + simpl. destruct (decide (id' = id)) as [->|Hne].
      * rewrite dict_get_set_eq. eexists. split; [done|]. right. left.
        exists now, a, t, c. split; [done|]. congruence.
      * rewrite dict_get_set_ne by done. eauto.
    + eauto.
  - rewrite handle_upload_init_state. eauto.
  - simpl. eauto.
  - rewrite handle_download_init_state. eauto.
  - unfold delete_file. destruct (files s !! f); simpl; eauto.
  - unfold get_file_info. destruct (files s !! f); simpl; eauto.
  - rewrite heartbeat_monitor_datanodes, dict_get_fmap_values, Hg. simpl.
    eexists. split; [done|]. unfold mark_dead.
    destruct (stale now info) eqn:Hs; [|by left]. right. right. by exists now.
Qed.

Lemma step_registry_keys s e :
  dict_keys (datanodes s) `prefix_of` dict_keys (datanodes (step s e)).
Proof.
  destruct e as [now [id' host port|id' a t c|f sz|f sz c|f|f|f]|now];
    cbn [step handle_client].
  - unfold register_datanode. destruct (dict_contains id' (datanodes s)) eqn:Hc; [done|].
    apply dict_contains_false in Hc. simpl. rewrite dict_keys_set_fresh by done.
    by apply prefix_app_r.
  - unfold handle_heartbeat. destruct (dict_get id' (datanodes s)) as [old|] eqn:Ho; [|done].
    simpl. rewrite dict_keys_set_old; [done|]. apply dict_get_is_Some. by eexists.
  - by rewrite handle_upload_init_state.
  - done.
  - by rewrite handle_download_init_state.
  - unfold delete_file. by destruct (files s !! f).
  - unfold get_file_info. by destruct (files s !! f).
  - by rewrite heartbeat_monitor_datanodes, dict_keys_fmap_values.
Qed.
End registry_steps.

(** ** Further lemmas: replica lists *)

Section replica_lists.
Import NameNode.

Lemma py_list_remove_sublist {A} `{EqDecision A} (x : A) (l : list A) :
  py_list_remove x l `sublist_of` l.
Proof.
  induction l as [|y l IH]; simpl; [done|].
  destruct (decide (x = y)); [by apply sublist_cons|by apply sublist_skip].
Qed.

Lemma remove_each_sublist {A} `{EqDecision A} (xs l : list A) :
  remove_each xs l `sublist_of` l.
Proof.
  unfold remove_each. revert l. induction xs as [|x xs IH]; intros l; simpl; [done|].
  etrans; [apply IH|apply py_list_remove_sublist].
Qed.

Lemma is_under_replicated_elem md k :
  NoDup (dict_keys (FileMetadata.chunks md)) →
  k ∈ FileMetadata.is_under_replicated md
  ↔ k ∈ dict_keys (FileMetadata.chunks md) ∧
    Z.of_nat (length (FileMetadata.get_chunk_locations k md))
    < FileMetadata.replication_factor md.
Proof.
  intros Hnd. unfold FileMetadata.is_under_replicated, FileMetadata.get_chunk_locations.
  rewrite list_elem_of_fmap. split.
  - intros ([k' l] & -> & [Hlt Hin]%list_elem_of_filter). simpl in *.
    split; [apply dict_keys_elem; by exists l|].
    by rewrite (dict_elem_get _ _ _ Hnd Hin).
  - intros [[l Hin]%dict_keys_elem Hlt].
    rewrite (dict_elem_get _ _ _ Hnd Hin) in Hlt. simpl in Hlt.
    exists (k, l). split; [done|]. by apply list_elem_of_filter.
Qed.

(** What an event that does not rewrite the record of a file can do to it:
    keep it, or strike dead nodes from its replica lists. *)
Lemma step_file_record s e f md :
  files s !! f = Some md → ¬ rewrites f e →
  files (step s e) !! f = Some md ∨
  ∃ dead, files (step s e) !! f = Some (purge_dead dead md).
Proof.
  intros Hf Hrw.
  destruct e as [now [id' host port|id' a t c|f' sz|f' sz c|f'|f'|f']|now];
    cbn [step handle_client].
  - left. unfold register_datanode. by destruct (dict_contains _ _).
  - left. unfold handle_heartbeat. by destruct (dict_get _ _).
  - left. by rewrite handle_upload_init_state.
  - left. simpl. rewrite lookup_insert_ne; [done|]. intros ->. by apply Hrw.
  - left. by rewrite handle_download_init_state.
  - left. unfold delete_file. destruct (files s !! f'); [|done]. simpl.
    rewrite lookup_delete_ne; [done|]. intros ->. by apply Hrw.
  - left. unfold get_file_info. by destruct (files s !! f').
  - rewrite heartbeat_monitor_files.
    destruct ((filter _ (datanodes s)).*1) as [|d dead]; [by left|].
    right. exists (d :: dead). by rewrite lookup_fmap, Hf.
Qed.
End replica_lists.

Lemma example_file_state_reachable : NameNode.reachable example_file_state.
Proof. exists 4, 3, example_file_trace. by repeat split. Qed.

Lemma example_state_reachable : NameNode.reachable example_state.
Proof. exists 4, 3, example_trace. by repeat split. Qed.

(** ** Further lemmas: the totals of the cluster status *)

Section totals.
Import NameNode.

Lemma total_size_insert (m : gmap string FileMetadata.t) f md :
  map_fold (λ _ f acc, FileMetadata.size f + acc) 0 (<[f := md]> m)
  = FileMetadata.size md
    + map_fold (λ _ f acc, FileMetadata.size f + acc) 0 (delete f m).
Proof.
  rewrite <-insert_delete_eq.
  rewrite map_fold_insert_L; [done| |apply lookup_delete_eq].
  intros. lia.
Qed.

Lemma total_size_delete (m : gmap string FileMetadata.t) f md :
  m !! f = Some md →
  map_fold (λ _ f acc, FileMetadata.size f + acc) 0 m
  = FileMetadata.size md
    + map_fold (λ _ f acc, FileMetadata.size f + acc) 0 (delete f m).
Proof.
  intros Hf. rewrite (map_fold_delete_L _ _ f md m); [done| |done].
  intros. lia.
Qed.
End totals.

(** ** Further lemmas: stability of the sort *)

Section stability.
Context {A : Type} (key : A → Z).
Implicit Types (l : list A).

(** [insert_desc] puts an element in front of all elements of its key. *)
Lemma insert_desc_filter x l v :
  filter (λ a, key a = v) (insert_desc key x l) = filter (λ a, key a = v) (x :: l).
Proof.
  induction l as [|y l IH]; simpl; [done|].
  case_bool_decide as Hlt; [|done].
  rewrite (filter_cons _ y), IH, !(filter_cons _ x), (filter_cons _ y).
  destruct (decide (key y = v)), (decide (key x = v)); try done. lia.
Qed.

(** Elements of equal key leave the sort in the order they came in. *)
Lemma py_sort_reverse_stable l v :
  filter (λ a, key a = v) (py_sort_reverse key l) = filter (λ a, key a = v) l.
Proof.
  induction l as [|x l IH]; simpl; [done|].
  rewrite insert_desc_filter, !filter_cons. by rewrite IH.
Qed.

Lemma filter_all (P : A → Prop) `{∀ a, Decision (P a)} l :
  (∀ a, a ∈ l → P a) → filter P l = l.
Proof.
  induction l as [|x l IH]; intros Hall; [done|].
  rewrite filter_cons, decide_True by (apply Hall, list_elem_of_here).
  f_equal. apply IH. intros a Ha. by apply Hall, list_elem_of_further.
Qed.

Lemma py_sort_reverse_ties l c :
  (∀ a, a ∈ l → key a = c) → py_sort_reverse key l = l.
Proof.
  intros Hall.
  rewrite <-(filter_all (λ a, key a = c) (py_sort_reverse key l)).
  - rewrite py_sort_reverse_stable. by apply filter_all.
  - intros a Ha. apply Hall. by rewrite <-(py_sort_reverse_Permutation key l).
Qed.
End stability.

Lemma py_list_remove_last {A} `{EqDecision A} (x : A) (l : list A) :
  x ∉ l → py_list_remove x (l ++ [x]) = l.
Proof.
  induction l as [|y l IH]; simpl; intros Hx.
  - by rewrite decide_True.
  - apply not_elem_of_cons in Hx as [Hne Hx]. rewrite decide_False by done.
    by rewrite IH.
Qed.

(** ** Further lemmas: the upload pipeline *)

Section upload_pipeline.
Import NameNode DFSClient.
Implicit Types (link : Link) (net : gmap (string * Z) DataNode.t).

Lemma select_datanodes_length s now count :
  0 ≤ count → count ≤ Z.of_nat (length (live_nodes s now)) →
  Z.of_nat (length (select_datanodes_for_chunk s now count)) = count.
Proof.
  intros H0 Hle. rewrite select_datanodes_spec by done.
  rewrite length_fmap, length_take, py_sort_reverse_length. lia.
Qed.

Lemma assign_chunks_enough s now ids acc :
  replication_factor s
  ≤ Z.of_nat (length (select_datanodes_for_chunk s now (replication_factor s))) →
  assign_chunks s now ids acc
  = inl (foldl (λ acc i,
                  dict_set i (select_datanodes_for_chunk s now (replication_factor s)) acc)
               acc ids).
Proof.
  intros Hle. revert acc. induction ids as [|i ids IH]; intros acc; simpl; [done|].
  rewrite bool_decide_eq_false_2 by lia. apply IH.
Qed.

(** Over a faithful data plane a chunk is stored on exactly the assigned
    nodes that have a server listening, and the servers stay where they
    are. *)
Lemma store_replicas_faithful link id data refs :
  faithful link →
  ∀ net acc, ∃ net',
    store_replicas link net id data refs acc
    = (net', acc ++ (ref_node_id <$> filter (listening net) refs)) ∧
    ∀ r, listening net' r ↔ listening net r.
Proof.
  intros Hf. induction refs as [|r refs IH]; intros net acc; simpl.
  { exists net. by rewrite app_nil_r. }
  rewrite store_chunk_to_datanode_faithful by done.
  destruct (net !! (ref_host r, ref_port r)) as [dn|] eqn:Hdn.
  - set (net1 := <[(ref_host r, ref_port r) := stored dn id data]> net).
    assert (∀ r', listening net1 r' ↔ listening net r') as Hl.
    { intros r'. unfold listening, net1. rewrite lookup_insert_is_Some'.
      split; [|auto]. intros [<- | ?]; [by eexists|done]. }
    destruct (IH net1 (acc ++ [ref_node_id r])) as (net' & -> & Hl').
    exists net'. split.
    + f_equal. rewrite (list_filter_iff _ _ _ Hl).
      rewrite (filter_cons _ r), decide_True by (by eexists).
      by rewrite fmap_cons, <-app_assoc.
    + intros r'. by rewrite Hl'.
  - destruct (IH net acc) as (net' & -> & Hl'). exists net'. split; [|done].
    rewrite (filter_cons _ r), decide_False; [done|].
    unfold listening. rewrite Hdn. by intros [? [=]].
Qed.

Lemma upload_chunks_enough link name cs asg :
  faithful link →
  ∀ ids f net up,
    (∀ i, i ∈ ids → ∃ r, r ∈ default [] (dict_get i asg) ∧ listening net r) →
    ∃ net' up',
      upload_chunks link name cs asg ids f net up = (net', Some up') ∧
      ∀ r, listening net' r ↔ listening net r.
Proof.
  intros Hf. induction ids as [|i ids IH]; intros f net up Hall; simpl.
  { by exists net, up. }
  destruct (file_read cs f) as [data f'].
  destruct (store_replicas_faithful link (chunk_name name i) data
              (default [] (dict_get i asg)) Hf net []) as (net1 & -> & Hl).
  destruct (Hall i (list_elem_of_here _ _)) as (r & Hr & Hlr).
  assert (r ∈ filter (listening net) (default [] (dict_get i asg))) as Hin
    by (by apply list_elem_of_filter).
  destruct (filter _ _) as [|r0 rs]; [by apply elem_of_nil in Hin|].
  change ([] ++ (ref_node_id <$> r0 :: rs))
    with (ref_node_id r0 :: (ref_node_id <$> rs)).
  cbv beta iota.
  destruct (IH f' net1 (dict_set i (ref_node_id r0 :: (ref_node_id <$> rs)) up))
    as (net' & up' & -> & Hl').
  { intros j Hj. destruct (Hall j (list_elem_of_further _ _ _ Hj)) as (r' & ? & ?).
    exists r'. split; [done|]. by apply Hl. }
  exists net', up'. split; [done|]. intros r'. by rewrite Hl'.
Qed.
End upload_pipeline.

Section upload_outcome.
Import NameNode DFSClient.

Lemma upload_file_enough link ctl c t_init t_complete local_path b remote_filename :
  faithful link →
  delivers ctl →
  reachable (namenode c) →
  replication_factor (namenode c)
  ≤ Z.of_nat (length (live_nodes (namenode c) t_init)) →
  (∃ r, r ∈ select_datanodes_for_chunk (namenode c) t_init
              (replication_factor (namenode c)) ∧
        listening (servers c) r) →
  ∃ c', upload_file link ctl c t_init t_complete local_path (Some b) remote_filename
        = (c', true) ∧
        ∀ r, listening (servers c') r ↔ listening (servers c) r.
Proof.
  intros Hf Hctl Hreach Hlive (r & Hr & Hlisten).
  destruct (reachable_wf _ Hreach) as (Hcs & Hrf & _).
  set (s := namenode c) in *.
  set (sel := select_datanodes_for_chunk s t_init (replication_factor s)) in *.
  unfold upload_file. fold s.
  set (name := remote_name local_path remote_filename).
  rewrite send_to_namenode_delivered by (by apply delivers_exchange).
  cbn [handle_client]. unfold handle_upload_init.
  rewrite decide_False by lia.
  rewrite assign_chunks_enough
    by (fold sel; unfold sel; rewrite select_datanodes_length; lia).
  fold sel.
  set (n := (Z.of_nat (length b) + chunk_size s - 1) `div` chunk_size s).
  set (asg := foldl (λ acc i, dict_set i sel acc) [] (seqZ 0 n)).
  destruct (upload_chunks_enough link name (chunk_size s) asg Hf (seqZ 0 n) b
              (servers c) []) as (net' & up' & -> & Hl).
  { intros i Hi. exists r. split; [|done].
    unfold asg. rewrite dict_get_foldl_set, decide_True by done. done. }
  rewrite send_to_namenode_delivered by (by apply delivers_exchange).
  cbn [handle_client]. unfold handle_upload_complete. by eexists.
Qed.

(** A successful upload ends with [upload_complete], served under the name
    the file is stored under. *)
Lemma upload_file_complete link ctl c c' t_init t_complete local_path b remote_filename :
  upload_file link ctl c t_init t_complete local_path (Some b) remote_filename
  = (c', true) →
  ∃ up, namenode c'
        = (handle_upload_complete (namenode c) t_complete
             (remote_name local_path remote_filename) (Z.of_nat (length b)) up).1.
Proof.
  unfold upload_file.
  set (name := remote_name local_path remote_filename).
  destruct (send_to_namenode ctl (namenode c) t_init
              (UploadInit name (Z.of_nat (length b)))) as [nn response] eqn:Hinit.
  destruct response; try by intros [= _ ?].
  apply send_to_namenode_answer in Hinit; [|done]. cbn [handle_client] in Hinit.
  pose proof (handle_upload_init_state (namenode c) t_init name (Z.of_nat (length b)))
    as Hstate.
  rewrite Hinit in Hstate. simpl in Hstate. subst nn.
  destruct (upload_chunks _ _ _ _ _ _ _ _) as [net [up|]]; [|by intros [= _ ?]].
  destruct (send_to_namenode ctl (namenode c) t_complete
              (UploadComplete name (Z.of_nat (length b)) up))
    as [nn' response'] eqn:Hcomplete.
  destruct response'; try by intros [= _ ?].
  apply send_to_namenode_answer in Hcomplete; [|done].
  cbn [handle_client] in Hcomplete.
  intros [= <- ]. exists up. by rewrite Hcomplete.
Qed.

(** No replica list of a record that [upload_complete] installs is empty. *)
Lemma installed_lists_nonempty s now f sz req md :
  files (handle_upload_complete s now f sz req).1 !! f = Some md →
  ∀ k l, (k, l) ∈ FileMetadata.chunks md → l ≠ [].
Proof.
  intros Hmd k l Hin.
  destruct (handle_upload_complete_installs s now f sz req)
    as (md' & Hfiles & _ & _ & _ & Hkeys & Hloc & [Hnd _]).
  rewrite Hfiles, lookup_insert_eq in Hmd. injection Hmd as ->.
  assert (k ∈ dict_keys (FileMetadata.chunks md)) as Hk
    by (apply dict_keys_elem; by exists l).
  apply Hkeys in Hk as (ids & Hreq & Hne).
  destruct ids as [|x ids]; [done|].
  assert (x ∈ FileMetadata.get_chunk_locations k md) as Hx.
  { apply Hloc. exists (x :: ids). split; [done|apply list_elem_of_here]. }
  unfold FileMetadata.get_chunk_locations in Hx.
  rewrite (dict_elem_get _ _ _ Hnd Hin) in Hx. simpl in Hx.
  intros ->. by apply elem_of_nil in Hx.
Qed.

(** Upload and download, end to end: over a faithful data plane and a
    control plane that delivers, with enough healthy nodes of which a chosen
    one listens, the download after the upload writes the file. *)
Lemma upload_then_download_enough link ctl c t_init t_complete t_download local_path b
    remote_filename download_path can_write name :
  name = remote_name local_path remote_filename →
  faithful link →
  delivers ctl →
  reachable (namenode c) →
  replication_factor (namenode c)
  ≤ Z.of_nat (length (live_nodes (namenode c) t_init)) →
  (∃ r, r ∈ select_datanodes_for_chunk (namenode c) t_init
              (replication_factor (namenode c)) ∧
        listening (servers c) r) →
  (∀ id info, dict_get id (datanodes (namenode c)) = Some info →
              listening (servers c) (node_ref info) →
              DataNodeInfo.is_healthy t_download info = true) →
  can_write (local_name name download_path) = true →
  download_file link ctl
    (upload_file link ctl c t_init t_complete local_path (Some b) remote_filename).1
    t_download name download_path can_write
  = Some b.
Proof.
  intros -> Hf Hctl Hreach Hlive Hsel Hhealthy Hcw.
  set (name := remote_name local_path remote_filename) in *.
  destruct (upload_file_enough link ctl c t_init t_complete local_path b remote_filename
              Hf Hctl Hreach Hlive Hsel) as (c' & Hup & Hl).
  rewrite Hup. cbn [fst].
  destruct (upload_file_inv link ctl c c' t_init t_complete local_path b remote_filename
              name Hf Hreach eq_refl Hup)
    as (n & md & Hcs & Hceil & Hfiles & Hdn & Hwf & Hsize & Hmdcs & Hkeys & Hserved).
  assert (files (namenode c') !! name = Some md) as Hmd
    by (rewrite Hfiles; apply lookup_insert_eq).
  set (cs := chunk_size (namenode c)) in *.
  assert (0 ≤ n) as Hn by nia.
  rewrite (download_file_plan link ctl c' t_download name download_path can_write n md
             (chunk_plan cs (seqZ 0 n) b)).
  - f_equal. rewrite chunk_plan_join by lia. apply take_ge.
    rewrite length_seqZ. nia.
  - done.
  - by apply delivers_exchange.
  - done.
  - done.
  - done.
  - apply chunk_plan_keys.
  - done.
  - apply chunk_plan_nonempty; [done|]. rewrite length_seqZ. nia.
  - intros k x Hx. rewrite Hdn. by apply Hserved.
  - intros k ids Hin.
    destruct (upload_file_complete _ _ _ _ _ _ _ _ _ Hup) as [up Hnn].
    fold name in Hnn. rewrite Hnn in Hmd.
    pose proof (installed_lists_nonempty _ _ _ _ _ _ Hmd k ids Hin) as Hne.
    destruct ids as [|id ids]; [done|]. exists id. split; [apply list_elem_of_here|].
    assert (id ∈ FileMetadata.get_chunk_locations k md) as Hx.
    { unfold FileMetadata.get_chunk_locations.
      rewrite (dict_elem_get _ _ _ (proj1 Hwf) Hin). apply list_elem_of_here. }
    destruct (Hserved k id Hx) as (d & info & _ & Hinfo & (dn & Hdn' & _)).
    unfold is_live. rewrite Hdn, Hinfo. apply (Hhealthy id); [done|].
    apply Hl. by exists dn.
Qed.

(** An upload never receives the response to [download_init]: on the
    control plane that loses only that response it goes as on the one that
    delivers. *)
Lemma long_download_response_upload link c t_init t_complete local_path local_file
    remote_filename :
  upload_file link long_download_response c t_init t_complete local_path local_file
    remote_filename
  = upload_file link reliable_control c t_init t_complete local_path local_file
      remote_filename.
Proof.
  assert (∀ nn t request,
            (∀ f sz cs locs,
               (handle_client nn t request).2 ≠ DownloadInitSuccess f sz cs locs) →
            send_to_namenode long_download_response nn t request
            = send_to_namenode reliable_control nn t request) as Hsame.
  { intros nn t request Hne. unfold send_to_namenode. simpl.
    destruct (handle_client nn t request) as [nn' response].
    destruct response; try done. by destruct (Hne filename filesize chunk_size0
                                                chunk_locations). }
  unfold upload_file. destruct local_file as [content|]; [|done].
  rewrite Hsame.
  2:{ intros f sz cs locs. cbn [handle_client]. unfold handle_upload_init.
      destruct (decide _); [done|]. by destruct (assign_chunks _ _ _ _). }
  destruct (send_to_namenode reliable_control _ _ _) as [nn response].
  by destruct response.
Qed.

End upload_outcome.

Section locating_frame.
Import NameNode.

End locating_frame.

Section slices.
Import DFSClient.

(** The read loop of [upload_file] cuts the file into consecutive slices
    of [cs] bytes. *)
Lemma chunk_plan_slice cs (m : nat) :
  0 ≤ cs →
  ∀ a f k d,
    (k, d) ∈ chunk_plan cs (seqZ a (Z.of_nat m)) f →
    a ≤ k ∧ d = take (Z.to_nat cs) (drop (Z.to_nat ((k - a) * cs)) f).
Proof.
  intros Hcs. induction m as [|m IH]; intros a f k d Hin.
  { by apply elem_of_nil in Hin. }
  rewrite seqZ_cons in Hin by lia. cbn [chunk_plan] in Hin.
  unfold file_read in Hin. rewrite bool_decide_eq_false_2 in Hin by lia.
  cbn [fst snd] in Hin.
  apply elem_of_cons in Hin as [[= -> ->] | Hin].
  - split; [lia|]. by replace (Z.to_nat ((a - a) * cs)) with 0%nat by lia.
  - replace (Z.pred (Z.of_nat (S m))) with (Z.of_nat m) in Hin by lia.
    replace (Z.succ a) with (a + 1) in Hin by lia.
    apply IH in Hin as [Hle ->]. split; [lia|].
    rewrite drop_drop. do 2 f_equal. nia.
Qed.
End slices.

Section control_plane.
Import NameNode DFSClient.

(** What the client holds after an exchange with the NameNode. *)
Lemma send_to_namenode_response ctl nn now request :
  (send_to_namenode ctl nn now request).2
  = match request_lost ctl request with
    | Some message => Error message
    | None =>
        match response_lost ctl (handle_client nn now request).2 with
        | Some message => Error message
        | None => (handle_client nn now request).2
        end
    end.
Proof.
  unfold send_to_namenode. destruct (request_lost ctl request); [done|].
  destruct (handle_client nn now request) as [nn' response]. simpl.
  by destruct (response_lost ctl response).
Qed.

(** A download reads the NameNode through the answer to [download_init]
    only. *)
Lemma download_file_response link ctl c now name local_path can_write :
  download_file link ctl c now name local_path can_write
  = match (send_to_namenode ctl (namenode c) now (DownloadInit name)).2 with
    | DownloadInitSuccess _ _ _ chunk_locations =>
        match download_chunks link (servers c) name chunk_locations [] with
        | Some chunks_data =>
            if can_write (local_name name local_path)
            then Some (reconstruct chunks_data) else None
        | None => None
        end
    | _ => None
    end.
Proof.
  unfold download_file.
  by destruct (send_to_namenode ctl (namenode c) now (DownloadInit name)) as [nn []].
Qed.


(** And a download gets nowhere on it. *)
Lemma long_download_response_download link c now name local_path can_write :
  download_file link long_download_response c now name local_path can_write = None.
Proof.
  rewrite download_file_response, send_to_namenode_response. simpl.
  by destruct (handle_download_init (namenode c) now name).2.
Qed.

End control_plane.

(** * The claims *)

Section claims.
Import NameNode DFSClient.

(** C1, as stated, fails: faithful chunk servers are not enough. The
    response to [download_init] carries the same location lists as the
    response to [upload_init] and the name and the size of the file as well,
    so it is the longer of the two, and the client reads it with a single
    [recv(65536)]. For a file of 1024 chunks of one byte on one DataNode the
    upload goes through, every chunk is stored as it was sent and its
    replica is live, and the download reports failure, because the response
    to [download_init] does not arrive whole; had it arrived, the download
    would have written the file. *)
Lemma upload_download_roundtrip_counterexample :
  faithful faithful_link ∧
  (upload_file faithful_link long_download_response band_cluster 5 6
     "data/f.bin" (Some band_file) None).2 = true ∧
  download_file faithful_link long_download_response
    (upload_file faithful_link long_download_response band_cluster 5 6
       "data/f.bin" (Some band_file) None).1 7 "f.bin" None (λ _, true)
  = None ∧
  download_file faithful_link reliable_control
    (upload_file faithful_link long_download_response band_cluster 5 6
       "data/f.bin" (Some band_file) None).1 7 "f.bin" None (λ _, true)
  = Some band_file.
Proof.
  split; [split; intros; simpl; done|].
  rewrite long_download_response_upload.
  assert (faithful faithful_link) as Hf by (split; intros; simpl; done).
  assert (delivers reliable_control) as Hctl by (by split).
  assert (reachable (namenode band_cluster)) as Hreach.
  { exists 1, 1, [Serve 0 (RegisterDatanode "dn1" "localhost" 8001)].
    repeat split; lia. }
  assert (replication_factor (namenode band_cluster)
          ≤ Z.of_nat (length (live_nodes (namenode band_cluster) 5))) as Hlive
    by (by vm_compute).
  assert (∃ r, r ∈ select_datanodes_for_chunk (namenode band_cluster) 5
                     (replication_factor (namenode band_cluster)) ∧
               listening (servers band_cluster) r) as Hsel.
  { exists (mkNodeRef "dn1" "localhost" 8001). split.
    - vm_compute. apply list_elem_of_here.
    - by eexists. }
  split; [|split].
  - by destruct (upload_file_enough faithful_link reliable_control band_cluster 5 6
                   "data/f.bin" band_file None Hf Hctl Hreach Hlive Hsel)
      as (c' & -> & _).
  - apply long_download_response_download.
  - apply (upload_then_download_enough faithful_link reliable_control band_cluster 5 6 7
             "data/f.bin" band_file None None (λ _, true) "f.bin");
      [reflexivity|done..| |reflexivity].
    intros id info Hg _. apply dict_get_Some_elem in Hg. vm_compute in Hg.
    repeat (apply elem_of_cons in Hg as [[= -> ->] | Hg]; [reflexivity|]).
    by apply elem_of_nil in Hg.
Qed.

(** C1, amended (round trip). The file is stored under the remote name
    given, or under the base name of the local path when none is given.
    Over a faithful data plane, from a reachable NameNode state and whatever
    the DataNode servers hold, when the upload pipeline succeeds for a local
    file [b] (of any length: empty, shorter than a chunk, a multiple of the
    chunk size or not), every chunk of the recorded file has a live replica
    when the download starts, the [download_init] request and its response
    each arrive whole in the single read of the receiving side, and the
    local path of the download can be written, the download pipeline writes
    exactly [b]. The upload reads the file sequentially in
    [ceil(|b| / chunk_size)] chunks, and the record it installs has the
    declared size [|b|] and exactly these chunk indices as keys; the
    download writes the chunks in ascending order of chunk index. *)
Theorem upload_download_roundtrip (link : Link) (ctl : Control) (c c' : Cluster)
    (t_init t_complete t_download : Z) (local_path : string) (b : list byte)
    (remote_filename download_path : option string) (can_write : string → bool) :
  let name := remote_name local_path remote_filename in
  faithful link →
  reachable (namenode c) →
  upload_file link ctl c t_init t_complete local_path (Some b) remote_filename
  = (c', true) →
  (∀ md, files (namenode c') !! name = Some md →
     ∀ k ids, (k, ids) ∈ FileMetadata.chunks md →
       ∃ id, id ∈ ids ∧ is_live (namenode c') t_download id = true) →
  exchange_delivered ctl (namenode c') t_download (DownloadInit name) →
  can_write (local_name name download_path) = true →
  download_file link ctl c' t_download name download_path can_write = Some b ∧
  ∃ md, files (namenode c') !! name = Some md ∧
        FileMetadata.size md = Z.of_nat (length b) ∧
        chunk_keys_invariant md.
Proof.
  intros name Hf Hreach Hup Hlive Hctl Hcw.
  destruct (upload_file_inv link ctl c c' t_init t_complete local_path b remote_filename
              name Hf Hreach eq_refl Hup)
    as (n & md & Hcs & Hceil & Hfiles & Hdn & Hwf & Hsize & Hmdcs & Hkeys & Hserved).
  assert (Hl : files (namenode c') !! name = Some md)
    by (rewrite Hfiles; apply lookup_insert_eq).
  set (cs := chunk_size (namenode c)) in *.
  assert (0 ≤ n) as Hn by nia.
  split.
  - rewrite (download_file_plan link ctl c' t_download name download_path can_write n md
               (chunk_plan cs (seqZ 0 n) b)).
    + f_equal. rewrite chunk_plan_join by lia. apply take_ge.
      rewrite length_seqZ. nia.
    + done.
    + done.
    + done.
    + done.
    + done.
    + apply chunk_plan_keys.
    + done.
    + apply chunk_plan_nonempty; [done|]. rewrite length_seqZ. nia.
    + intros k x Hx. rewrite Hdn. by apply Hserved.
    + by apply Hlive.
  - exists md. split; [done|]. split; [done|].
    intros k. rewrite Hkeys, Hsize, Hmdcs. fold cs.
    pose proof (ceil_div_spec (Z.of_nat (length b)) cs Hcs) as Hceil'.
    assert (n = (Z.of_nat (length b) + cs - 1) `div` cs) as <- by nia. done.
Qed.

Lemma upload_download_roundtrip_witness :
  download_file faithful_link reliable_control
    (upload_file faithful_link reliable_control example_cluster 5 6 "data/f.bin"
       (Some example_file) None).1 7 "f.bin" None (λ _, true)
  = Some example_file.
Proof.
  refine (proj1 (upload_download_roundtrip faithful_link reliable_control example_cluster
                   _ 5 6 7 "data/f.bin" example_file None None (λ _, true)
                   _ _ _ _ _ _)).
  - split; intros; simpl; done.
  - exists 4, 3, example_trace. split; [lia|]. split; [lia|]. reflexivity.
  - vm_compute. reflexivity.
  - intros md Hl k ids Hin. vm_compute in Hl. injection Hl as <-.
    exists "dn3". apply list_elem_of_In in Hin. simpl in Hin.
    destruct Hin as [Hin|[Hin|[Hin|[]]]]; injection Hin as <- <-;
      (split; [apply list_elem_of_here|vm_compute; reflexivity]).
  - by split.
  - reflexivity.
Defined.

(** Over the faithful data plane, files of 0, 1, 3, 4, 5 and 9 bytes in
    chunks of 4 bytes come back as they were. *)
Lemma example_roundtrips :
  Forall (λ b, example_roundtrip DFSClient.faithful_link b = (true, Some b))
    [[]; [x41]; [x41; x42; x43]; [x41; x42; x43; x44]; [x41; x42; x43; x44; x45];
     example_file].
Proof. repeat constructor. Qed.

(** C2, as stated, fails: [upload_complete] installs what the request
    lists. After an [upload_complete] for a 9-byte file (three chunks of 4
    bytes) whose map leaves chunk 2 out, the record of the file has the keys
    0 and 1 only. *)
Lemma chunk_keys_invariant_counterexample :
  ¬ file_index_invariant (run (init 4 3) short_complete_trace).
Proof.
  intros Hinv.
  assert (Hl : files (run (init 4 3) short_complete_trace) !! "f.bin"
               = Some (FileMetadata.mk "f.bin" 9 4 3 6
                         [(0, ["dn3"; "dn2"; "dn1"]); (1, ["dn3"; "dn2"; "dn1"])]))
    by (vm_compute; reflexivity).
  destruct (Hinv _ _ Hl 2) as [_ H2]. simpl in H2.
  assert (0 ≤ 2 < (9 + 4 - 1) `div` 4) as Hrange by (split; by vm_compute).
  apply H2 in Hrange. unfold dict_keys in Hrange. simpl in Hrange.
  apply elem_of_cons in Hrange as [?|Hrange]; [done|].
  apply list_elem_of_singleton in Hrange. done.
Qed.

(** C2, amended. [upload_complete] installs a record with the declared
    size, the NameNode's chunk size, and as keys exactly the chunk indices
    for which the request lists at least one node. So along every trace
    whose [upload_complete] requests list at least one node for exactly the
    indices [0 .. ceil(size / chunk_size) - 1], every record of the file
    index has exactly these keys: all other operations (register, heartbeat,
    upload_init, download_init, delete_file, file_info, the liveness
    scanner) keep the keys of every record. *)
Theorem chunk_keys_invariant_preserved (cs rf : Z) (trace : list Event) :
  Forall (complete_covers cs) trace →
  file_index_invariant (run (init cs rf) trace) ∧
  ∀ now filename filesize chunks,
    ∃ md,
      files (handle_upload_complete (run (init cs rf) trace) now filename filesize chunks).1
        !! filename = Some md ∧
      FileMetadata.size md = filesize ∧
      FileMetadata.chunk_size md = cs ∧
      ∀ k, k ∈ dict_keys (FileMetadata.chunks md) ↔ ∃ ids, (k, ids) ∈ chunks ∧ ids ≠ [].
Proof.
  intros Hcov. split.
  - induction trace as [|e trace IH] using rev_ind.
    + intros f md Hl. simpl in Hl. by rewrite lookup_empty in Hl.
    + apply Forall_app in Hcov as [Hcov He]. rewrite Forall_singleton in He.
      rewrite run_snoc. apply step_file_index_invariant; [|by apply IH].
      destruct (run_config (init cs rf) trace) as [E _]. rewrite E. exact He.
  - intros now filename filesize chunks.
    destruct (handle_upload_complete_installs (run (init cs rf) trace)
                now filename filesize chunks) as (md & Hfiles & _ & Hsize & Hcs & Hkeys & _ & _).
    exists md. rewrite Hfiles, lookup_insert_eq.
    destruct (run_config (init cs rf) trace) as [Ecs _]. simpl in Ecs.
    rewrite Ecs in Hcs. done.
Qed.

Lemma chunk_keys_invariant_preserved_witness :
  file_index_invariant example_file_state.
Proof.
  apply (chunk_keys_invariant_preserved 4 3 example_file_trace).
  unfold example_file_trace, example_trace. repeat (apply Forall_cons; split); try exact I.
  - simpl. intros k. change ((9 + 4 - 1) `div` 4) with 3. split.
    + intros (ids & Hin & _). apply list_elem_of_In in Hin.
      simpl in Hin. destruct Hin as [[= <- _]|[[= <- _]|[[= <- _]|[]]]]; lia.
    + intros Hk. exists ["dn3"; "dn2"; "dn1"]. split; [|done].
      assert (k = 0 ∨ k = 1 ∨ k = 2) as [-> | [-> | ->]] by lia.
      * apply list_elem_of_here.
      * apply list_elem_of_further, list_elem_of_here.
      * apply list_elem_of_further, list_elem_of_further, list_elem_of_here.
  - apply Forall_nil_2.
Defined.

(** C3 (upload_init success postcondition). In a reachable state, when
    [upload_init] succeeds it leaves the state as it was and returns the
    NameNode's chunk size, [num_chunks = ceil(filesize / chunk_size)] (the
    integer [n] with [chunk_size * (n - 1) < filesize ≤ chunk_size * n]) and
    an assignment map whose keys are [0 .. num_chunks - 1]; the list of each
    chunk has exactly [replication_factor] entries, names no node twice,
    names only registered nodes that are live at the time of the call
    (healthy: the last heartbeat is less than 30 ticks old), in descending
    order of available space, and no live node left out has more available
    space than a chosen one. When the clock has not run backwards, the
    stored alive bit of every chosen node is set as well. *)
Theorem upload_init_success (s s' : NameNode.t) (now : Z) (filename : string)
    (filesize cs n : Z) (assignments : list (Z * list NodeRef)) :
  reachable s →
  handle_upload_init s now filename filesize = (s', UploadInitSuccess cs n assignments) →
  (s' = s ∧ cs = chunk_size s ∧
   chunk_size s * (n - 1) < filesize ≤ chunk_size s * n ∧
   dict_keys assignments = seqZ 0 n ∧
   ∀ i, 0 ≤ i < n →
     ∃ refs, dict_get i assignments = Some refs ∧ placement_post s now refs) ∧
  (∀ cs0 rf0 start trace,
     s = run (init cs0 rf0) trace → chronological start now trace →
     ∀ i refs r, dict_get i assignments = Some refs → r ∈ refs →
       ∃ node, dict_get (ref_node_id r) (datanodes s) = Some node ∧
               DataNodeInfo.is_alive node = true).
Proof.
  intros Hreach Hinit.
  pose proof (handle_upload_init_inv _ _ _ _ _ _ _ _ Hreach Hinit) as Hinv.
  split; [exact Hinv|].
  destruct Hinv as (_ & _ & _ & Hkeys & Hasg).
  intros cs0 rf0 start trace Hs Htimed i refs r Hrefs Hr.
  assert (flags_current s now) as Hflags.
  { rewrite Hs. apply (run_flags_current _ _ start); [done|]. apply init_flags_current. }
  assert (i ∈ seqZ 0 n) as Hi.
  { rewrite <-Hkeys. apply dict_get_is_Some. by exists refs. }
  apply elem_of_seqZ in Hi.
  destruct (Hasg i) as (refs' & Hrefs' & selected & -> & _ & _ & Hsel & _); [lia|].
  rewrite Hrefs in Hrefs'. injection Hrefs' as ->.
  apply list_elem_of_fmap in Hr as (node & -> & Hnode).
  destruct (Hsel node Hnode) as [Hreg Hh]. exists node. split; [done|].
  by apply (Hflags _ _ Hreg).
Qed.

Lemma upload_init_success_witness :
  (example_state = example_state ∧ 4 = chunk_size example_state ∧
   chunk_size example_state * (3 - 1) < 9 ≤ chunk_size example_state * 3 ∧
   dict_keys example_assignments = seqZ 0 3 ∧
   ∀ i, 0 ≤ i < 3 →
     ∃ refs, dict_get i example_assignments = Some refs ∧
             placement_post example_state 5 refs) ∧
  (∀ i refs r, dict_get i example_assignments = Some refs → r ∈ refs →
     ∃ node, dict_get (ref_node_id r) (datanodes example_state) = Some node ∧
             DataNodeInfo.is_alive node = true).
Proof.
  destruct (upload_init_success example_state example_state 5 "f.bin" 9 4 3
              example_assignments) as [Hpost Hflags].
  - exists 4, 3, example_trace. split; [lia|]. split; [lia|]. reflexivity.
  - vm_compute. reflexivity.
  - split; [exact Hpost|].
    apply (Hflags 4 3 0 example_trace); [reflexivity|]. simpl. lia.
Defined.

(** C4 (upload_init failure atomicity). With a positive chunk size, for a
    file of at least one byte, when fewer DataNodes are live than the
    replication factor asks for, [upload_init] fails with the
    insufficient-DataNodes error and returns the state it was given: no file
    record is installed and nothing is reserved. *)
Theorem upload_init_insufficient (s : NameNode.t) (now : Z)
    (filename : string) (filesize : Z) :
  0 < chunk_size s →
  1 ≤ filesize →
  Z.of_nat (length (live_nodes s now)) < replication_factor s →
  handle_upload_init s now filename filesize
  = (s, Error (insufficient_message (replication_factor s)
                 (Z.of_nat (length (live_nodes s now))))).
Proof.
  intros Hcs Hsz Hlive. unfold handle_upload_init.
  rewrite decide_False by lia.
  destruct (ceil_div_spec filesize (chunk_size s) Hcs) as [_ Hn].
  rewrite seqZ_cons by nia. simpl.
  rewrite select_datanodes_spec by lia.
  rewrite length_fmap, length_take_ge, py_sort_reverse_length.
  - by rewrite bool_decide_eq_true_2 by done.
  - rewrite py_sort_reverse_length. lia.
Qed.

Lemma upload_init_insufficient_witness :
  handle_upload_init example_state 30 "f.bin" 9
  = (example_state, Error "Insufficient DataNodes. Need 3, found 2").
Proof.
  assert (H : 0 < chunk_size example_state) by reflexivity.
  assert (H' : Z.of_nat (length (live_nodes example_state 30))
               < replication_factor example_state) by (vm_compute; reflexivity).
  exact (upload_init_insufficient example_state 30 "f.bin" 9 H ltac:(lia) H').
Defined.

(** C5, as stated, fails: the scanner purges only the nodes it flags dead
    in the same pass. A node that was flagged dead by an earlier pass and is
    then named by an [upload_complete] stays in the replica list through
    every later pass. *)
Lemma heartbeat_monitor_purge_counterexample :
  ¬ purged (heartbeat_monitor (run (init 4 3) late_complete_trace) 50).
Proof.
  intros Hp. apply (Hp "f.bin" 0 "dn1").
  exists (FileMetadata.mk "f.bin" 4 4 3 41 [(0, ["dn1"])]),
         (DataNodeInfo.mk "dn1" "localhost" 8001 0 ∅ 0 0 false).
  split; [by vm_compute|]. split; [apply list_elem_of_here|]. split; by vm_compute.
Qed.

(** C5, amended. In a reachable state, after a pass of the liveness
    scanner no node that the pass itself flags dead (alive bit set before
    the pass, last heartbeat at least 30 ticks old) is in any replica list
    of any file; and a node whose alive bit is false and that is in a
    replica list after the pass already had its alive bit false, and was
    already in that list, before the pass. Hence a pass keeps the file index
    free of dead nodes when it was free of them before. *)
Theorem heartbeat_monitor_purge (s : NameNode.t) (now : Z) :
  reachable s →
  (∀ id info f md k,
     dict_get id (datanodes s) = Some info → stale now info = true →
     files (heartbeat_monitor s now) !! f = Some md →
     id ∉ FileMetadata.get_chunk_locations k md) ∧
  (∀ f k id, dead_listed (heartbeat_monitor s now) f k id → dead_listed s f k id) ∧
  (purged s → purged (heartbeat_monitor s now)).
Proof.
  intros Hreach. pose proof (reachable_wf s Hreach) as Hwf.
  assert (Hkeep : ∀ f k id,
             dead_listed (heartbeat_monitor s now) f k id → dead_listed s f k id).
  { intros f k id (md' & info' & Hl & Hin & Hg & Hdead).
    destruct (heartbeat_monitor_locations s now f md' k id Hwf Hl Hin)
      as (md & Hl0 & Hin0 & Hfresh).
    rewrite heartbeat_monitor_datanodes, dict_get_fmap_values in Hg.
    destruct (dict_get id (datanodes s)) as [info|] eqn:Hg0; [|done].
    injection Hg as <-. exists md, info. split; [done|]. split; [done|]. split; [done|].
    unfold mark_dead in Hdead. by rewrite (Hfresh info eq_refl) in Hdead. }
  split; [|split; [done|]].
  - intros id info f md k Hg Hs Hl Hin.
    destruct (heartbeat_monitor_locations s now f md k id Hwf Hl Hin) as (_ & _ & _ & Hfresh).
    rewrite (Hfresh _ Hg) in Hs. done.
  - intros Hp f k id Hd. by apply (Hp f k id), Hkeep.
Qed.

Lemma heartbeat_monitor_purge_witness :
  purged example_file_state ∧ purged (heartbeat_monitor example_file_state 31).
Proof.
  assert (Hp : purged example_file_state).
  { intros f k id (md & info & _ & _ & Hg & Hdead).
    apply dict_get_Some_elem, list_elem_of_In in Hg. vm_compute in Hg.
    destruct Hg as [Hg|[Hg|[Hg|[]]]]; injection Hg as <- <-; discriminate Hdead. }
  split; [exact Hp|].
  apply (heartbeat_monitor_purge example_file_state 31); [|exact Hp].
  exists 4, 3, example_file_trace. split; [lia|]. split; [lia|]. reflexivity.
Defined.

(** C6 (code defect). [store_chunk] is asked to store a chunk of 10 bytes;
    the connection delivers 3 bytes and is then closed by the peer. The
    receive loop stops at the empty read, and the method goes on to write
    the 3 bytes under the chunk id and to answer success: the partial blob
    is in the store (a later [retrieve_chunk] serves it) and no error
    response is sent. *)
Theorem store_chunk_short_delivery :
  let r := DataNode.store_chunk example_datanode "chunk_f.bin_0" 10 short_delivery in
  r.1.2 = DataNode.StoreSuccess "chunk_f.bin_0" 3 (DataNode.MD5 [x41; x42; x43]) ∧
  r.2 = Some (DataNode.StoreSuccess "chunk_f.bin_0" 3 (DataNode.MD5 [x41; x42; x43])) ∧
  r.1.1 ≠ example_datanode ∧
  holds r.1.1 "chunk_f.bin_0" [x41; x42; x43] ∧
  DataNode.retrieve_chunk r.1.1 "chunk_f.bin_0"
  = (DataNode.RetrieveSuccess "chunk_f.bin_0" 3, [x41; x42; x43]).
Proof.
  intros r.
  assert (Hr : r = (stored example_datanode "chunk_f.bin_0" [x41; x42; x43],
                    DataNode.StoreSuccess "chunk_f.bin_0" 3 (DataNode.MD5 [x41; x42; x43]),
                    Some (DataNode.StoreSuccess "chunk_f.bin_0" 3
                            (DataNode.MD5 [x41; x42; x43])))).
  { unfold r. by rewrite store_chunk_short_stream. }
  rewrite Hr. simpl. split; [done|]. split; [done|]. split; [|split].
  - intros Heq. apply (f_equal DataNode.chunks) in Heq.
    apply (f_equal (lookup "chunk_f.bin_0")) in Heq. simpl in Heq.
    by rewrite lookup_insert_eq, lookup_empty in Heq.
  - apply holds_stored.
  - apply (retrieve_chunk_holds _ _ [x41; x42; x43]), holds_stored.
Qed.

(** What the defect costs: over a data plane that cuts chunks short, the
    upload of [example_file] reports success, and the download then writes
    a different file. *)
Lemma lossy_upload_is_silent :
  example_roundtrip lossy_link example_file = (true, Some [x41; x42; x45; x46; x49]).
Proof. vm_compute. reflexivity. Qed.

(** C7, as stated, fails: [download_init] looks at the chunks the record
    lists, not at the chunks the file has. In the reachable state in which
    the record of the 9-byte file [f.bin] (three chunks of 4 bytes) lists
    chunks 0 and 1 only, chunk 2 has no replica at all, let alone a live
    one, and [download_init] succeeds, with a location map that leaves
    chunk 2 out. *)
Lemma download_init_contract_counterexample :
  reachable short_complete_state ∧
  (∃ md, files short_complete_state !! "f.bin" = Some md ∧
         FileMetadata.size md = 9 ∧ FileMetadata.chunk_size md = 4 ∧
         FileMetadata.get_chunk_locations 2 md = []) ∧
  handle_download_init short_complete_state 7 "f.bin"
  = (short_complete_state,
     DownloadInitSuccess "f.bin" 9 4
       [(0, [mkNodeRef "dn3" "localhost" 8003; mkNodeRef "dn2" "localhost" 8002;
             mkNodeRef "dn1" "localhost" 8001]);
        (1, [mkNodeRef "dn3" "localhost" 8003; mkNodeRef "dn2" "localhost" 8002;
             mkNodeRef "dn1" "localhost" 8001])]).
Proof.
  split; [|split].
  - exists 4, 3, short_complete_trace. by repeat split.
  - eexists. split; [vm_compute; reflexivity|]. by repeat split.
  - vm_compute. reflexivity.
Qed.

(** C7, amended (download_init result and failure modes). In a reachable
    state, [download_init] fails with the file-not-found error when the name
    is not in the file index. For a file in the index: if every chunk listed
    in its chunk table has a live replica (a registered, healthy node), it
    returns the file's size and chunk size and a location map with the keys
    of the chunk table (every chunk index of the file, when the record
    satisfies the chunk-key invariant), the list of each chunk being the
    chunk's replica list filtered to the live nodes, each entry carrying the
    node's id and its registered host and port; if some chunk listed in the
    chunk table has no live replica, it fails with the no-healthy-DataNodes
    error for such a chunk. A chunk index the table does not list is not
    looked at. The state is unchanged in every case. When the clock has not
    run backwards, the stored alive bit of every live node is set as
    well. *)
Theorem download_init_contract (s : NameNode.t) (now : Z) (filename : string) :
  reachable s →
  download_init_post s now filename ∧
  (∀ cs rf start trace,
     s = run (init cs rf) trace → chronological start now trace →
     ∀ id, is_live s now id = true →
       ∃ node, dict_get id (datanodes s) = Some node ∧
               DataNodeInfo.is_alive node = true).
Proof.
  intros Hreach. split.
  2:{ intros cs rf start trace Hs Htimed id Hlive. unfold is_live in Hlive.
      destruct (dict_get id (datanodes s)) as [node|] eqn:Hg; [|done].
      exists node. split; [done|].
      assert (flags_current s now) as Hflags.
      { rewrite Hs. apply (run_flags_current _ _ start); [done|]. apply init_flags_current. }
      by apply (Hflags _ _ Hg). }
  destruct (reachable_wf s Hreach) as (_ & _ & _ & Hfiles).
  unfold download_init_post.
  destruct (files s !! filename) as [md|] eqn:Hl.
  - destruct (Hfiles _ _ Hl) as [Hkeys _]. split.
    + intros Hall.
      exists ((λ kv, (kv.1, healthy_refs s now kv.2)) <$> FileMetadata.chunks md).
      split; [|split; [|split]].
      4:{ intros Hinv k Hk. apply dict_get_is_Some.
          rewrite dict_keys_fmap_values. by apply Hinv. }
      * unfold handle_download_init. rewrite Hl, locate_chunks_inl.
        -- by rewrite (foldl_dict_set_fresh (λ kv, healthy_refs s now kv.2)).
        -- apply Forall_forall. intros [k ids] Hin. simpl.
           destruct (Hall _ _ Hin) as (id & Hid & Hlive).
           intros Hnil. rewrite healthy_refs_nil in Hnil.
           rewrite (Hnil _ Hid) in Hlive. done.
      * apply dict_keys_fmap_values.
      * intros k ids Hin. exists (healthy_refs s now ids). split; [|split].
        -- rewrite dict_get_fmap_values. by rewrite (dict_elem_get k ids).
        -- apply healthy_refs_ids.
        -- intros r Hr. by apply healthy_refs_elem in Hr as (_ & ? & ?).
    + intros (k & ids & Hin & Hdead).
      destruct (locate_chunks_inr s now (FileMetadata.chunks md) []) as (k' & ids' & Hin' & Hnil & Heq).
      { apply Exists_exists. exists (k, ids). split; [done|]. by apply healthy_refs_nil. }
      exists k', ids'. split; [done|]. split; [by apply healthy_refs_nil|].
      unfold handle_download_init. by rewrite Hl, Heq.
  - unfold handle_download_init. by rewrite Hl.
Qed.

Lemma download_init_contract_witness :
  download_init_post example_file_state 7 "f.bin" ∧
  (∀ id, is_live example_file_state 7 id = true →
     ∃ node, dict_get id (datanodes example_file_state) = Some node ∧
             DataNodeInfo.is_alive node = true).
Proof.
  destruct (download_init_contract example_file_state 7 "f.bin") as [Hpost Hflags].
  - exists 4, 3, example_file_trace. split; [lia|]. split; [lia|]. reflexivity.
  - split; [exact Hpost|].
    apply (Hflags 4 3 0 example_file_trace); [reflexivity|]. simpl. lia.
Defined.

(** C8 (heartbeat contract). In the state reached by any trace of events,
    [heartbeat] fails with the not-registered error exactly when no
    [register_datanode] for the id was served before, and then leaves the
    state as it was. Otherwise it succeeds: the node's record keeps its id,
    host and port, takes the time of the request as last heartbeat, the
    reported available and total space and the reported inventory (as a
    set), and has its alive bit set (and is healthy at that time); the file
    index and the other records are untouched. In particular this holds for
    any trace in which a registration of the id comes first. *)
Theorem heartbeat_contract (cs rf : Z) (trace : list Event) (now : Z)
    (node_id : string) (available_space total_space : Z) (chunks : list string) :
  let s := run (init cs rf) trace in
  let r := handle_heartbeat s now node_id available_space total_space chunks in
  (r.2 = Error "DataNode not registered" ↔ ¬ registered trace node_id) ∧
  (¬ registered trace node_id → r.1 = s) ∧
  (registered trace node_id →
   r.2 = SuccessPlain ∧
   files r.1 = files s ∧
   (∀ other, other ≠ node_id →
      dict_get other (datanodes r.1) = dict_get other (datanodes s)) ∧
   ∃ old info,
     dict_get node_id (datanodes s) = Some old ∧
     dict_get node_id (datanodes r.1) = Some info ∧
     info = DataNodeInfo.mk (DataNodeInfo.node_id old) (DataNodeInfo.host old)
              (DataNodeInfo.port old) now (list_to_set chunks)
              available_space total_space true ∧
     DataNodeInfo.is_alive info = true ∧
     DataNodeInfo.is_healthy now info = true) ∧
  (∀ before t0 host port after,
     trace = before ++ Serve t0 (RegisterDatanode node_id host port) :: after →
     r.2 = SuccessPlain ∧
     ∃ info, dict_get node_id (datanodes r.1) = Some info ∧
             DataNodeInfo.is_alive info = true).
Proof.
  intros s r.
  assert (Hreg : node_id ∈ dict_keys (datanodes s) ↔ registered trace node_id).
  { unfold s. rewrite run_registered. simpl. rewrite elem_of_nil. naive_solver. }
  assert (Hyes : registered trace node_id →
    r.2 = SuccessPlain ∧ files r.1 = files s ∧
    (∀ other, other ≠ node_id →
       dict_get other (datanodes r.1) = dict_get other (datanodes s)) ∧
    ∃ old info,
      dict_get node_id (datanodes s) = Some old ∧
      dict_get node_id (datanodes r.1) = Some info ∧
      info = DataNodeInfo.mk (DataNodeInfo.node_id old) (DataNodeInfo.host old)
               (DataNodeInfo.port old) now (list_to_set chunks)
               available_space total_space true ∧
      DataNodeInfo.is_alive info = true ∧
      DataNodeInfo.is_healthy now info = true).
  { intros Hr. apply Hreg, dict_get_is_Some in Hr as [old Hold].
    unfold r, handle_heartbeat. rewrite Hold. simpl.
    split; [done|]. split; [done|]. split.
    - intros other Hne. by apply dict_get_set_ne.
    - exists old. eexists. split; [done|]. split; [apply dict_get_set_eq|].
      split; [done|]. split; [done|].
      unfold DataNodeInfo.is_healthy, DataNodeInfo.is_healthy_within. simpl.
      apply bool_decide_eq_true. lia. }
  assert (Hno : ¬ registered trace node_id →
    r = (s, Error "DataNode not registered")).
  { intros Hr. rewrite <-Hreg, <-dict_get_None in Hr.
    unfold r, handle_heartbeat. by rewrite Hr. }
  split; [|split; [|split]].
  - split.
    + intros Herr Hr. apply Hyes in Hr as [Hr _]. congruence.
    + intros Hr. by rewrite (Hno Hr).
  - intros Hr. by rewrite (Hno Hr).
  - exact Hyes.
  - intros before t0 host port after ->.
    destruct Hyes as (Hok & _ & _ & old & info & _ & Hinfo & _ & Halive & _).
    + exists t0, host, port. apply elem_of_app. right. apply list_elem_of_here.
    + split; [done|]. by exists info.
Qed.

Lemma heartbeat_contract_witness :
  (handle_heartbeat example_state 40 "dn1" 10 100 ["chunk_f.bin_0"]).2 = SuccessPlain ∧
  (handle_heartbeat example_state 40 "dn9" 10 100 []).2 = Error "DataNode not registered" ∧
  (handle_heartbeat example_state 40 "dn9" 10 100 []).1 = example_state.
Proof.
  assert (Hno : ¬ registered example_trace "dn9").
  { intros (now & host & port & Hin). apply list_elem_of_In in Hin. simpl in Hin.
    destruct Hin as [Hin|[Hin|[Hin|[Hin|[Hin|[]]]]]]; discriminate Hin. }
  split; [|split].
  - apply (heartbeat_contract 4 3 example_trace 40 "dn1" 10 100 ["chunk_f.bin_0"]).
    exists 0, "localhost", 8001. apply list_elem_of_here.
  - by apply (heartbeat_contract 4 3 example_trace 40 "dn9" 10 100 []).
  - by apply (heartbeat_contract 4 3 example_trace 40 "dn9" 10 100 []).
Defined.

(** C9 (register idempotence). For an id that is already a key of the
    DataNode registry, [register_datanode] answers success and returns the
    NameNode state it was given: the registry (with the record's host, port,
    last heartbeat, alive bit and inventory) and the file index are the same
    value, whatever host and port the request carries. *)
Theorem register_datanode_idempotent (s : NameNode.t) (now : Z)
    (node_id host : string) (port : Z) :
  node_id ∈ dict_keys (datanodes s) →
  handle_client s now (RegisterDatanode node_id host port)
  = (s, Success "DataNode already registered").
Proof.
  intros Hin. apply dict_contains_true in Hin.
  simpl. unfold register_datanode. by rewrite Hin.
Qed.

Lemma register_datanode_idempotent_witness :
  handle_client example_state 40 (RegisterDatanode "dn2" "otherhost" 9999)
  = (example_state, Success "DataNode already registered").
Proof.
  apply register_datanode_idempotent.
  apply dict_contains_true. vm_compute. reflexivity.
Defined.

(** C10 (empty file). Whatever the fleet is, with no DataNode registered or
    none live, [upload_init] for a file of size 0 succeeds with
    [num_chunks = 0] and an empty assignment map, and leaves the state as it
    was: the placement loop has no iteration. *)
Theorem upload_init_empty_file (s : NameNode.t) (now : Z) (filename : string) :
  0 < chunk_size s →
  handle_upload_init s now filename 0
  = (s, UploadInitSuccess (chunk_size s) 0 []).
Proof.
  intros Hcs. unfold handle_upload_init.
  rewrite decide_False by lia.
  replace ((0 + chunk_size s - 1) `div` chunk_size s) with 0; [done|].
  symmetry. apply Z.div_small. lia.
Qed.

Lemma upload_init_empty_file_witness :
  0 < chunk_size (init 4 3) ∧
  handle_upload_init (init 4 3) 0 "empty.bin" 0 = (init 4 3, UploadInitSuccess 4 0 []).
Proof.
  split; [reflexivity|].
  apply (upload_init_empty_file (init 4 3) 0 "empty.bin"). reflexivity.
Defined.
End claims.

(** * Further properties of the code *)

(** ** datanode.py *)

Section data_node_properties.
Import DataNode.

(** X1: when a socket operation of [store_chunk] raises before the chunk is
    written (the READY signal cannot be sent, or the connection is lost
    before the announced number of bytes has come), the DataNode is left
    exactly as it was, the method returns an error response carrying the
    exception's text, and that response reaches the client if the socket
    still takes it. *)
Theorem store_chunk_socket_error dn chunk_id chunk_size conn :
  can_send_ready conn = false ∨
  (ending conn = ConnectionLost ∧ Z.of_nat (length (incoming conn)) < chunk_size) →
  ∃ e,
    store_chunk dn chunk_id chunk_size conn
    = (dn, Error (str e), if can_send_reply conn then Some (Error (str e)) else None).
Proof.
  intros [Hready | [Hend Hshort]]; unfold store_chunk.
  - rewrite Hready. by exists BrokenPipeError.
  - destruct (can_send_ready conn); [|by exists BrokenPipeError]. simpl.
    rewrite recv_chunk_spec, bool_decide_eq_false_2, Hend by lia.
    by exists ConnectionResetError.
Qed.

Lemma store_chunk_socket_error_witness :
  (ending broken_delivery = ConnectionLost ∧
   Z.of_nat (length (incoming broken_delivery)) < 4) ∧
  ∃ e,
    store_chunk example_datanode "chunk_f.bin_0" 4 broken_delivery
    = (example_datanode, Error (str e), Some (Error (str e))).
Proof.
  assert (ending broken_delivery = ConnectionLost ∧
          Z.of_nat (length (incoming broken_delivery)) < 4) as H
    by (split; [reflexivity | by vm_compute]).
  split; [exact H|].
  exact (store_chunk_socket_error example_datanode "chunk_f.bin_0" 4 broken_delivery
           (or_intror H)).
Defined.

(** X2: when the chunk has been received and written but the final
    response cannot be sent, [store_chunk] returns an error response and
    nothing reaches the client, yet the chunk is stored: a later
    [retrieve_chunk] for the same id serves the received bytes. *)
Theorem store_chunk_reply_lost dn chunk_id chunk_size conn :
  can_send_ready conn = true →
  ending conn = PeerClosed ∨ chunk_size ≤ Z.of_nat (length (incoming conn)) →
  can_send_reply conn = false →
  let data := take (Z.to_nat chunk_size) (incoming conn) in
  store_chunk dn chunk_id chunk_size conn
  = (stored dn chunk_id data, Error (str BrokenPipeError), None) ∧
  retrieve_chunk (store_chunk dn chunk_id chunk_size conn).1.1 chunk_id
  = (RetrieveSuccess chunk_id (Z.of_nat (length data)), data).
Proof.
  intros Hready Hstream Hreply data.
  assert (recv_chunk chunk_size (ending conn) (incoming conn) = Returned data) as Hrecv.
  { rewrite recv_chunk_spec. unfold data. case_bool_decide as Hle; [done|].
    destruct Hstream as [-> | ?]; [|lia]. by rewrite take_ge by lia. }
  assert (store_chunk dn chunk_id chunk_size conn
          = (stored dn chunk_id data, Error (str BrokenPipeError), None)) as Heq.
  { unfold store_chunk. by rewrite Hready, Hrecv, Hreply. }
  split; [done|]. rewrite Heq. apply retrieve_chunk_holds, holds_stored.
Qed.

Lemma store_chunk_reply_lost_witness :
  store_chunk example_datanode "chunk_f.bin_0" 4 unanswered_delivery
  = (stored example_datanode "chunk_f.bin_0" [x41; x42; x43; x44],
     Error (str BrokenPipeError), None) ∧
  retrieve_chunk
    (store_chunk example_datanode "chunk_f.bin_0" 4 unanswered_delivery).1.1
    "chunk_f.bin_0"
  = (RetrieveSuccess "chunk_f.bin_0" 4, [x41; x42; x43; x44]).
Proof.
  exact (store_chunk_reply_lost example_datanode "chunk_f.bin_0" 4 unanswered_delivery
           eq_refl (or_introl eq_refl) eq_refl).
Defined.

(** X3: what [store_chunk] acknowledges, [retrieve_chunk] serves. Whenever
    [store_chunk] answers success, on whatever connection, the size and the
    checksum of the answer are those of the bytes it received (the first
    [chunk_size] bytes of the stream, or all of it when the stream ended
    early), the answer is sent to the client, and a later [retrieve_chunk] for
    the id answers success with exactly these bytes, also when the id was
    stored before. The table keeps pointing every id at its own file of the
    storage directory, and when the ids are plain file names the answers for
    every other id are what they were. *)
Theorem store_retrieve_roundtrip dn chunk_id chunk_size conn dn' answered n sum reply :
  store_chunk dn chunk_id chunk_size conn = (dn', StoreSuccess answered n sum, reply) →
  let data := take (Z.to_nat chunk_size) (incoming conn) in
  answered = chunk_id ∧ n = Z.of_nat (length data) ∧ sum = MD5 data ∧
  reply = Some (StoreSuccess chunk_id n sum) ∧
  retrieve_chunk dn' chunk_id = (RetrieveSuccess chunk_id n, data) ∧
  (index_wf dn →
   index_wf dn' ∧
   ∀ other, plain_file_name chunk_id → plain_file_name other → other ≠ chunk_id →
            retrieve_chunk dn' other = retrieve_chunk dn other).
Proof.
  intros Hstore data. unfold store_chunk in Hstore.
  destruct (can_send_ready conn); [|by destruct (can_send_reply conn)].
  simpl in Hstore.
  assert (recv_chunk chunk_size (ending conn) (incoming conn) = Returned data
          ∨ ∃ e, recv_chunk chunk_size (ending conn) (incoming conn) = Raised e)
    as [Hrecv | [e Hrecv]].
  { rewrite recv_chunk_spec. unfold data. case_bool_decide as Hle; [by left|].
    destruct (ending conn); [|by right; eexists].
    left. by rewrite take_ge by lia. }
  2:{ rewrite Hrecv in Hstore. by destruct (can_send_reply conn). }
  rewrite Hrecv in Hstore.
  destruct (can_send_reply conn); [|done].
  injection Hstore as <- <- <- <- <-.
  repeat split; try done.
  - apply retrieve_chunk_holds, (holds_stored dn chunk_id data).
  - by apply (index_wf_stored dn chunk_id data).
  - intros other _ _ Hne. by apply (retrieve_chunk_stored_other dn chunk_id data).
Qed.

Lemma store_retrieve_roundtrip_witness :
  retrieve_chunk (stored example_datanode "chunk_f.bin_0" [x41; x42; x43; x44])
    "chunk_f.bin_0"
  = (RetrieveSuccess "chunk_f.bin_0" 4, [x41; x42; x43; x44]).
Proof.
  assert (store_chunk example_datanode "chunk_f.bin_0" 4 full_delivery
          = (stored example_datanode "chunk_f.bin_0" [x41; x42; x43; x44],
             StoreSuccess "chunk_f.bin_0" 4 (MD5 [x41; x42; x43; x44]),
             Some (StoreSuccess "chunk_f.bin_0" 4 (MD5 [x41; x42; x43; x44]))))
    as Hstore by reflexivity.
  exact (proj1 (proj2 (proj2 (proj2 (proj2
           (store_retrieve_roundtrip _ _ _ _ _ _ _ _ _ Hstore)))))).
Defined.



(** X5: the receive loop of [store_chunk] and of the client's
    [retrieve_chunk_from_datanode]. It always ends; it raises exactly when
    the connection is lost before [chunk_size] bytes have come; otherwise it
    returns the first [chunk_size] bytes of the stream, which is the whole
    stream when the peer closed early, so never more than [chunk_size]
    bytes (for a non-negative [chunk_size]). *)
Theorem recv_chunk_result chunk_size ending incoming :
  recv_chunk chunk_size ending incoming ≠ OutOfFuel ∧
  (∀ e, recv_chunk chunk_size ending incoming = Raised e ↔
        e = ConnectionResetError ∧ ending = ConnectionLost ∧
        Z.of_nat (length incoming) < chunk_size) ∧
  (∀ data, recv_chunk chunk_size ending incoming = Returned data →
           data = take (Z.to_nat chunk_size) incoming ∧
           (0 ≤ chunk_size → Z.of_nat (length data) ≤ chunk_size) ∧
           (Z.of_nat (length data) < chunk_size →
            ending = PeerClosed ∧ data = incoming)).
Proof.
  rewrite recv_chunk_spec. case_bool_decide as Hle.
  - split; [done|]. split.
    + intros e. split; [done|]. intros (_ & _ & ?). lia.
    + intros data [= <-]. split; [done|]. rewrite length_take. split; [lia|].
      intros ?. lia.
  - destruct ending.
    + split; [done|]. split.
      * intros e. split; [done|]. by intros (_ & ? & _).
      * intros data [= <-]. rewrite take_ge by lia. split; [done|]. split; [lia|done].
    + split; [done|]. split.
      * intros e. split; [intros [= <-]; split; [done|split; [done|lia]]|].
        by intros (-> & _).
      * by intros data.
Qed.

(** X6: [load_chunks] rebuilds the chunk table from the directory listing
    alone. Whatever the table was, afterwards an id has an entry exactly
    when it is a listed name that starts with 'chunk_', every entry points
    at the file of that name in the storage directory, and a request for an
    id without the prefix is answered 'Chunk not found' even when its file
    is on disk. *)
Theorem load_chunks_index dn listing :
  let dn' := load_chunks dn listing in
  index_wf dn' ∧
  (∀ chunk_id,
     is_Some (chunks dn' !! chunk_id)
     ↔ String.prefix "chunk_" chunk_id = true ∧ chunk_id ∈ listing) ∧
  (∀ chunk_id,
     String.prefix "chunk_" chunk_id = false →
     retrieve_chunk dn' chunk_id = (chunk_not_found chunk_id, []) ∧
     delete_chunk dn' chunk_id = (dn', chunk_not_found chunk_id)).
Proof.
  intros dn'. split; [|split].
  - intros id p. unfold dn'. rewrite load_chunks_lookup.
    destruct (_ && _); [by intros [= <-]|done].
  - intros id. unfold dn'. rewrite load_chunks_lookup.
    destruct (String.prefix "chunk_" id); simpl.
    + case_bool_decide; split; naive_solver.
    + split; [by intros [? [=]]|by intros [? ?]].
  - intros id Hp. unfold retrieve_chunk, delete_chunk, dn'.
    by rewrite load_chunks_lookup, Hp.
Qed.

(** X7: a chunk the client stored survives a restart of the DataNode. The
    ids the client uses start with 'chunk_', so once the chunk's file is in
    the storage directory and the directory listing names it, the table
    [load_chunks] builds serves the file's bytes for that id. *)
Theorem restart_serves_client_chunks dn listing remote_filename k data :
  let chunk_id := DFSClient.chunk_name remote_filename k in
  chunk_id ∈ listing →
  disk dn !! path_join (storage_dir dn) chunk_id = Some data →
  holds (load_chunks dn listing) chunk_id data ∧
  retrieve_chunk (load_chunks dn listing) chunk_id
  = (RetrieveSuccess chunk_id (Z.of_nat (length data)), data).
Proof.
  intros chunk_id Hin Hdisk.
  assert (holds (load_chunks dn listing) chunk_id data) as Hh.
  { split; [|done]. rewrite load_chunks_lookup.
    rewrite (bool_decide_eq_true_2 _ Hin), andb_true_r.
    unfold chunk_id. by rewrite chunk_name_prefix. }
  split; [done|]. by apply retrieve_chunk_holds.
Qed.

Lemma restart_serves_client_chunks_witness :
  retrieve_chunk (load_chunks example_directory example_listing)
    (DFSClient.chunk_name "f.bin" 0)
  = (RetrieveSuccess (DFSClient.chunk_name "f.bin" 0) 2, [x41; x42]).
Proof.
  refine (proj2 (restart_serves_client_chunks example_directory example_listing
                   "f.bin" 0 [x41; x42] _ _)).
  - vm_compute. apply list_elem_of_further, list_elem_of_here.
  - by vm_compute.
Defined.

(** X8: the heartbeat a DataNode sends carries the ids of its chunk table.
    When the NameNode has the node registered, serving that heartbeat
    answers success and leaves a record for the node whose inventory is
    exactly the set of ids in the table, healthy at that time, and whose
    [to_dict] reports the table's size as chunk count. *)
Theorem heartbeat_publishes_table s now dn available total old :
  dict_get (node_id dn) (NameNode.datanodes s) = Some old →
  let r := NameNode.handle_client s now (heartbeat_request dn available total) in
  r.2 = NameNode.SuccessPlain ∧
  ∃ info,
    dict_get (node_id dn) (NameNode.datanodes r.1) = Some info ∧
    (∀ chunk_id, chunk_id ∈ DataNodeInfo.chunks info ↔ is_Some (chunks dn !! chunk_id)) ∧
    DataNodeInfo.is_healthy now info = true ∧
    DataNodeInfo.dict_chunk_count (DataNodeInfo.to_dict info)
    = Z.of_nat (size (chunks dn)).
Proof.
  intros Hold r. unfold r. cbn [NameNode.handle_client heartbeat_request].
  unfold NameNode.handle_heartbeat. rewrite Hold. simpl. split; [done|].
  eexists. split; [apply dict_get_set_eq|].
  assert (list_to_set (map_to_list (chunks dn)).*1 =@{gset string} dom (chunks dn)) as Hdom.
  { symmetry. apply leibniz_equiv, dom_alt. }
  simpl. rewrite Hdom. split; [|split].
  - intros id. apply elem_of_dom.
  - unfold DataNodeInfo.is_healthy, DataNodeInfo.is_healthy_within. simpl.
    apply bool_decide_eq_true. lia.
  - by rewrite size_dom.
Qed.

Lemma heartbeat_publishes_table_witness :
  (NameNode.handle_client example_state 10 (heartbeat_request example_holder 50 100)).2
  = NameNode.SuccessPlain.
Proof.
  refine (proj1 (heartbeat_publishes_table example_state 10 example_holder 50 100 _ _)).
  vm_compute. reflexivity.
Defined.
End data_node_properties.

(** ** namenode.py *)

Section name_node_properties.
Import NameNode.


(** X10: [upload_complete] replaces, it does not merge. A second
    [upload_complete] for a name leaves the same state as if the first had
    not been served: the record of the file then has the size of the second
    request and lists, for each chunk, exactly the nodes the second request
    lists for it; [file_info] returns that record, and the records of all
    other files are untouched. *)
Theorem upload_complete_overwrites s t1 t2 filename size1 size2 chunks1 chunks2 :
  let s1 := (handle_client s t1 (UploadComplete filename size1 chunks1)).1 in
  let r := handle_client s1 t2 (UploadComplete filename size2 chunks2) in
  r = handle_client s t2 (UploadComplete filename size2 chunks2) ∧
  (∀ other, other ≠ filename → files r.1 !! other = files s !! other) ∧
  ∃ md,
    (∀ later, handle_client r.1 later (FileInfo filename) = (r.1, FileInfoSuccess md)) ∧
    FileMetadata.size md = size2 ∧
    FileMetadata.created_at md = t2 ∧
    (∀ k x, x ∈ FileMetadata.get_chunk_locations k md
            ↔ ∃ ids, (k, ids) ∈ chunks2 ∧ x ∈ ids).
Proof.
  intros s1 r.
  assert (r = handle_client s t2 (UploadComplete filename size2 chunks2)) as Hr.
  { unfold r, s1. simpl. unfold handle_upload_complete, with_files. simpl.
    by rewrite insert_insert_eq. }
  split; [done|]. rewrite Hr. clear Hr r s1. cbn [handle_client].
  destruct (handle_upload_complete_installs s t2 filename size2 chunks2)
    as (md & Hfiles & _ & Hsize & _ & _ & Hloc & _).
  split.
  - intros other Hne. rewrite Hfiles. by apply lookup_insert_ne.
  - exists md. split; [|split; [done|split; [|done]]].
    + intros later. unfold get_file_info. by rewrite Hfiles, lookup_insert_eq.
    + unfold handle_upload_complete in Hfiles. simpl in Hfiles.
      assert (<[filename := md]> (files s) !! filename
              = Some (add_chunk_locations
                        (FileMetadata.init t2 filename size2 (chunk_size s)
                           (replication_factor s)) chunks2)) as Heq
        by (rewrite <-Hfiles; apply lookup_insert_eq).
      rewrite lookup_insert_eq in Heq. injection Heq as ->.
      by destruct (add_chunk_locations_fields
                     (FileMetadata.init t2 filename size2 (chunk_size s)
                        (replication_factor s)) chunks2) as (_ & _ & _ & _ & ->).
Qed.

(** X11: a registration is permanent. Whatever events follow, a registered
    node stays registered under the id, host and port of its first
    registration (a later [register_datanode] with another address changes
    nothing, and no event removes an entry), and it keeps its place in the
    registration order: the ids registered before the events are an initial
    segment of those registered after. *)
Theorem registry_is_permanent s trace id info :
  dict_get id (datanodes s) = Some info →
  (∃ info',
     dict_get id (datanodes (run s trace)) = Some info' ∧
     DataNodeInfo.node_id info' = DataNodeInfo.node_id info ∧
     DataNodeInfo.host info' = DataNodeInfo.host info ∧
     DataNodeInfo.port info' = DataNodeInfo.port info) ∧
  dict_keys (datanodes s) `prefix_of` dict_keys (datanodes (run s trace)).
Proof.
  revert s info. induction trace as [|e trace IH]; intros s info Hg.
  { split; [by exists info|done]. }
  change (run s (e :: trace)) with (run (step s e) trace).
  destruct (step_registry_entry s e id info Hg) as (info1 & Hg1 & Hcase).
  destruct (IH _ _ Hg1) as [(info' & Hg' & Hid & Hhost & Hport) Hpre].
  split.
  - exists info'. split; [done|]. rewrite Hid, Hhost, Hport.
    destruct Hcase as [-> | [(? & ? & ? & ? & _ & ->) | (? & _ & _ & ->)]]; done.
  - etrans; [apply step_registry_keys|done].
Qed.

Lemma registry_is_permanent_witness :
  ∃ info',
    dict_get "dn2"
      (datanodes (run example_state
                    [Serve 50 (RegisterDatanode "dn2" "otherhost" 9999); Scan 60]))
    = Some info' ∧
    DataNodeInfo.host info' = "localhost" ∧ DataNodeInfo.port info' = 8002.
Proof.
  destruct (registry_is_permanent example_state
              [Serve 50 (RegisterDatanode "dn2" "otherhost" 9999); Scan 60] "dn2"
              (DataNodeInfo.mk "dn2" "localhost" 8002 1 ∅ 50 100 true) eq_refl)
    as [(info' & Hg & _ & Hhost & Hport) _].
  exists info'. exact (conj Hg (conj Hhost Hport)).
Defined.

(** X12: the stored alive bit of a registered node changes in two ways
    only. It goes from false to true when a heartbeat of that node is
    served, and from true to false when a pass of the liveness scanner
    finds the node's last heartbeat 30 ticks old or older; no other
    request, and no heartbeat or registration of another node, touches
    it. *)
Theorem alive_flag_transitions s e id info info' :
  dict_get id (datanodes s) = Some info →
  dict_get id (datanodes (step s e)) = Some info' →
  DataNodeInfo.is_alive info' ≠ DataNodeInfo.is_alive info →
  (DataNodeInfo.is_alive info' = true ∧
   ∃ now a t c, e = Serve now (Heartbeat id a t c)) ∨
  (DataNodeInfo.is_alive info' = false ∧
   ∃ now, e = Scan now ∧ DataNodeInfo.last_heartbeat info + 30 ≤ now).
Proof.
  intros Hg Hg' Hne.
  destruct (step_registry_entry s e id info Hg) as (info1 & Hg1 & Hcase).
  rewrite Hg' in Hg1. injection Hg1 as <-.
  destruct Hcase as [-> | [(now & a & t & c & -> & ->) | (now & -> & Hs & ->)]].
  - done.
  - left. split; [done|]. by exists now, a, t, c.
  - right. split; [done|]. exists now. split; [done|].
    unfold stale in Hs. apply andb_true_iff in Hs as [Hs _].
    apply negb_true_iff, bool_decide_eq_false in Hs. lia.
Qed.

Lemma alive_flag_transitions_witness :
  (DataNodeInfo.is_alive
     (DataNodeInfo.set_is_alive false (DataNodeInfo.init 0 "dn1" "localhost" 8001))
   = true ∧
   ∃ now a t c, Scan 40 = Serve now (Heartbeat "dn1" a t c)) ∨
  (DataNodeInfo.is_alive
     (DataNodeInfo.set_is_alive false (DataNodeInfo.init 0 "dn1" "localhost" 8001))
   = false ∧
   ∃ now, Scan 40 = Scan now ∧
          DataNodeInfo.last_heartbeat (DataNodeInfo.init 0 "dn1" "localhost" 8001) + 30
          ≤ now).
Proof.
  refine (alive_flag_transitions example_state (Scan 40) "dn1"
            (DataNodeInfo.init 0 "dn1" "localhost" 8001)
            (DataNodeInfo.set_is_alive false (DataNodeInfo.init 0 "dn1" "localhost" 8001))
            _ _ _).
  - vm_compute. reflexivity.
  - vm_compute. reflexivity.
  - simpl. discriminate.
Defined.

(** X13: the NameNode never adds a replica to a recorded file. Across any
    event other than an [upload_complete] or [delete_file] for the file
    itself, the file keeps its record with the same size, replication
    factor and chunk keys, and the replica list of each chunk afterwards is
    a sublist of the one before. A chunk that [is_under_replicated] reports
    is therefore still reported afterwards, and a file the replication
    manager logs is still logged: the manager only reports. *)
Theorem replicas_never_added s e f md :
  reachable s →
  files s !! f = Some md →
  ¬ rewrites f e →
  ∃ md',
    files (step s e) !! f = Some md' ∧
    FileMetadata.size md' = FileMetadata.size md ∧
    FileMetadata.replication_factor md' = FileMetadata.replication_factor md ∧
    dict_keys (FileMetadata.chunks md') = dict_keys (FileMetadata.chunks md) ∧
    (∀ k, FileMetadata.get_chunk_locations k md'
          `sublist_of` FileMetadata.get_chunk_locations k md) ∧
    (∀ k, k ∈ FileMetadata.is_under_replicated md →
          k ∈ FileMetadata.is_under_replicated md') ∧
    (is_Some (replication_manager s !! f) →
     is_Some (replication_manager (step s e) !! f)).
Proof.
  intros Hreach Hf Hrw.
  destruct (reachable_wf s Hreach) as (_ & _ & _ & Hmd).
  destruct (Hmd _ _ Hf) as [Hnd _].
  assert (∃ md',
    files (step s e) !! f = Some md' ∧
    FileMetadata.size md' = FileMetadata.size md ∧
    FileMetadata.replication_factor md' = FileMetadata.replication_factor md ∧
    dict_keys (FileMetadata.chunks md') = dict_keys (FileMetadata.chunks md) ∧
    (∀ k, FileMetadata.get_chunk_locations k md'
          `sublist_of` FileMetadata.get_chunk_locations k md))
    as (md' & Hf' & Hsize & Hrf & Hkeys & Hsub).
  { destruct (step_file_record s e f md Hf Hrw) as [Hsame | [dead Hp]].
    - by exists md.
    - exists (purge_dead dead md). split; [done|].
      destruct (purge_dead_fields dead md) as (_ & -> & _ & -> & _).
      split; [done|]. split; [done|]. split; [apply purge_dead_keys|].
      intros k. rewrite purge_dead_get by done. apply remove_each_sublist. }
  assert (∀ k, k ∈ FileMetadata.is_under_replicated md →
               k ∈ FileMetadata.is_under_replicated md') as Hunder.
  { intros k [Hk Hlt]%is_under_replicated_elem; [|done].
    apply is_under_replicated_elem; [by rewrite Hkeys|].
    rewrite Hkeys, Hrf. split; [done|].
    pose proof (sublist_length _ _ (Hsub k)). lia. }
  exists md'. repeat split; try done.
  unfold replication_manager. rewrite !lookup_omap, Hf, Hf'. simpl.
  destruct (FileMetadata.is_under_replicated md) as [|k ks] eqn:Hu.
  { by intros [? [=]]. }
  intros _. pose proof (Hunder k (list_elem_of_here _ _)) as Hin.
  destruct (FileMetadata.is_under_replicated md'); [by apply elem_of_nil in Hin|].
  by eexists.
Qed.

Lemma replicas_never_added_witness :
  ∃ md',
    files (step example_file_state (Scan 40)) !! "f.bin" = Some md' ∧
    FileMetadata.size md' = FileMetadata.size example_record ∧
    ∀ k, FileMetadata.get_chunk_locations k md'
         `sublist_of` FileMetadata.get_chunk_locations k example_record.
Proof.
  assert (files example_file_state !! "f.bin" = Some example_record) as Hf
    by (vm_compute; reflexivity).
  assert (¬ rewrites "f.bin" (Scan 40)) as Hrw by (intros []).
  destruct (replicas_never_added example_file_state (Scan 40) "f.bin" example_record
              example_file_state_reachable Hf Hrw)
    as (md' & H1 & H2 & _ & _ & H3 & _).
  exists md'. exact (conj H1 (conj H2 H3)).
Defined.

(** X14: the totals of [get_cluster_status] follow the file index. The
    call leaves the state as it is. After an [upload_complete] the reported
    total size is the old total, less the size recorded for that name
    before (if any), plus the size the request declares, and the file count
    grows by one exactly when the name was new; after a [delete_file] the
    total drops by the recorded size and the count by one exactly when the
    name was known. Neither request changes the list of DataNodes. *)
Theorem cluster_status_accounting s now filename filesize chunks :
  let st := (get_cluster_status s).2 in
  let recorded :=
    match files s !! filename with Some md => FileMetadata.size md | None => 0 end in
  let known := match files s !! filename with Some _ => 1 | None => 0 end in
  let up :=
    (get_cluster_status
       (handle_client s now (UploadComplete filename filesize chunks)).1).2 in
  let del := (get_cluster_status (handle_client s now (DeleteFile filename)).1).2 in
  (get_cluster_status s).1 = s ∧
  (total_size up = total_size st - recorded + filesize ∧
   total_files up = total_files st + 1 - known ∧
   status_datanodes up = status_datanodes st) ∧
  (total_size del = total_size st - recorded ∧
   total_files del = total_files st - known ∧
   status_datanodes del = status_datanodes st).
Proof.
  intros st recorded known up del. split; [done|]. split.
  - destruct (handle_upload_complete_installs s now filename filesize chunks)
      as (md & Hfiles & Hnodes & Hsize & _).
    unfold up, st. cbn [handle_client get_cluster_status snd total_size total_files
                         status_datanodes].
    rewrite Hfiles, Hnodes. split; [|split; [|done]].
    + rewrite total_size_insert, Hsize. unfold recorded.
      destruct (files s !! filename) as [old|] eqn:Hf.
      * rewrite (total_size_delete (files s) filename old) by done. lia.
      * rewrite delete_id by done. lia.
    + rewrite map_size_insert. unfold known.
      destruct (files s !! filename); simpl; lia.
  - unfold del, st, recorded, known. cbn [handle_client]. unfold delete_file.
    destruct (files s !! filename) as [old|] eqn:Hf; simpl.
    + split; [|split; [|done]].
      * rewrite (total_size_delete (files s) filename old) by done. lia.
      * rewrite map_size_delete, Hf.
        assert (size (files s) ≠ 0%nat).
        { intros Hz. apply map_size_empty_iff in Hz. by rewrite Hz in Hf. }
        lia.
    + split; [lia|]. split; [lia|done].
Qed.

(** X15: [get_cluster_status] lists every registered DataNode, dead or
    alive, exactly once and in registration order: the ids of its entries
    are the keys of the registry, and the entry of each registered node is
    the [to_dict] of its record. *)
Theorem cluster_status_lists_registry s :
  reachable s →
  let st := (get_cluster_status s).2 in
  DataNodeInfo.dict_node_id <$> status_datanodes st = dict_keys (datanodes s) ∧
  NoDup (DataNodeInfo.dict_node_id <$> status_datanodes st) ∧
  ∀ id info, dict_get id (datanodes s) = Some info →
             DataNodeInfo.to_dict info ∈ status_datanodes st.
Proof.
  intros Hreach st. destruct (reachable_wf s Hreach) as (_ & _ & Hreg & _).
  assert (DataNodeInfo.dict_node_id <$> status_datanodes st = dict_keys (datanodes s))
    as Hids.
  { unfold st. simpl. rewrite <-list_fmap_compose.
    by rewrite <-(registry_node_ids _ Hreg). }
  split; [done|]. split; [rewrite Hids; apply Hreg|].
  intros id info Hg. unfold st. simpl. apply list_elem_of_fmap. exists info.
  split; [done|]. apply dict_values_elem. exists id. by apply dict_get_Some_elem.
Qed.

Lemma cluster_status_lists_registry_witness :
  DataNodeInfo.dict_node_id
    <$> status_datanodes (get_cluster_status (step example_state (Scan 40))).2
  = ["dn1"; "dn2"; "dn3"].
Proof.
  exact (proj1 (cluster_status_lists_registry (step example_state (Scan 40))
                  (reachable_step _ _ example_state_reachable))).
Defined.

(** X17: ties in the placement go to the node registered first. When all
    live nodes report the same available space (as they do between
    registration and the first heartbeat), the nodes chosen for a chunk are
    the first [count] live nodes in registration order. *)
Theorem placement_ties_by_registration s now count c :
  0 ≤ count →
  (∀ node, node ∈ live_nodes s now → DataNodeInfo.available_space node = c) →
  select_datanodes_for_chunk s now count
  = node_ref <$> take (Z.to_nat count) (live_nodes s now).
Proof.
  intros Hc Hall. rewrite select_datanodes_spec by done.
  by rewrite (py_sort_reverse_ties _ _ c).
Qed.

Lemma placement_ties_by_registration_witness :
  select_datanodes_for_chunk fresh_fleet 5 2
  = [mkNodeRef "dn1" "localhost" 8001; mkNodeRef "dn2" "localhost" 8002].
Proof.
  refine (placement_ties_by_registration fresh_fleet 5 2 0 _ _); [lia|].
  intros node Hin. vm_compute in Hin.
  repeat (apply elem_of_cons in Hin as [-> | Hin]; [reflexivity|]).
  by apply elem_of_nil in Hin.
Defined.

(** X18: the replica lists of [FileMetadata]. Adding a location puts the
    node in the chunk's list and touches no other chunk; adding it a second
    time changes nothing. Removing it again gives back the list the chunk
    had when the node was new to it, but never the key: a chunk that was
    not in the table before stays in it with an empty list. *)
Theorem chunk_location_add_remove k x md :
  let md1 := FileMetadata.add_chunk_location k x md in
  FileMetadata.add_chunk_location k x md1 = md1 ∧
  x ∈ FileMetadata.get_chunk_locations k md1 ∧
  (∀ k', k' ≠ k →
     FileMetadata.get_chunk_locations k' md1 = FileMetadata.get_chunk_locations k' md) ∧
  k ∈ dict_keys (FileMetadata.chunks (FileMetadata.remove_chunk_location k x md1)) ∧
  (x ∉ FileMetadata.get_chunk_locations k md →
   FileMetadata.get_chunk_locations k (FileMetadata.remove_chunk_location k x md1)
   = FileMetadata.get_chunk_locations k md).
Proof.
  intros md1.
  assert (x ∈ FileMetadata.get_chunk_locations k md1) as Hin.
  { unfold md1. rewrite add_chunk_location_get, decide_True by done.
    case_bool_decide; [done|]. apply elem_of_app. right. apply list_elem_of_here. }
  assert (k ∈ dict_keys (FileMetadata.chunks md1)) as Hk
    by (apply add_chunk_location_keys; by left).
  split; [|split; [done|split; [|split]]].
  - unfold FileMetadata.add_chunk_location at 1.
    rewrite (proj2 (dict_contains_true _ _) Hk).
    by rewrite bool_decide_eq_true_2.
  - intros k' Hne. unfold md1. by rewrite add_chunk_location_get, decide_False.
  - by rewrite remove_chunk_location_keys.
  - intros Hx. rewrite remove_chunk_location_get, decide_True by done.
    unfold md1. rewrite add_chunk_location_get, decide_True by done.
    rewrite bool_decide_eq_false_2 by done. by apply py_list_remove_last.
Qed.
End name_node_properties.

(** ** client.py *)

Section client_properties.
Import NameNode DFSClient.







(** X22: the fallback of [download_file] over the replicas of one chunk.
    The loop returns the answer of the first node in the list whose
    [retrieve_chunk_from_datanode] gives a non-empty chunk; nodes before it
    that fail or answer with no bytes are skipped alike. It gives up
    exactly when every node of the list fails or answers with no bytes, so
    a chunk stored as zero bytes is never downloaded. *)
Theorem try_datanodes_first_nonempty link servers chunk_id datanodes :
  let answer r :=
    retrieve_chunk_from_datanode link servers (ref_host r) (ref_port r) chunk_id in
  (∀ data,
     try_datanodes link servers chunk_id datanodes = Some data ↔
     data ≠ [] ∧
     ∃ skipped r rest,
       datanodes = skipped ++ r :: rest ∧ answer r = Some data ∧
       ∀ r', r' ∈ skipped → answer r' = None ∨ answer r' = Some []) ∧
  (try_datanodes link servers chunk_id datanodes = None ↔
   ∀ r, r ∈ datanodes → answer r = None ∨ answer r = Some []).
Proof.
  intros answer. induction datanodes as [|r refs [IHsome IHnone]]; simpl.
  { split.
    - intros data. split; [done|]. intros (_ & skipped & r & rest & Heq & _).
      by destruct skipped.
    - split; [|done]. intros _ r Hr. by apply elem_of_nil in Hr. }
  fold (answer r).
  destruct (answer r) as [[|b0 data0]|] eqn:Hr.
  - split.
    + intros data. rewrite IHsome. split.
      * intros (Hne & skipped & r1 & rest & -> & Ha & Hskip). split; [done|].
        exists (r :: skipped), r1, rest. split; [done|]. split; [done|].
        intros r' [-> | ?]%elem_of_cons; auto.
      * intros (Hne & skipped & r1 & rest & Heq & Ha & Hskip). split; [done|].
        destruct skipped as [|r0 skipped]; simplify_eq/=; try congruence.
        exists skipped, r1, rest. split; [done|]. split; [done|].
        intros r' Hr'. apply Hskip. by apply list_elem_of_further.
    + rewrite IHnone. split.
      * intros Hall r' [-> | ?]%elem_of_cons; auto.
      * intros Hall r' Hr'. apply Hall. by apply list_elem_of_further.
  - split.
    + intros data. split.
      * intros [= <-]. split; [done|]. exists [], r, refs.
        split; [done|]. split; [done|]. intros r' Hr'. by apply elem_of_nil in Hr'.
      * intros (Hne & skipped & r1 & rest & Heq & Ha & Hskip).
        destruct skipped as [|r0 skipped]; simplify_eq/=; try congruence.
        destruct (Hskip r0 (list_elem_of_here _ _)); congruence.
    + split; [done|]. intros Hall.
      destruct (Hall r (list_elem_of_here _ _)); congruence.
  - split.
    + intros data. rewrite IHsome. split.
      * intros (Hne & skipped & r1 & rest & -> & Ha & Hskip). split; [done|].
        exists (r :: skipped), r1, rest. split; [done|]. split; [done|].
        intros r' [-> | ?]%elem_of_cons; auto.
      * intros (Hne & skipped & r1 & rest & Heq & Ha & Hskip). split; [done|].
        destruct skipped as [|r0 skipped]; simplify_eq/=; try congruence.
        exists skipped, r1, rest. split; [done|]. split; [done|].
        intros r' Hr'. apply Hskip. by apply list_elem_of_further.
    + rewrite IHnone. split.
      * intros Hall r' [-> | ?]%elem_of_cons; auto.
      * intros Hall r' Hr'. apply Hall. by apply list_elem_of_further.
Qed.


(** X24: with replication factor 0 no file of at least one byte can be
    uploaded. Either [upload_init] does not get through, or it succeeds
    with an empty node list for every chunk and the client then has no node
    to store the first chunk on: [upload_file] returns [False] over any
    data plane and any control plane, leaving the NameNode and the
    DataNodes as they were. *)
Theorem upload_with_zero_replication link ctl c t_init t_complete local_path b
    remote_filename :
  reachable (namenode c) →
  replication_factor (namenode c) = 0 →
  b ≠ [] →
  upload_file link ctl c t_init t_complete local_path (Some b) remote_filename
  = (c, false).
Proof.
  intros Hreach Hrf Hb.
  destruct (reachable_wf _ Hreach) as (Hcs & _).
  destruct c as [s net]. simpl in *.
  unfold upload_file, send_to_namenode. simpl.
  destruct (request_lost ctl _); [done|].
  unfold handle_upload_init.
  rewrite decide_False by lia.
  assert (select_datanodes_for_chunk s t_init (replication_factor s) = []) as Hsel
    by (rewrite select_datanodes_spec by lia; by rewrite Hrf).
  rewrite assign_chunks_enough by (rewrite Hsel, Hrf; simpl; lia).
  rewrite Hsel.
  destruct (response_lost ctl _); [done|].
  set (n := (Z.of_nat (length b) + chunk_size s - 1) `div` chunk_size s).
  assert (0 < n) as Hn.
  { destruct (ceil_div_spec (Z.of_nat (length b)) (chunk_size s) Hcs) as [_ Hle].
    fold n in Hle. destruct b; [done|]. simpl in Hle. nia. }
  rewrite seqZ_cons by done. cbn [upload_chunks].
  destruct (file_read (chunk_size s) b) as [data f'].
  rewrite dict_get_foldl_set, decide_True by apply list_elem_of_here.
  done.
Qed.

Lemma upload_with_zero_replication_witness :
  upload_file faithful_link reliable_control (mkCluster (init 4 0) ∅) 5 6 "data/f.bin"
    (Some example_file) None
  = (mkCluster (init 4 0) ∅, false).
Proof.
  refine (upload_with_zero_replication faithful_link reliable_control
            (mkCluster (init 4 0) ∅) 5 6 "data/f.bin" example_file None _ eq_refl _).
  - exists 4, 0, []. by repeat split.
  - discriminate.
Defined.



(** X26: what a successful upload leaves on the DataNodes. Over a faithful
    data plane, from a reachable NameNode state, after [upload_file]
    returned [True] the file has a record under the name it is stored under
    (the remote name given, or the base name of the local path), and every
    node the record lists for chunk [k] is a registered node whose server
    holds, under the id [chunk_<name>_<k>], exactly the bytes
    [k * chunk_size .. (k + 1) * chunk_size) of the file. *)
Theorem upload_stores_slices link ctl c c' t_init t_complete local_path b
    remote_filename :
  let name := remote_name local_path remote_filename in
  faithful link →
  reachable (namenode c) →
  upload_file link ctl c t_init t_complete local_path (Some b) remote_filename
  = (c', true) →
  ∃ md,
    files (namenode c') !! name = Some md ∧
    ∀ k x, x ∈ FileMetadata.get_chunk_locations k md →
      ∃ info,
        dict_get x (datanodes (namenode c')) = Some info ∧
        served (servers c') (DataNodeInfo.host info, DataNodeInfo.port info)
          (chunk_name name k)
          (take (Z.to_nat (chunk_size (namenode c)))
             (drop (Z.to_nat (k * chunk_size (namenode c))) b)).
Proof.
  intros name Hf Hreach Hup.
  destruct (upload_file_inv link ctl c c' t_init t_complete local_path b remote_filename
              name Hf Hreach eq_refl Hup)
    as (n & md & Hcs & Hceil & Hfiles & Hdn & _ & _ & _ & _ & Hserved).
  exists md. split; [rewrite Hfiles; apply lookup_insert_eq|].
  intros k x Hx. destruct (Hserved k x Hx) as (d & info & Hplan & Hinfo & Hs).
  exists info. split; [by rewrite Hdn|].
  assert (0 ≤ n) as Hn by nia.
  rewrite <-(Z2Nat.id n) in Hplan by done.
  apply chunk_plan_slice in Hplan as [_ ->]; [|lia].
  by replace (k - 0) with k in Hs by lia.
Qed.

Lemma upload_stores_slices_witness :
  ∃ md,
    files (namenode (upload_file faithful_link reliable_control example_cluster 5 6
                       "data/f.bin" (Some example_file) None).1) !! "f.bin"
    = Some md ∧
    ∀ k x, x ∈ FileMetadata.get_chunk_locations k md →
      ∃ info,
        dict_get x
          (datanodes (namenode (upload_file faithful_link reliable_control
                                  example_cluster 5 6 "data/f.bin"
                                  (Some example_file) None).1)) = Some info ∧
        served
          (servers (upload_file faithful_link reliable_control example_cluster 5 6
                      "data/f.bin" (Some example_file) None).1)
          (DataNodeInfo.host info, DataNodeInfo.port info) (chunk_name "f.bin" k)
          (take (Z.to_nat (chunk_size (namenode example_cluster)))
             (drop (Z.to_nat (k * chunk_size (namenode example_cluster)))
                example_file)).
Proof.
  refine (upload_stores_slices faithful_link reliable_control example_cluster _ 5 6
            "data/f.bin" example_file None _ _ _).
  - split; [by intros; repeat split|done].
  - exact example_state_reachable.
  - vm_compute. reflexivity.
Defined.

(** X27: the client does not check how many bytes of a chunk arrive. When
    the connection from a DataNode that holds a chunk is closed after fewer
    bytes than the response header announced,
    [retrieve_chunk_from_datanode] returns the bytes that came, and the
    download loop takes them as the chunk if there is at least one. *)
Theorem download_accepts_short_stream link servers r chunk_id held received rest :
  served servers (ref_host r, ref_port r) chunk_id held →
  downlink link (ref_host r, ref_port r) chunk_id held = (received, DataNode.PeerClosed) →
  (length received < length held)%nat →
  retrieve_chunk_from_datanode link servers (ref_host r) (ref_port r) chunk_id
  = Some received ∧
  (received ≠ [] → try_datanodes link servers chunk_id (r :: rest) = Some received).
Proof.
  intros (dn & Hdn & Hholds) Hlink Hshort.
  assert (retrieve_chunk_from_datanode link servers (ref_host r) (ref_port r) chunk_id
          = Some received) as Hget.
  { unfold retrieve_chunk_from_datanode.
    rewrite Hdn, (retrieve_chunk_holds _ _ _ Hholds), Hlink.
    rewrite recv_chunk_spec. by rewrite bool_decide_eq_false_2 by lia. }
  split; [done|]. intros Hne. simpl. rewrite Hget. by destruct received.
Qed.

Lemma download_accepts_short_stream_witness :
  retrieve_chunk_from_datanode short_downlink example_servers "localhost" 8001
    "chunk_f.bin_0"
  = Some [x41; x42].
Proof.
  refine (proj1 (download_accepts_short_stream short_downlink example_servers
                   (mkNodeRef "dn1" "localhost" 8001) "chunk_f.bin_0"
                   [x41; x42; x43; x44] [x41; x42] [] _ eq_refl _)).
  - eexists. split; [apply lookup_insert_eq|apply holds_stored].
  - simpl. lia.
Defined.
End client_properties.
